(** * Paperless NGX MCP server: the resource-access layer

    A shallow embedding of [src/services/paperless-api.ts] (config guard,
    error classifier, request executor) and of the saved-view handler of
    [src/schemas/index.ts], with the properties the specification states
    about them.

    The program is TypeScript running on a JavaScript engine.  The values
    that cross the module boundary as [unknown] are modelled dynamically
    ([js_value]); the parts of the language runtime that the code calls
    (truthiness, [String], [Array.prototype.join], [Object.entries],
    [JSON.parse], [JSON.stringify]) are written out in section "The
    JavaScript runtime" below.  A function that can throw returns a
    [completion]; the asynchronous [apiRequest] is a [prog], a program
    that awaits the network once.

    The file is laid out as follows: the runtime; the source, function by
    function and under the names of the source; the vocabulary of the
    specification; then the facts, component by component, each
    statement of the specification under its number (C1 to C10).  The
    source part also holds the tool handlers of [src/schemas/index.ts],
    the health check of [index.ts] and the formatter of tags; the facts
    end with further properties of the code (X1 to X21): what the
    executor sends and raises call by call, and what the handlers ask
    the server for. *)

From Stdlib Require Import List String Ascii ZArith Bool Lia DecimalString DecimalPos.
Import ListNotations.

Local Open Scope string_scope.
Local Open Scope Z_scope.

(* ===================================================================== *)
(** * The JavaScript runtime *)
(* ===================================================================== *)

(** ** Strings

    A JavaScript string is modelled as a Rocq [string].  Text outside
    ASCII is held as its UTF-8 bytes (the way the literal
    ["Settings → API Tokens"] of the source is held below), so that
    concatenation, equality, emptiness and substring search are those of
    the program.  The length and the characters of a string are counted
    in bytes, which is exact for ASCII text; the program uses them only
    to tell an empty string from others and to list the characters of a
    body that is itself a JSON string. *)

(** [hay.includes(needle)] *)
Fixpoint includes (hay needle : string) : bool :=
  if String.prefix needle hay then true
  else match hay with
       | EmptyString => false
       | String _ rest => includes rest needle
       end.

(** [parts.join(sep)] on an array of strings *)
Definition join (sep : string) (parts : list string) : string :=
  String.concat sep parts.

Definition string_of_nat (n : nat) : string :=
  NilZero.string_of_uint (Nat.to_uint n).

Definition string_of_Z (z : Z) : string :=
  NilZero.string_of_int (Z.to_int z).

(** ** Numbers

    A number is held as the exact decimal [mantissa * 10 ^ exponent].
    Every JSON numeral and every integer the program handles has this
    form; the rounding of a numeral to binary64 is not modelled, so that
    the model is that of the program on the numerals that a number holds
    as written: those of at most 15 significant digits, within the range
    of binary64. *)

Record number : Type := mkNumber { mantissa : Z; exponent : Z }.

Definition number_of_Z (z : Z) : number := mkNumber z 0.

Definition number_is_zero (n : number) : bool := mantissa n =? 0.

(** Decimal digits of a positive mantissa with the trailing zeros moved
    into the exponent: the digit string [s] and the count of removed
    zeros. *)
Fixpoint strip_trailing_zeros (rev_digits : list ascii) : list ascii * nat :=
  match rev_digits with
  | "0"%char :: rest =>
      let '(d, z) := strip_trailing_zeros rest in (d, S z)
  | _ => (rev_digits, O)
  end.

Definition significant_digits (m : Z) : list ascii * nat :=
  let ds := list_ascii_of_string (string_of_Z (Z.abs m)) in
  let '(rd, z) := strip_trailing_zeros (rev ds) in
  (rev rd, z).

Definition zeros (n : nat) : string := string_of_list_ascii (repeat "0"%char n).

(** [Number::toString] (radix 10) of the language definition, on the
    digits [d :: ds] (of length [k], without trailing zeros) and the
    position [n] of the decimal point: the value is the digit string
    times [10 ^ (n - k)]. *)
Definition Number_toString (x : number) : string :=
  if number_is_zero x then "0"
  else
    let sign := if mantissa x <? 0 then "-" else "" in
    let '(s, z) := significant_digits (mantissa x) in
    let k := Z.of_nat (List.length s) in
    let n := k + exponent x + Z.of_nat z in
    match s with
    | [] => "0"                                (* a non-zero mantissa has digits *)
    | d :: ds =>
        if (k <=? n) && (n <=? 21) then
          sign ++ String d (string_of_list_ascii ds ++ zeros (Z.to_nat (n - k)))
        else if (0 <? n) && (n <=? 21) then
          sign ++ string_of_list_ascii (firstn (Z.to_nat n) s) ++ "." ++
          string_of_list_ascii (skipn (Z.to_nat n) s)
        else if (-6 <? n) && (n <=? 0) then
          sign ++ "0." ++ zeros (Z.to_nat (- n)) ++ string_of_list_ascii s
        else
          let e := n - 1 in
          let esign := if e <? 0 then "-" else "+" in
          match ds with
          | [] => sign ++ String d ("e" ++ esign ++ string_of_Z (Z.abs e))
          | _ :: _ => sign ++ String d ("." ++ string_of_list_ascii ds
                                 ++ "e" ++ esign ++ string_of_Z (Z.abs e))
          end
    end.

(** ** Values

    The values a response body can take: what [JSON.parse] produces, and
    [undefined] for an absent value.  An object holds its own properties
    in the order in which [Object.entries] enumerates them. *)

#[warnings="-register-all"]
Inductive js_value : Type :=
| JUndefined
| JNull
| JBool (b : bool)
| JNum (n : number)
| JStr (s : string)
| JArr (items : list js_value)
| JObj (props : list (string * js_value)).

(** ** Exceptions *)

(** [class PaperlessApiError extends Error]: the message, the optional
    status code, and the optional response body ([JUndefined] when not
    given). *)
Record PaperlessApiError : Type := mkPaperlessApiError {
  message : string;
  statusCode : option Z;
  responseBody : js_value
}.

(** What a [throw] carries and what a [catch] can tell apart. *)
Inductive thrown : Type :=
| ThrowApiError (e : PaperlessApiError)   (* instanceof PaperlessApiError *)
| ThrowError (name msg : string)          (* any other instanceof Error *)
| ThrowValue (v : js_value).              (* a value that is no Error *)

Inductive completion (A : Type) : Type :=
| Return (a : A)
| Throw (t : thrown).

Arguments Return {A} a.
Arguments Throw {A} t.

Definition bind {A B : Type} (c : completion A) (k : A -> completion B)
  : completion B :=
  match c with
  | Return a => k a
  | Throw t => Throw t
  end.

Declare Scope js_scope.
Delimit Scope js_scope with js.
Notation "x <- c ;; k" := (bind c (fun x => k))
  (at level 61, c at next level, right associativity) : js_scope.
Local Open Scope js_scope.

(** The [TypeError]s below carry the wording of V8 (Node.js); the wording
    is the engine's, the fact that a [TypeError] is thrown is the
    language's. *)
Definition TypeError (msg : string) : thrown := ThrowError "TypeError" msg.

(** ** Truthiness: [ToBoolean] *)
Definition truthy (v : js_value) : bool :=
  match v with
  | JUndefined | JNull => false
  | JBool b => b
  | JNum n => negb (number_is_zero n)
  | JStr s => negb (s =? "")%string
  | JArr _ | JObj _ => true
  end.

Definition is_string (v : js_value) : bool :=
  match v with JStr _ => true | _ => false end.

(** [Array.isArray(v)] *)
Definition Array_isArray (v : js_value) : bool :=
  match v with JArr _ => true | _ => false end.

(** ** Own properties of an object *)

Fixpoint lookup {V : Type} (key : string) (props : list (string * V)) : option V :=
  match props with
  | [] => None
  | (k, v) :: rest => if (k =? key)%string then Some v else lookup key rest
  end.

Definition has_key {V : Type} (key : string) (props : list (string * V)) : bool :=
  match lookup key props with Some _ => true | None => false end.

(** An array index is the canonical numeral of an integer below 2^32 - 1;
    such keys are enumerated first, in ascending order, the other keys
    after them in the order of their creation. *)
Definition array_index (key : string) : option N :=
  match NilEmpty.uint_of_string key with
  | Some u =>
      let n := N.of_uint u in
      if ((NilZero.string_of_uint (N.to_uint n) =? key)%string
          && (n <=? 4294967294)%N)%bool
      then Some n else None
  | None => None
  end.

(** Where a new key goes: before the first key that must follow it. *)
Fixpoint insert_new {V : Type} (key : string) (v : V) (props : list (string * V))
  : list (string * V) :=
  match props with
  | [] => [(key, v)]
  | (k, w) :: rest =>
      match array_index key, array_index k with
      | Some n, Some m =>
          if (n <? m)%N then (key, v) :: props
          else (k, w) :: insert_new key v rest
      | Some _, None => (key, v) :: props
      | None, _ => (k, w) :: insert_new key v rest
      end
  end.

Fixpoint replace_value {V : Type} (key : string) (v : V) (props : list (string * V))
  : list (string * V) :=
  match props with
  | [] => []
  | (k, w) :: rest =>
      if (k =? key)%string then (k, v) :: rest
      else (k, w) :: replace_value key v rest
  end.

(** [obj[key] = v] on an ordinary object: an existing key keeps its place
    and takes the new value, a new key is added. *)
Definition obj_set {V : Type} (props : list (string * V)) (key : string) (v : V)
  : list (string * V) :=
  if has_key key props then replace_value key v props
  else insert_new key v props.

(** ** Conversion to string: [ToString], [String(v)], [`${v}`] *)

Section ArrayJoin.
Variable elem_to_string : js_value -> completion string.

(** [Array.prototype.join]: [undefined] and [null] elements give the
    empty string, the others are converted in order. *)
Definition join_element (v : js_value) : completion string :=
  match v with
  | JUndefined | JNull => Return ""
  | _ => elem_to_string v
  end.

Fixpoint join_elements (sep : string) (items : list js_value)
  : completion string :=
  match items with
  | [] => Return ""
  | [x] => join_element x
  | x :: rest =>
      sx <- join_element x ;;
      sr <- join_elements sep rest ;;
      Return (sx ++ sep ++ sr)
  end.
End ArrayJoin.

(** An object parsed from JSON converts through [Object.prototype.toString]
    unless an own property of that name (never callable in JSON data)
    shadows it; then no conversion to a primitive exists. *)
Fixpoint ToString (v : js_value) : completion string :=
  match v with
  | JUndefined => Return "undefined"
  | JNull => Return "null"
  | JBool true => Return "true"
  | JBool false => Return "false"
  | JNum n => Return (Number_toString n)
  | JStr s => Return s
  | JArr items => join_elements ToString "," items
  | JObj props =>
      if has_key "toString" props
      then Throw (TypeError "Cannot convert object to primitive value")
      else Return "[object Object]"
  end.

(** [items.join(sep)] *)
Definition Array_join (items : list js_value) (sep : string) : completion string :=
  join_elements ToString sep items.

(** ** Property access *)

(** [v.name] for a data property [name] that no prototype defines
    ([detail], [error], [non_field_errors]). *)
Definition get_field (v : js_value) (name : string) : completion js_value :=
  match v with
  | JUndefined =>
      Throw (TypeError ("Cannot read properties of undefined (reading '"
                          ++ name ++ "')"))
  | JNull =>
      Throw (TypeError ("Cannot read properties of null (reading '"
                          ++ name ++ "')"))
  | JObj props =>
      match lookup name props with
      | Some x => Return x
      | None => Return JUndefined
      end
  | _ => Return JUndefined
  end.

(** [v?.length] *)
Definition optional_length (v : js_value) : js_value :=
  match v with
  | JUndefined | JNull => JUndefined
  | JArr items => JNum (number_of_Z (Z.of_nat (List.length items)))
  | JStr s => JNum (number_of_Z (Z.of_nat (String.length s)))
  | JObj props =>
      match lookup "length" props with
      | Some x => x
      | None => JUndefined
      end
  | JBool _ | JNum _ => JUndefined
  end.

(** [v.join(sep)]: only an array has a callable [join]. *)
Definition call_join (what : string) (v : js_value) (sep : string)
  : completion string :=
  match v with
  | JArr items => Array_join items sep
  | _ => Throw (TypeError (what ++ ".join is not a function"))
  end.

(** ** [Object.entries] *)

Fixpoint indexed {A : Type} (from : nat) (items : list A) : list (string * A) :=
  match items with
  | [] => []
  | x :: rest => (string_of_nat from, x) :: indexed (S from) rest
  end.

Definition characters (s : string) : list js_value :=
  map (fun c => JStr (String c EmptyString)) (list_ascii_of_string s).

Definition Object_entries (v : js_value) : completion (list (string * js_value)) :=
  match v with
  | JUndefined | JNull =>
      Throw (TypeError "Cannot convert undefined or null to object")
  | JObj props => Return props
  | JArr items => Return (indexed 0 items)
  | JStr s => Return (indexed 0 (characters s))
  | JBool _ | JNum _ => Return []
  end.

(** ** [JSON.stringify] *)

Definition dquote : string := String (ascii_of_nat 34) EmptyString.

Definition hex_digit (n : N) : ascii :=
  if (n <? 10)%N then ascii_of_N (48 + n) else ascii_of_N (87 + n).

(** [QuoteJSONString]: the two-character escapes, [\u00xx] for the other
    control characters, every other character as it is. *)
Definition quote_char (c : ascii) : string :=
  let n := N_of_ascii c in
  if (n =? 8)%N then "\b"
  else if (n =? 9)%N then "\t"
  else if (n =? 10)%N then "\n"
  else if (n =? 12)%N then "\f"
  else if (n =? 13)%N then "\r"
  else if (n =? 34)%N then "\" ++ dquote
  else if (n =? 92)%N then "\\"
  else if (n <? 32)%N then
    "\u00" ++ String (hex_digit (n / 16)) (String (hex_digit (n mod 16)) EmptyString)
  else String c EmptyString.

Fixpoint quote_chars (s : string) : string :=
  match s with
  | EmptyString => EmptyString
  | String c rest => quote_char c ++ quote_chars rest
  end.

Definition quote (s : string) : string := dquote ++ quote_chars s ++ dquote.

(** [SerializeJSONProperty] without indentation; [None] stands for
    [undefined].  An [undefined] array element is written [null], a
    property whose value is [undefined] is left out. *)
Fixpoint serialize (v : js_value) : option string :=
  match v with
  | JUndefined => None
  | JNull => Some "null"
  | JBool true => Some "true"
  | JBool false => Some "false"
  | JNum n => Some (Number_toString n)
  | JStr s => Some (quote s)
  | JArr items =>
      Some ("[" ++ join "," (map (fun x => match serialize x with
                                          | Some t => t
                                          | None => "null"
                                          end) items) ++ "]")
  | JObj props =>
      Some ("{" ++ join "," (flat_map (fun kv => let '(k, x) := kv in
                                         match serialize x with
                                         | Some t => [quote k ++ ":" ++ t]
                                         | None => []
                                         end) props) ++ "}")
  end.

Definition JSON_stringify (v : js_value) : js_value :=
  match serialize v with
  | Some t => JStr t
  | None => JUndefined
  end.

(** ** [JSON.parse] *)

Definition is_ws (c : ascii) : bool :=
  let n := N_of_ascii c in
  ((n =? 32) || (n =? 9) || (n =? 10) || (n =? 13))%N.

Fixpoint skip_ws (l : list ascii) : list ascii :=
  match l with
  | c :: rest => if is_ws c then skip_ws rest else l
  | [] => []
  end.

Definition is_digit (c : ascii) : bool :=
  let n := N_of_ascii c in ((48 <=? n) && (n <=? 57))%N.

Definition digit_value (c : ascii) : Z := Z.of_N (N_of_ascii c) - 48.

Fixpoint take_digits (l : list ascii) : list ascii * list ascii :=
  match l with
  | c :: rest =>
      if is_digit c
      then let '(ds, r) := take_digits rest in (c :: ds, r)
      else ([], l)
  | [] => ([], [])
  end.

Definition digits_value (ds : list ascii) : Z :=
  fold_left (fun acc c => 10 * acc + digit_value c) ds 0.

Definition hex_value (c : ascii) : option N :=
  let n := N_of_ascii c in
  if ((48 <=? n) && (n <=? 57))%N then Some (n - 48)%N
  else if ((97 <=? n) && (n <=? 102))%N then Some (n - 87)%N
  else if ((65 <=? n) && (n <=? 70))%N then Some (n - 55)%N
  else None.

(** The character of a [\uXXXX] escape, or of two such escapes that
    form a surrogate pair, held as UTF-8 bytes. *)
Definition utf8 (cp : N) : string :=
  if (cp <? 128)%N then String (ascii_of_N cp) EmptyString
  else if (cp <? 2048)%N then
    String (ascii_of_N (192 + cp / 64))
      (String (ascii_of_N (128 + cp mod 64)) EmptyString)
  else if (cp <? 65536)%N then
    String (ascii_of_N (224 + cp / 4096))
      (String (ascii_of_N (128 + (cp / 64) mod 64))
         (String (ascii_of_N (128 + cp mod 64)) EmptyString))
  else
    String (ascii_of_N (240 + cp / 262144))
      (String (ascii_of_N (128 + (cp / 4096) mod 64))
         (String (ascii_of_N (128 + (cp / 64) mod 64))
            (String (ascii_of_N (128 + cp mod 64)) EmptyString))).

(** A high surrogate followed by the escape of a low surrogate: the code
    point of the pair. *)
Definition surrogate_pair (high : N) (b u g1 g2 g3 g4 : ascii) : option N :=
  if ((55296 <=? high) && (high <=? 56319)
      && (N_of_ascii b =? 92) && (N_of_ascii u =? 117))%N
  then
    match hex_value g1, hex_value g2, hex_value g3, hex_value g4 with
    | Some a, Some b', Some c, Some d =>
        let low := (4096 * a + 256 * b' + 16 * c + d)%N in
        if ((56320 <=? low) && (low <=? 57343))%N
        then Some (65536 + (high - 55296) * 1024 + (low - 56320))%N
        else None
    | _, _, _, _ => None
    end
  else None.

Definition simple_escape (c : ascii) : option ascii :=
  let n := N_of_ascii c in
  if (n =? 34)%N then Some c                        (* quote *)
  else if (n =? 92)%N then Some c                   (* backslash *)
  else if (n =? 47)%N then Some c                   (* slash *)
  else if (n =? 98)%N then Some (ascii_of_N 8)      (* b *)
  else if (n =? 102)%N then Some (ascii_of_N 12)    (* f *)
  else if (n =? 110)%N then Some (ascii_of_N 10)    (* n *)
  else if (n =? 114)%N then Some (ascii_of_N 13)    (* r *)
  else if (n =? 116)%N then Some (ascii_of_N 9)     (* t *)
  else None.

(** The characters of a string literal after its opening quote, up to and
    including the closing quote. *)
Fixpoint parse_string (l : list ascii) : option (string * list ascii) :=
  match l with
  | [] => None
  | c :: rest =>
      let n := N_of_ascii c in
      if (n =? 34)%N then Some (EmptyString, rest)
      else if (n =? 92)%N then
        match rest with
        | [] => None
        | e :: rest1 =>
            if (N_of_ascii e =? 117)%N then        (* u and four hex digits *)
              match rest1 with
              | h1 :: h2 :: h3 :: h4 :: rest2 =>
                  match hex_value h1, hex_value h2, hex_value h3, hex_value h4 with
                  | Some a, Some b, Some c', Some d =>
                      let unit := (4096 * a + 256 * b + 16 * c' + d)%N in
                      let single :=
                        match parse_string rest2 with
                        | Some (s, r) => Some (utf8 unit ++ s, r)
                        | None => None
                        end in
                      match rest2 with
                      | b1 :: u1 :: g1 :: g2 :: g3 :: g4 :: rest3 =>
                          match surrogate_pair unit b1 u1 g1 g2 g3 g4 with
                          | Some cp =>
                              match parse_string rest3 with
                              | Some (s, r) => Some (utf8 cp ++ s, r)
                              | None => None
                              end
                          | None => single
                          end
                      | _ => single
                      end
                  | _, _, _, _ => None
                  end
              | _ => None
              end
            else
              match simple_escape e with
              | Some ch =>
                  match parse_string rest1 with
                  | Some (s, r) => Some (String ch s, r)
                  | None => None
                  end
              | None => None
              end
        end
      else if (n <? 32)%N then None
      else
        match parse_string rest with
        | Some (s, r) => Some (String c s, r)
        | None => None
        end
  end.

(** A numeral: an optional minus, an integer part without a leading zero
    (or the single digit 0), an optional fraction, an optional exponent. *)
Definition parse_exponent (l : list ascii) : option (Z * list ascii) :=
  match l with
  | c :: rest =>
      if ((N_of_ascii c =? 101) || (N_of_ascii c =? 69))%N then
        let '(neg, rest1) :=
          match rest with
          | s :: r => if (N_of_ascii s =? 45)%N then (true, r)
                      else if (N_of_ascii s =? 43)%N then (false, r)
                      else (false, rest)
          | [] => (false, rest)
          end in
        match take_digits rest1 with
        | ([], _) => None
        | (ds, r) => Some (if neg then - digits_value ds else digits_value ds, r)
        end
      else Some (0, l)
  | [] => Some (0, l)
  end.

Definition parse_fraction (l : list ascii) : option (list ascii * list ascii) :=
  match l with
  | c :: rest =>
      if (N_of_ascii c =? 46)%N then
        match take_digits rest with
        | ([], _) => None
        | (ds, r) => Some (ds, r)
        end
      else Some ([], l)
  | [] => Some ([], l)
  end.

Definition parse_number (l : list ascii) : option (number * list ascii) :=
  let '(neg, l1) :=
    match l with
    | c :: rest => if (N_of_ascii c =? 45)%N then (true, rest) else (false, l)
    | [] => (false, l)
    end in
  match take_digits l1 with
  | ([], _) => None
  | (ds, l2) =>
      let canonical :=
        match ds with
        | z :: _ :: _ => negb (N_of_ascii z =? 48)%N
        | _ => true
        end in
      if canonical then
        match parse_fraction l2 with
        | Some (fs, l3) =>
            match parse_exponent l3 with
            | Some (e, l4) =>
                let m := digits_value (ds ++ fs) in
                Some (mkNumber (if neg then - m else m)
                               (e - Z.of_nat (List.length fs)), l4)
            | None => None
            end
        | None => None
        end
      else None
  end.

Fixpoint strip_prefix (word l : list ascii) : option (list ascii) :=
  match word, l with
  | [], _ => Some l
  | w :: word', c :: rest =>
      if (w =? c)%char then strip_prefix word' rest else None
  | _ :: _, [] => None
  end.

Definition parse_literal (l : list ascii) : option (js_value * list ascii) :=
  match strip_prefix (list_ascii_of_string "null") l with
  | Some r => Some (JNull, r)
  | None =>
  match strip_prefix (list_ascii_of_string "true") l with
  | Some r => Some (JBool true, r)
  | None =>
  match strip_prefix (list_ascii_of_string "false") l with
  | Some r => Some (JBool false, r)
  | None => None
  end end end.

(** Values, array elements and object members.  [fuel] bounds the number
    of nested calls; a member that repeats a key replaces the value of
    the earlier one ([obj_set]). *)
Fixpoint parse_value (fuel : nat) (l : list ascii) {struct fuel}
  : option (js_value * list ascii) :=
  match fuel with
  | O => None
  | S fuel' =>
      match skip_ws l with
      | [] => None
      | c :: rest =>
          let n := N_of_ascii c in
          if (n =? 123)%N then                      (* { *)
            match skip_ws rest with
            | c1 :: rest1 =>
                if (N_of_ascii c1 =? 125)%N then Some (JObj [], rest1)
                else parse_members fuel' [] rest
            | [] => None
            end
          else if (n =? 91)%N then                  (* [ *)
            match skip_ws rest with
            | c1 :: rest1 =>
                if (N_of_ascii c1 =? 93)%N then Some (JArr [], rest1)
                else parse_elements fuel' [] rest
            | [] => None
            end
          else if (n =? 34)%N then                  (* string *)
            match parse_string rest with
            | Some (s, r) => Some (JStr s, r)
            | None => None
            end
          else if ((n =? 45) || is_digit c)%N then
            match parse_number (c :: rest) with
            | Some (x, r) => Some (JNum x, r)
            | None => None
            end
          else parse_literal (c :: rest)
      end
  end
with parse_elements (fuel : nat) (acc : list js_value) (l : list ascii)
  {struct fuel} : option (js_value * list ascii) :=
  match fuel with
  | O => None
  | S fuel' =>
      match parse_value fuel' l with
      | Some (v, r) =>
          match skip_ws r with
          | c :: rest =>
              if (N_of_ascii c =? 44)%N then parse_elements fuel' (v :: acc) rest
              else if (N_of_ascii c =? 93)%N then Some (JArr (rev (v :: acc)), rest)
              else None
          | [] => None
          end
      | None => None
      end
  end
with parse_members (fuel : nat) (acc : list (string * js_value)) (l : list ascii)
  {struct fuel} : option (js_value * list ascii) :=
  match fuel with
  | O => None
  | S fuel' =>
      match skip_ws l with
      | q :: rest =>
          if (N_of_ascii q =? 34)%N then
            match parse_string rest with
            | Some (key, r) =>
                match skip_ws r with
                | c :: r1 =>
                    if (N_of_ascii c =? 58)%N then
                      match parse_value fuel' r1 with
                      | Some (v, r2) =>
                          let acc' := obj_set acc key v in
                          match skip_ws r2 with
                          | c2 :: r3 =>
                              if (N_of_ascii c2 =? 44)%N
                              then parse_members fuel' acc' r3
                              else if (N_of_ascii c2 =? 125)%N
                              then Some (JObj acc', r3)
                              else None
                          | [] => None
                          end
                      | None => None
                      end
                    else None
                | [] => None
                end
            | None => None
            end
          else None
      | [] => None
      end
  end.

(** [JSON.parse(text)]: [None] when the engine throws [SyntaxError].
    Every call of the three functions above either consumes a character
    of the text or is followed by a call that does, so that the nesting
    of the calls never exceeds twice the length of the text. *)
Definition JSON_parse (text : string) : option js_value :=
  let l := list_ascii_of_string text in
  match parse_value (2 * List.length l + 2) l with
  | Some (v, rest) =>
      match skip_ws rest with
      | [] => Some v
      | _ :: _ => None
      end
  | None => None
  end.

(** JSON text is written below with ['] in place of the double quote. *)
Fixpoint json_text (s : string) : string :=
  match s with
  | EmptyString => EmptyString
  | String c rest =>
      String (if (N_of_ascii c =? 39)%N then ascii_of_nat 34 else c)
             (json_text rest)
  end.

(** [items.map(f)] with a callback that can throw: the elements are
    visited in order and the first exception ends the loop. *)
Fixpoint map_completion {A B : Type} (f : A -> completion B) (items : list A)
  : completion (list B) :=
  match items with
  | [] => Return []
  | x :: rest =>
      y <- f x ;;
      ys <- map_completion f rest ;;
      Return (y :: ys)
  end.

(** [keys.includes(key)] on an array of strings *)
Definition array_includes (keys : list string) (key : string) : bool :=
  existsb (fun k => (k =? key)%string) keys.

(* ===================================================================== *)
(** * Error classifier: [parseErrorResponse], [formatHttpError] *)
(* ===================================================================== *)

(** The template of one field-specific error:
    [`${key}: ${Array.isArray(value) ? value.join(", ") : value}`] *)
Definition render_field_error (entry : string * js_value) : completion string :=
  let '(key, value) := entry in
  rendered <- (if Array_isArray value
               then call_join "value" value ", "
               else ToString value) ;;
  Return (key ++ ": " ++ rendered).

(** The part of [parseErrorResponse] after [const error = body]: the
    response formats used by Paperless, then the field-specific errors,
    then [JSON.stringify(body)]. *)
Definition parse_error_object (error : js_value) : completion js_value :=
  detail <- get_field error "detail" ;;
  if truthy detail then Return detail else
  err <- get_field error "error" ;;
  if truthy err then Return err else
  non_field_errors <- get_field error "non_field_errors" ;;
  if truthy (optional_length non_field_errors) then
    joined <- call_join "error.non_field_errors" non_field_errors ", " ;;
    Return (JStr joined)
  else
    entries <- Object_entries error ;;
    fieldErrors <-
      map_completion render_field_error
        (filter (fun kv => Array_isArray (snd kv) || is_string (snd kv))
           (filter (fun kv => negb (array_includes
                                      ["detail"; "error"; "non_field_errors"]
                                      (fst kv)))
              entries)) ;;
    if (0 <? List.length fieldErrors)%nat
    then Return (JStr (join "; " fieldErrors))
    else Return (JSON_stringify error).

(** [function parseErrorResponse(body: unknown): string].  The declared
    result type is [string]; what is returned at run time is the value of
    the field that matched, hence a [js_value]. *)
Definition parseErrorResponse (body : js_value) : completion js_value :=
  if negb (truthy body) then Return (JStr "Unknown error")
  else
    match body with
    | JStr text =>
        match JSON_parse text with
        | Some parsed => parse_error_object parsed
        | None => Return body
        end
    | _ => parse_error_object body
    end.

Definition authentication_failed_message : string :=
  "Authentication failed. Your PAPERLESS_TOKEN may be invalid or expired. " ++
  "Please verify the token in your Paperless NGX settings.".

Definition not_found_message : string :=
  "Resource not found. Please verify the ID exists in Paperless NGX.".

(** [function formatHttpError(status: number, body: unknown): string].
    [detail] is computed before the [switch]; a template that embeds it
    converts it with [ToString]. *)
Definition formatHttpError (status : Z) (body : js_value) : completion string :=
  detail <- parseErrorResponse body ;;
  match status with
  | 400 =>
      d <- ToString detail ;;
      Return ("Bad request: " ++ d ++ ". Please check your input parameters.")
  | 401 => Return authentication_failed_message
  | 403 =>
      d <- ToString detail ;;
      Return ("Permission denied: " ++ d ++
              ". Your API token may lack the required permissions for this operation.")
  | 404 => Return not_found_message
  | 409 =>
      d <- ToString detail ;;
      Return ("Conflict: " ++ d ++
              ". The resource may have been modified by another user.")
  | 413 => Return "File too large. Please reduce the file size and try again."
  | 429 =>
      Return "Rate limit exceeded. Please wait a moment before making more requests."
  | 500 | 502 | 503 | 504 =>
      Return ("Paperless server error (HTTP " ++ string_of_Z status ++
              "). The server may be unavailable or overloaded. Please try again later.")
  | _ =>
      d <- ToString detail ;;
      Return ("HTTP " ++ string_of_Z status ++ " error: " ++ d)
  end.

(* ===================================================================== *)
(** * Configuration: [constants.ts] and [validateConfig] *)
(* ===================================================================== *)

Record Config : Type := mkConfig {
  PAPERLESS_URL : string;
  PAPERLESS_TOKEN : string
}.

Definition REQUEST_TIMEOUT_MS : Z := 30000.
Definition DEFAULT_PAGE_SIZE : Z := 25.
Definition MAX_PAGE_SIZE : Z := 100.

(** [s.replace(/\/$/, "")]: one trailing slash is removed. *)
Fixpoint strip_trailing_slash (s : string) : string :=
  match s with
  | EmptyString => EmptyString
  | String c EmptyString => if (N_of_ascii c =? 47)%N then EmptyString else s
  | String c rest => String c (strip_trailing_slash rest)
  end.

(** [process.env.X || ""] *)
Definition env_or_empty (x : option string) : string :=
  match x with
  | Some v => v
  | None => EmptyString
  end.

(** The two settings as [constants.ts] reads them from the environment. *)
Definition load_config (env_url env_token : option string) : Config :=
  mkConfig (strip_trailing_slash (env_or_empty env_url))
           (env_or_empty env_token).

Definition api_error (msg : string) : thrown :=
  ThrowApiError (mkPaperlessApiError msg None JUndefined).

Definition missing_url_message : string :=
  "PAPERLESS_URL environment variable is not set. " ++
  "Please configure it with your Paperless NGX server URL (e.g., https://paperless.example.com)".

Definition missing_token_message : string :=
  "PAPERLESS_TOKEN environment variable is not set. " ++
  "Please configure it with an API token from your Paperless NGX server. " ++
  "You can create one in Settings → API Tokens.".

(** [function validateConfig(): void] *)
Definition validateConfig (cfg : Config) : completion unit :=
  if (PAPERLESS_URL cfg =? "")%string then Throw (api_error missing_url_message)
  else if (PAPERLESS_TOKEN cfg =? "")%string
       then Throw (api_error missing_token_message)
  else Return tt.

(** [function getHeaders(contentType = "application/json")] *)
Definition getHeaders (cfg : Config) (contentType : string)
  : list (string * string) :=
  [("Authorization", "Token " ++ PAPERLESS_TOKEN cfg);
   ("Content-Type", contentType);
   ("Accept", "application/json")].

(* ===================================================================== *)
(** * Request executor: [apiRequest] *)
(* ===================================================================== *)

(** ** Query parameters

    [Record<string, string | number | boolean | undefined>]; [null] is
    listed because the loop tests for it. *)
Inductive primitive : Type :=
| PUndefined
| PNull
| PBool (b : bool)
| PNum (n : number)
| PStr (s : string).

(** [String(value)] *)
Definition String_of (value : primitive) : string :=
  match value with
  | PUndefined => "undefined"
  | PNull => "null"
  | PBool true => "true"
  | PBool false => "false"
  | PNum n => Number_toString n
  | PStr s => s
  end.

(** [value !== undefined && value !== null && value !== ""] *)
Definition is_sent (value : primitive) : bool :=
  match value with
  | PUndefined | PNull => false
  | PStr s => negb (s =? "")%string
  | PBool _ | PNum _ => true
  end.

(** ** The platform

    [URL]: the address as given and the list behind [url.searchParams].
    How the class reads an address (and which query the address already
    carries) is the platform's; [new_URL] stands for the constructor, which
    throws [TypeError] on an address it cannot read.  [syntax_error] is the
    wording of the [SyntaxError] that the JSON decoder raises on a text. *)
Record URL : Type := mkURL {
  href : string;
  searchParams : list (string * string)
}.

Record Platform : Type := mkPlatform {
  new_URL : string -> completion URL;
  syntax_error : string -> string
}.

(** [url.searchParams.append(key, value)] *)
Definition searchParams_append (url : URL) (key value : string) : URL :=
  mkURL (href url) (searchParams url ++ [(key, value)]).

(** A platform on which an address is taken as it is and carries no query
    of its own: the case of every address that this repository builds
    ([PAPERLESS_URL] followed by a path such as [/api/documents/]).  The
    wording of the [SyntaxError] is V8's for a text that ends too early. *)
Definition plain_address : Platform :=
  mkPlatform (fun address => Return (mkURL address []))
             (fun _ => "Unexpected end of JSON input").

Definition FormData : Type := list (string * string).

Inductive request_body : Type :=
| NoBody
| MultipartBody (formData : FormData)
| JsonBody (text : js_value).

(** [RequestInit]; [signal] is [AbortSignal.timeout(timeout)]. *)
Record RequestInit : Type := mkRequestInit {
  method : string;
  headers : list (string * string);
  timeout : Z;
  body : request_body
}.

(** What [fetch] settles to.  A response carries its status, its headers
    as [response.headers] exposes them (lower-case names), and its body
    text; [text_retry] is what [response.text()] settles to when it is
    called after [response.json()] has failed ([None]: rejected).
    A rejection of [fetch] is an [Error]: a [TypeError] for a network
    failure, the [DOMException] named [TimeoutError] of the signal. *)
Record Response : Type := mkResponse {
  status : Z;
  response_headers : list (string * string);
  response_text : string;
  text_retry : option string
}.

Inductive fetch_outcome : Type :=
| Fulfilled (response : Response)
| Rejected (name msg : string).

(** [response.ok] *)
Definition ok (r : Response) : bool := (200 <=? status r) && (status r <=? 299).

(** [await response.json()] *)
Definition response_json (P : Platform) (r : Response) : completion js_value :=
  match JSON_parse (response_text r) with
  | Some v => Return v
  | None => Throw (ThrowError "SyntaxError" (syntax_error P (response_text r)))
  end.

(** [response.headers.get(name)] *)
Definition headers_get (r : Response) (name : string) : option string :=
  lookup name (response_headers r).

(** ** Programs that talk to the network

    [apiRequest] is asynchronous: it writes to the error console, awaits
    one [fetch], and settles.  [Fetch url init k] is the await: the
    program continues with [k] on what the network delivers. *)
Inductive prog (A : Type) : Type :=
| Done (c : completion A)
| Log (line : string) (k : prog A)
| Fetch (url : URL) (init : RequestInit) (k : fetch_outcome -> prog A).

Arguments Done {A} c.
Arguments Log {A} line k.
Arguments Fetch {A} url init k.

Inductive event : Type :=
| Logged (line : string)
| Fetched (url : URL) (init : RequestInit).

(** Running a program against a network. *)
Fixpoint run {A : Type} (network : URL -> RequestInit -> fetch_outcome)
  (p : prog A) : completion A * list event :=
  match p with
  | Done c => (c, [])
  | Log line k =>
      let '(c, trace) := run network k in (c, Logged line :: trace)
  | Fetch url init k =>
      let '(c, trace) := run network (k (network url init)) in
      (c, Fetched url init :: trace)
  end.

Definition is_fetch (e : event) : bool :=
  match e with Fetched _ _ => true | Logged _ => false end.

Definition network_calls (trace : list event) : nat :=
  List.length (filter is_fetch trace).

(** ** The catch block of [apiRequest] *)

Definition timeout_message : string :=
  "Request timed out after " ++ string_of_Z (REQUEST_TIMEOUT_MS / 1000) ++
  " seconds. " ++ "The Paperless server may be slow or unreachable.".

Definition unreachable_message (cfg : Config) : string :=
  "Could not connect to Paperless at " ++ PAPERLESS_URL cfg ++ ". " ++
  "Please verify the URL is correct and the server is running.".

Definition request_failed_message (msg : string) : string :=
  "Request failed: " ++ msg.

Definition unexpected_message : string :=
  "An unexpected error occurred while communicating with Paperless NGX.".

Definition catch_block (cfg : Config) (error : thrown) : thrown :=
  match error with
  | ThrowApiError e => ThrowApiError e
  | ThrowError name msg =>
      if ((name =? "TimeoutError") || (name =? "AbortError"))%string
      then api_error timeout_message
      else if includes msg "fetch" || includes msg "network"
      then api_error (unreachable_message cfg)
      else api_error (request_failed_message msg)
  | ThrowValue _ => api_error unexpected_message
  end.

(** ** The try block, from the settled [fetch] on *)

Definition success_sentinel : js_value := JObj [("status", JStr "success")].

(** The body of a non-2xx response: [response.json()], else
    [response.text()], else [null]. *)
Definition read_error_body (r : Response) : js_value :=
  match JSON_parse (response_text r) with
  | Some v => v
  | None =>
      match text_retry r with
      | Some t => JStr t
      | None => JNull
      end
  end.

Definition try_block (P : Platform) (outcome : fetch_outcome)
  : completion js_value :=
  match outcome with
  | Rejected name msg => Throw (ThrowError name msg)
  | Fulfilled response =>
      if negb (ok response) then
        let errorBody := read_error_body response in
        msg <- formatHttpError (status response) errorBody ;;
        Throw (ThrowApiError
                 (mkPaperlessApiError msg (Some (status response)) errorBody))
      else if (status response =? 204)
              || match headers_get response "content-length" with
                 | Some v => (v =? "0")%string
                 | None => false
                 end
      then Return success_sentinel
      else response_json P response
  end.

Definition try_catch (P : Platform) (cfg : Config) (outcome : fetch_outcome)
  : completion js_value :=
  match try_block P outcome with
  | Return v => Return v
  | Throw error => Throw (catch_block cfg error)
  end.

(** ** [apiRequest] *)

Record RequestOptions : Type := mkRequestOptions {
  params : option (list (string * primitive));
  request_json : js_value;                 (* [options.body]; absent: [JUndefined] *)
  formData : option FormData
}.

Definition no_options : RequestOptions := mkRequestOptions None JUndefined None.

(** The [forEach] over [Object.entries(options.params)] *)
Definition append_params (url : URL) (entries : list (string * primitive)) : URL :=
  fold_left (fun u kv => if is_sent (snd kv)
                         then searchParams_append u (fst kv) (String_of (snd kv))
                         else u)
            entries url.

(** The URL that [apiRequest] hands to [fetch]. *)
Definition build_url (P : Platform) (cfg : Config) (endpoint : string)
  (options : RequestOptions) : completion URL :=
  url <- new_URL P (PAPERLESS_URL cfg ++ endpoint) ;;
  match params options with
  | Some entries => Return (append_params url entries)
  | None => Return url
  end.

Definition is_undefined (v : js_value) : bool :=
  match v with JUndefined => true | _ => false end.

Definition fetch_options (cfg : Config) (method : string)
  (options : RequestOptions) : RequestInit :=
  mkRequestInit method
    (match formData options with
     | Some _ => [("Authorization", "Token " ++ PAPERLESS_TOKEN cfg);
                  ("Accept", "application/json")]
     | None => getHeaders cfg "application/json"
     end)
    REQUEST_TIMEOUT_MS
    (match formData options with
     | Some fd => MultipartBody fd
     | None => if is_undefined (request_json options) then NoBody
               else JsonBody (JSON_stringify (request_json options))
     end).

(** The two [console.error] lines written when a JSON body is sent. *)
Definition debug_log {A : Type} (method endpoint : string)
  (options : RequestOptions) (k : prog A) : prog A :=
  match formData options with
  | Some _ => k
  | None =>
      if is_undefined (request_json options) then k
      else
        Log ("[API DEBUG] " ++ method ++ " " ++ endpoint)
          (Log ("[API DEBUG] Body: " ++
                match JSON_stringify (request_json options) with
                | JStr t => t
                | _ => "undefined"
                end) k)
  end.

Definition apiRequest (P : Platform) (cfg : Config) (method endpoint : string)
  (options : RequestOptions) : prog js_value :=
  match validateConfig cfg with
  | Throw t => Done (Throw t)
  | Return _ =>
      match build_url P cfg endpoint options with
      | Throw t => Done (Throw t)
      | Return url =>
          debug_log method endpoint options
            (Fetch url (fetch_options cfg method options)
               (fun outcome => Done (try_catch P cfg outcome)))
      end
  end.

(** [get], [post], [patch], [del] *)
Definition get (P : Platform) (cfg : Config) (endpoint : string)
  (params : option (list (string * primitive))) : prog js_value :=
  apiRequest P cfg "GET" endpoint (mkRequestOptions params JUndefined None).


Definition patch (P : Platform) (cfg : Config) (endpoint : string)
  (body : js_value) : prog js_value :=
  apiRequest P cfg "PATCH" endpoint (mkRequestOptions None body None).

Definition del (P : Platform) (cfg : Config) (endpoint : string) : prog js_value :=
  apiRequest P cfg "DELETE" endpoint no_options.

(* ===================================================================== *)
(** * Saved views: the handler of [paperless_execute_saved_view] *)
(* ===================================================================== *)

(** [interface SavedViewFilterRule] *)
Record SavedViewFilterRule : Type := mkRule {
  rule_type : Z;
  value : option string                    (* [string | null] *)
}.

(** [interface PaperlessSavedView]; [filter_rules] is [None] when the
    field is missing or [null], the case that [view.filter_rules || []]
    guards against. *)
Record PaperlessSavedView : Type := mkView {
  id : Z;
  name : string;
  show_on_dashboard : bool;
  show_in_sidebar : bool;
  sort_field : option string;              (* [string | null] *)
  sort_reverse : bool;
  filter_rules : option (list SavedViewFilterRule);
  owner : option Z
}.

Inductive ResponseFormat : Type := markdown | json.

(** [ExecuteSavedViewInput]: the tool input after validation. *)
Record ExecuteSavedViewInput : Type := mkInput {
  view_id : Z;
  page : Z;
  page_size : Z;
  response_format : ResponseFormat
}.

(** [ExecuteSavedViewSchema]: [view_id] a positive integer, [page] at
    least 1 (default 1), [page_size] from 1 to [MAX_PAGE_SIZE] (default
    [DEFAULT_PAGE_SIZE]), [response_format] (default markdown). *)
Definition ExecuteSavedViewSchema (raw_view_id : Z)
  (raw_page raw_page_size : option Z) (raw_format : option ResponseFormat)
  : option ExecuteSavedViewInput :=
  let page := match raw_page with Some p => p | None => 1 end in
  let page_size :=
    match raw_page_size with Some p => p | None => DEFAULT_PAGE_SIZE end in
  let format := match raw_format with Some f => f | None => markdown end in
  if (0 <? raw_view_id) && (1 <=? page)
     && (1 <=? page_size) && (page_size <=? MAX_PAGE_SIZE)
  then Some (mkInput raw_view_id page page_size format)
  else None.

(** The body of the loop over the filter rules. *)
Definition apply_filter_rule (apiParams : list (string * primitive))
  (rule : SavedViewFilterRule) : list (string * primitive) :=
  let ruleType := rule_type rule in
  match value rule with
  | None => apiParams                                   (* continue *)
  | Some value =>
      match ruleType with
      | 0 => obj_set apiParams "title__icontains" (PStr value)
      | 3 => obj_set apiParams "correspondent__id" (PStr value)
      | 4 => obj_set apiParams "document_type__id" (PStr value)
      | 6 => obj_set apiParams "tags__id__all" (PStr value)
      | 17 => obj_set apiParams "created__date__gt" (PStr value)
      | 18 => obj_set apiParams "created__date__lt" (PStr value)
      | _ => apiParams
      end
  end.

(** [if (view.sort_field)]: neither [null] nor the empty string *)
Definition sort_field_set (view : PaperlessSavedView) : option string :=
  match sort_field view with
  | Some f => if (f =? "")%string then None else Some f
  | None => None
  end.

(** The parameters before the loop: the pagination of the input and the
    sort settings of the view. *)
Definition sort_params (input : ExecuteSavedViewInput) (view : PaperlessSavedView)
  : list (string * primitive) :=
  let apiParams := [("page", PNum (number_of_Z (page input)));
                    ("page_size", PNum (number_of_Z (page_size input)))] in
  match sort_field_set view with
  | Some field =>
      let sortPrefix := if sort_reverse view then "-" else "" in
      obj_set apiParams "ordering" (PStr (sortPrefix ++ field))
  | None => apiParams
  end.

(** [view.filter_rules || []] *)
Definition rules_of (view : PaperlessSavedView) : list SavedViewFilterRule :=
  match filter_rules view with
  | Some rules => rules
  | None => []
  end.

(** The query parameters that the handler builds from the validated input
    and the saved view it has fetched. *)
Definition saved_view_apiParams (input : ExecuteSavedViewInput)
  (view : PaperlessSavedView) : list (string * primitive) :=
  fold_left apply_filter_rule (rules_of view) (sort_params input view).

(* ===================================================================== *)
(** * Tool handlers: [handleToolError] and the handlers of [registerTools] *)
(* ===================================================================== *)

(** The line feed of [lines.join("\n")] *)
Definition LF : string := String (ascii_of_nat 10) EmptyString.

(** [`${n}`] for an integer [n] *)
Definition decimal (n : Z) : string := Number_toString (number_of_Z n).

(** [if (s)] and [if (n)] on an optional string and an optional number:
    the value when it is given and truthy. *)
Definition truthy_string (s : option string) : option string :=
  match s with
  | Some v => if (v =? "")%string then None else Some v
  | None => None
  end.

Definition truthy_number (n : option Z) : option Z :=
  match n with
  | Some v => if v =? 0 then None else Some v
  | None => None
  end.

(** Awaiting a request inside a [try]: the rest of the program runs on
    what the request settles to. *)
Fixpoint prog_bind {A B : Type} (p : prog A) (k : completion A -> prog B)
  : prog B :=
  match p with
  | Done c => k c
  | Log line rest => Log line (prog_bind rest k)
  | Fetch url init continue =>
      Fetch url init (fun outcome => prog_bind (continue outcome) k)
  end.

(** [function handleToolError(error: unknown)]: the text of the tool
    response [{ content: [{ type: "text", text }] }]. *)
Definition handleToolError (error : thrown) : string :=
  match error with
  | ThrowApiError e => "Error: " ++ message e
  | ThrowError _ msg => "Error: " ++ msg
  | ThrowValue _ => "An unexpected error occurred."
  end.

(** The frame of every handler:
    [try { const data = await request; return text(data) }
     catch (error) { return handleToolError(error) }].
    The result is the text of the tool response. *)
Definition tool {A : Type} (request : prog A) (text : A -> completion string)
  : prog string :=
  prog_bind request
    (fun settled =>
       Done (Return
               match settled with
               | Return data =>
                   match text data with
                   | Return t => t
                   | Throw error => handleToolError error
                   end
               | Throw error => handleToolError error
               end)).

(** [`/api/documents/${params.document_id}/`] *)
Definition document_endpoint (document_id : Z) : string :=
  "/api/documents/" ++ decimal document_id ++ "/".

(** The handler of [paperless_delete_document] *)
Definition deleted_message (document_id : Z) : string :=
  "Document #" ++ decimal document_id ++ " has been permanently deleted.".

Definition paperless_delete_document (P : Platform) (cfg : Config)
  (document_id : Z) : prog string :=
  tool (del P cfg (document_endpoint document_id))
       (fun _ => Return (deleted_message document_id)).

(** The handler of [paperless_get_document_download_url] *)
Definition download_text (cfg : Config) (document_id : Z) (original : bool)
  : string :=
  let urlPath :=
    if original
    then "/api/documents/" ++ decimal document_id ++ "/original/"
    else "/api/documents/" ++ decimal document_id ++ "/download/" in
  join LF
    ["**Download URL:**";
     PAPERLESS_URL cfg ++ urlPath;
     "";
     "**Note:** This URL requires authentication. Include your API token in the Authorization header: `Authorization: Token YOUR_TOKEN`"].

Definition paperless_get_document_download_url (P : Platform) (cfg : Config)
  (document_id : Z) (original : bool) : prog string :=
  tool (get P cfg (document_endpoint document_id) None)
       (fun _ => Return (download_text cfg document_id original)).

(** ** [paperless_update_document] *)

Module Update.
(** [CustomFieldValueSchema] *)
Record CustomField : Type := mkCustomField {
  field : Z;
  value : primitive
}.

(** [UpdateDocumentInput]; an optional field that is not given is [None]. *)
Record Input : Type := mkInput {
  document_id : Z;
  title : option string;
  correspondent_id : option Z;
  document_type_id : option Z;
  tag_ids : option (list Z);
  archive_serial_number : option Z;
  created : option string;
  custom_fields : option (list CustomField)
}.
End Update.

Definition is_given {A : Type} (x : option A) : bool :=
  match x with Some _ => true | None => false end.

(** [Object.values(updateFields).every(v => v === undefined)], where
    [updateFields] is [params] without [document_id] *)
Definition nothing_to_update (params : Update.Input) : bool :=
  negb (is_given (Update.title params)
        || is_given (Update.correspondent_id params)
        || is_given (Update.document_type_id params)
        || is_given (Update.tag_ids params)
        || is_given (Update.archive_serial_number params)
        || is_given (Update.created params)
        || is_given (Update.custom_fields params)).

Definition nothing_to_update_message : string :=
  "Error: At least one field to update must be specified (title, correspondent_id, document_type_id, tag_ids, archive_serial_number, or created).".

(** [id > 0 ? id : null] *)
Definition id_or_null (id : Z) : js_value :=
  if 0 <? id then JNum (number_of_Z id) else JNull.

Definition numbers (ids : list Z) : js_value :=
  JArr (map (fun id => JNum (number_of_Z id)) ids).

(** The update payload with only the provided fields *)
Definition updateData (params : Update.Input) : list (string * js_value) :=
  let updateData := [] in
  let updateData :=
    match Update.title params with
    | Some t => obj_set updateData "title" (JStr t)
    | None => updateData
    end in
  let updateData :=
    match Update.correspondent_id params with
    | Some id => obj_set updateData "correspondent" (id_or_null id)
    | None => updateData
    end in
  let updateData :=
    match Update.document_type_id params with
    | Some id => obj_set updateData "document_type" (id_or_null id)
    | None => updateData
    end in
  let updateData :=
    match Update.tag_ids params with
    | Some ids => obj_set updateData "tags" (numbers ids)
    | None => updateData
    end in
  let updateData :=
    match Update.archive_serial_number params with
    | Some asn => obj_set updateData "archive_serial_number" (id_or_null asn)
    | None => updateData
    end in
  match Update.created params with
  | Some d => obj_set updateData "created" (JStr d)
  | None => updateData
  end.

(** The handler; [formatDocumentMarkdown] stands for the formatter
    applied to the document that the server returns. *)
Definition paperless_update_document (P : Platform) (cfg : Config)
  (formatDocumentMarkdown : js_value -> completion string)
  (params : Update.Input) : prog string :=
  if nothing_to_update params then Done (Return nothing_to_update_message)
  else
    tool (patch P cfg (document_endpoint (Update.document_id params))
            (JObj (updateData params)))
         (fun data =>
            md <- formatDocumentMarkdown data ;;
            Return ("Document #" ++ decimal (Update.document_id params)
                    ++ " updated successfully!" ++ LF ++ LF ++ md)).

(** ** [paperless_create_tag], [paperless_create_correspondent],
       [paperless_create_document_type] *)

Module Create.
(** [CreateTagInput]; the inputs of the two other tools are the same
    without [color]. *)
Record Input : Type := mkInput {
  name : string;
  color : option string;
  match_ : option string;
  matching_algorithm : option Z;
  is_insensitive : bool
}.
End Create.

(** [corrData] and [dtypeData] *)
Definition create_data (params : Create.Input) : list (string * js_value) :=
  let data := [("name", JStr (Create.name params));
               ("is_insensitive", JBool (Create.is_insensitive params))] in
  let data :=
    match truthy_string (Create.match_ params) with
    | Some m => obj_set data "match" (JStr m)
    | None => data
    end in
  match Create.matching_algorithm params with
  | Some a => obj_set data "matching_algorithm" (JNum (number_of_Z a))
  | None => data
  end.

(** [tagData] *)
Definition tagData (params : Create.Input) : list (string * js_value) :=
  let tagData := [("name", JStr (Create.name params));
                  ("is_insensitive", JBool (Create.is_insensitive params))] in
  let tagData :=
    match truthy_string (Create.color params) with
    | Some c => obj_set tagData "color" (JStr c)
    | None => tagData
    end in
  let tagData :=
    match truthy_string (Create.match_ params) with
    | Some m => obj_set tagData "match" (JStr m)
    | None => tagData
    end in
  match Create.matching_algorithm params with
  | Some a => obj_set tagData "matching_algorithm" (JNum (number_of_Z a))
  | None => tagData
  end.




(** ** [paperless_search_documents] and the list tools *)

(** [DocumentOrderingSchema]: the values of the enumeration *)
Definition document_orderings : list string :=
  ["created"; "-created";
   "modified"; "-modified";
   "added"; "-added";
   "title"; "-title";
   "correspondent__name"; "-correspondent__name";
   "document_type__name"; "-document_type__name";
   "archive_serial_number"; "-archive_serial_number"].

Module SearchDocuments.
(** [SearchDocumentsInput] *)
Record Input : Type := mkInput {
  query : option string;
  correspondent_id : option Z;
  document_type_id : option Z;
  tag_ids : option (list Z);
  created_after : option string;
  created_before : option string;
  ordering : string;
  page : Z;
  page_size : Z;
  response_format : ResponseFormat
}.
End SearchDocuments.

(** [params.tag_ids && params.tag_ids.length > 0] *)
Definition some_tags (tag_ids : option (list Z)) : option (list Z) :=
  match tag_ids with
  | Some (id :: ids) => Some (id :: ids)
  | _ => None
  end.

(** The query parameters of the search handler *)
Definition search_apiParams (params : SearchDocuments.Input) : list (string * primitive) :=
  let apiParams := [("page", PNum (number_of_Z (SearchDocuments.page params)));
                    ("page_size", PNum (number_of_Z (SearchDocuments.page_size params)));
                    ("ordering", PStr (SearchDocuments.ordering params))] in
  let apiParams :=
    match truthy_string (SearchDocuments.query params) with
    | Some q => obj_set apiParams "query" (PStr q)
    | None => apiParams
    end in
  let apiParams :=
    match truthy_number (SearchDocuments.correspondent_id params) with
    | Some id => obj_set apiParams "correspondent__id" (PNum (number_of_Z id))
    | None => apiParams
    end in
  let apiParams :=
    match truthy_number (SearchDocuments.document_type_id params) with
    | Some id => obj_set apiParams "document_type__id" (PNum (number_of_Z id))
    | None => apiParams
    end in
  let apiParams :=
    match some_tags (SearchDocuments.tag_ids params) with
    | Some ids => obj_set apiParams "tags__id__all" (PStr (join "," (map decimal ids)))
    | None => apiParams
    end in
  let apiParams :=
    match truthy_string (SearchDocuments.created_after params) with
    | Some d => obj_set apiParams "created__date__gt" (PStr d)
    | None => apiParams
    end in
  match truthy_string (SearchDocuments.created_before params) with
  | Some d => obj_set apiParams "created__date__lt" (PStr d)
  | None => apiParams
  end.

(** The query parameters of [paperless_list_tags],
    [paperless_list_correspondents] and [paperless_list_document_types],
    three copies of the same lines. *)
Definition list_apiParams (search : option string) (page page_size : Z)
  : list (string * primitive) :=
  let apiParams := [("page", PNum (number_of_Z page));
                    ("page_size", PNum (number_of_Z page_size));
                    ("ordering", PStr "name")] in
  match truthy_string search with
  | Some s => obj_set apiParams "name__icontains" (PStr s)
  | None => apiParams
  end.

(** ** [paperless_execute_saved_view]

    The handler reads the fields of the saved view off the value that the
    first request returns; [read_view] stands for this reading, which
    TypeScript's [get<PaperlessSavedView>] takes on trust and which throws
    on a value without fields ([null]).  [format] stands for
    [formatResponse] with the header and [formatDocumentsListMarkdown],
    applied to what the second request returns. *)
Definition saved_view_endpoint (view_id : Z) : string :=
  "/api/saved_views/" ++ decimal view_id ++ "/".

Definition paperless_execute_saved_view (P : Platform) (cfg : Config)
  (read_view : js_value -> completion PaperlessSavedView)
  (format : PaperlessSavedView -> js_value -> completion string)
  (input : ExecuteSavedViewInput) : prog string :=
  prog_bind (get P cfg (saved_view_endpoint (view_id input)) None)
    (fun settled =>
       match settled with
       | Throw error => Done (Return (handleToolError error))
       | Return data =>
           match read_view data with
           | Throw error => Done (Return (handleToolError error))
           | Return view =>
               tool (get P cfg "/api/documents/"
                       (Some (saved_view_apiParams input view)))
                    (format view)
           end
       end).

(* ===================================================================== *)
(** * The health check of [index.ts] *)
(* ===================================================================== *)

(** What the route answers: the status ([res.json] alone answers 200)
    and the JSON body. *)
Record Reply : Type := mkReply {
  reply_status : Z;
  reply_body : js_value
}.

(** [app.get("/health", ...)] *)
Definition health (cfg : Config) : Reply :=
  let configOk :=
    negb (PAPERLESS_URL cfg =? "")%string
    && negb (PAPERLESS_TOKEN cfg =? "")%string in
  if configOk then
    mkReply 200 (JObj [("status", JStr "healthy");
                       ("server", JStr "paperless-ngx-mcp-server");
                       ("paperless_url", JStr (PAPERLESS_URL cfg))])
  else
    mkReply 503 (JObj [("status", JStr "unhealthy");
                       ("error", JStr "Missing required configuration (PAPERLESS_URL or PAPERLESS_TOKEN)")]).

(* ===================================================================== *)
(** * The vocabulary of the specification *)
(* ===================================================================== *)

(** ** Saved views *)

(** The recognized rule types and the query parameter of each, as the
    specification lists them: title contains, correspondent, document
    type, tags (all), created after, created before. *)
Definition recognized_rule_types : list (Z * string) :=
  [(0, "title__icontains");
   (3, "correspondent__id");
   (4, "document_type__id");
   (6, "tags__id__all");
   (17, "created__date__gt");
   (18, "created__date__lt")].

Fixpoint table_find (t : Z) (table : list (Z * string)) : option string :=
  match table with
  | [] => None
  | (t', p) :: rest => if t' =? t then Some p else table_find t rest
  end.

Definition query_parameter (t : Z) : option string :=
  table_find t recognized_rule_types.

(** What a rule contributes to the mapping: nothing when its value is
    [null] or its type is not recognized. *)
Definition contribution (rule : SavedViewFilterRule) : option (string * string) :=
  match value rule, query_parameter (rule_type rule) with
  | Some v, Some p => Some (p, v)
  | _, _ => None
  end.

(** The rule compiles to the query parameter [p]. *)
Definition compiles_to (p : string) (rule : SavedViewFilterRule) : bool :=
  match contribution rule with
  | Some (q, _) => (q =? p)%string
  | None => false
  end.

Definition keys {V : Type} (m : list (string * V)) : list string := map fst m.

(** ** Exceptions

    An [Error] of the platform (no [PaperlessApiError], no other value);
    a computation that throws nothing else. *)
Definition is_Error (t : thrown) : bool :=
  match t with
  | ThrowError _ _ => true
  | ThrowApiError _ | ThrowValue _ => false
  end.

Definition throws_Errors {A : Type} (c : completion A) : Prop :=
  forall t, c = Throw t -> is_Error t = true.

(** ** Error bodies *)

(** The value that the classifier inspects: the parse of a string body,
    the body itself otherwise; [None] for a string that is not JSON. *)
Definition inspected (body : js_value) : option js_value :=
  match body with
  | JStr text => JSON_parse text
  | _ => Some body
  end.

Definition own_field (v : js_value) (key : string) : option js_value :=
  match v with
  | JObj props => lookup key props
  | _ => None
  end.

(** The entries of a value: the fields of an object; the elements of an
    array and the characters of a string, keyed by their position. *)
Definition entries_of (v : js_value) : list (string * js_value) :=
  match v with
  | JObj props => props
  | JArr items => indexed 0 items
  | JStr s => indexed 0 (characters s)
  | _ => []
  end.

(** The text of a value where the program converts it to a string: a
    string as it is, a number in its decimal notation, a boolean as true
    or false, a list as its elements joined with commas, an object as
    [[object Object]].  Inside a list that is joined, [null] and
    [undefined] give no text at all. *)
Fixpoint value_text (v : js_value) : string :=
  match v with
  | JUndefined => "undefined"
  | JNull => "null"
  | JBool true => "true"
  | JBool false => "false"
  | JNum n => Number_toString n
  | JStr s => s
  | JArr items =>
      join "," (map (fun x => match x with
                              | JUndefined | JNull => ""
                              | _ => value_text x
                              end) items)
  | JObj _ => "[object Object]"
  end.

Definition element_text (v : js_value) : string :=
  match v with
  | JUndefined | JNull => ""
  | _ => value_text v
  end.

(** A list joined with a separator, element by element. *)
Definition joined (sep : string) (items : list js_value) : string :=
  join sep (map element_text items).

(** The values that have a text: every value but an object with a field
    [toString] of its own (which JSON data cannot make callable), and a
    list that holds one. *)
Fixpoint convertible (v : js_value) : bool :=
  match v with
  | JArr items => forallb convertible items
  | JObj props => negb (has_key "toString" props)
  | _ => true
  end.

(** The elements whose text is empty: the empty string, [null],
    [undefined], the empty list, and a list that holds one such element
    and nothing else. *)
Fixpoint renders_empty (v : js_value) : bool :=
  match v with
  | JUndefined | JNull => true
  | JStr s => (s =? "")%string
  | JArr [] => true
  | JArr [x] => renders_empty x
  | _ => false
  end.

Definition field_is (holds : js_value -> bool) (v : js_value) (key : string) : bool :=
  match own_field v key with
  | Some x => holds x
  | None => true
  end.

Definition lists_convert (v : js_value) : bool :=
  forallb (fun kv => if Array_isArray (snd kv) then convertible (snd kv) else true)
          (entries_of v).

(** The shape that [interface ApiErrorResponse] declares: [detail] and
    [error], when present, are strings; [non_field_errors], when present,
    is a list; the other fields are left open.  Every list has a text
    (whatever it holds, short of an object with a [toString] field of its
    own).  [null] is no such value. *)
Definition declared_shape (error : js_value) : bool :=
  match error with
  | JUndefined | JNull => false
  | _ => field_is is_string error "detail"
         && field_is is_string error "error"
         && field_is Array_isArray error "non_field_errors"
         && lists_convert error
  end.

(** A body whose inspected value has the declared shape (a falsy body and
    a string that is not JSON are not inspected). *)
Definition well_shaped (body : js_value) : bool :=
  if truthy body then
    match inspected body with
    | Some error => declared_shape error
    | None => true
    end
  else true.

(** The known shapes of the specification, as matchers tried in order;
    the first that matches gives the detail. *)
Definition matcher : Type := js_value -> option string.

Definition nonempty_string (key : string) : matcher :=
  fun error =>
    match own_field error key with
    | Some (JStr s) => if (s =? "")%string then None else Some s
    | _ => None
    end.

Definition non_field_errors_list : matcher :=
  fun error =>
    match own_field error "non_field_errors" with
    | Some (JArr (x :: rest)) => Some (joined ", " (x :: rest))
    | _ => None
    end.

Definition rendered_entry (entry : string * js_value) : list string :=
  if array_includes ["detail"; "error"; "non_field_errors"] (fst entry) then []
  else match snd entry with
       | JStr s => [fst entry ++ ": " ++ s]
       | JArr items => [fst entry ++ ": " ++ joined ", " items]
       | _ => []
       end.

Definition field_entries : matcher :=
  fun error =>
    match flat_map rendered_entry (entries_of error) with
    | [] => None
    | pairs => Some (join "; " pairs)
    end.

Fixpoint first_match (matchers : list matcher) (error : js_value) : option string :=
  match matchers with
  | [] => None
  | m :: rest =>
      match m error with
      | Some s => Some s
      | None => first_match rest error
      end
  end.

Definition known_shapes : list matcher :=
  [nonempty_string "detail";
   nonempty_string "error";
   non_field_errors_list;
   field_entries].

Definition raw_serialization (v : js_value) : string :=
  match serialize v with
  | Some t => t
  | None => ""
  end.

Definition detail_of_shapes (error : js_value) : string :=
  match first_match known_shapes error with
  | Some s => s
  | None => raw_serialization error
  end.

(** The detail in priority order: the fixed text for a falsy body, a
    string that is not JSON as it is, else the first known shape, else
    the raw serialization. *)
Definition detail_by_priority (body : js_value) : string :=
  if truthy body then
    match inspected body with
    | Some error => detail_of_shapes error
    | None => value_text body
    end
  else "Unknown error".

(** The one body shape with an empty detail: no detail or error text, and
    [non_field_errors] holding one element, whose text is empty. *)
Definition only_an_empty_non_field_error (body : js_value) : bool :=
  truthy body &&
  match inspected body with
  | Some error =>
      match nonempty_string "detail" error, nonempty_string "error" error,
            own_field error "non_field_errors" with
      | None, None, Some (JArr [x]) => renders_empty x
      | _, _, _ => false
      end
  | None => false
  end.

(** ** Requests and answers *)

(** The statuses whose message is fixed by the status alone; the message
    of every other status embeds the detail of the body. *)
Definition fixed_message_statuses : list Z :=
  [401; 404; 413; 429; 500; 502; 503; 504].

Definition has_fixed_message (status : Z) : bool :=
  existsb (Z.eqb status) fixed_message_statuses.

(** The answers on which a call returns: a 2xx status, and no content
    (the sentinel is returned) or a body that is JSON (its value is). *)
Definition delivers (response : Response) (data : js_value) : Prop :=
  ok response = true /\
  ((status response = 204 \/ headers_get response "content-length" = Some "0") /\
   data = success_sentinel
   \/
   status response <> 204 /\ headers_get response "content-length" <> Some "0" /\
   JSON_parse (response_text response) = Some data).

(** The text of a failure, as [handleToolError] words it. *)
Definition is_error_text (text : string) : bool :=
  String.prefix "Error: " text || (text =? "An unexpected error occurred.")%string.

(** Every entry passes the test that the executor puts before an entry
    goes into the query. *)
Definition all_sent (m : list (string * primitive)) : Prop :=
  Forall (fun kv => is_sent (snd kv) = true) m.

(** The keys that the handler of a saved view can send. *)
Definition saved_view_keys : list string :=
  ["page"; "page_size"; "ordering"] ++ map snd recognized_rule_types.

(* ===================================================================== *)
(** * Matching algorithms: [constants.ts], the schema and the formatters *)
(* ===================================================================== *)

(** [MATCHING_ALGORITHMS.NONE] and [MATCHING_ALGORITHMS.AUTO] *)
Definition MATCHING_ALGORITHMS_NONE : Z := 0.
Definition MATCHING_ALGORITHMS_AUTO : Z := 6.

Definition MATCHING_ALGORITHM_DESCRIPTIONS : list (Z * string) :=
  [(0, "None");
   (1, "Any word");
   (2, "All words");
   (3, "Exact match");
   (4, "Regular expression");
   (5, "Fuzzy match");
   (6, "Auto (learned)")].

(** [MatchingAlgorithmSchema]: an optional integer from NONE to AUTO.
    The result is the parsed value, [None] when the input is refused. *)
Definition MatchingAlgorithmSchema (raw : option Z) : option (option Z) :=
  match raw with
  | None => Some None
  | Some a =>
      if (MATCHING_ALGORITHMS_NONE <=? a) && (a <=? MATCHING_ALGORITHMS_AUTO)
      then Some (Some a) else None
  end.

(** [MATCHING_ALGORITHM_DESCRIPTIONS[algorithm] || "Unknown"] *)
Definition algorithm_description (algorithm : Z) : string :=
  match table_find algorithm MATCHING_ALGORITHM_DESCRIPTIONS with
  | Some description =>
      if (description =? "")%string then "Unknown" else description
  | None => "Unknown"
  end.

(** [interface PaperlessTag], the fields that the formatter reads;
    [document_count] is [None] when the server leaves it out. *)
Module Tag.
Record PaperlessTag : Type := mkTag {
  id : Z;
  name : string;
  color : string;
  match_ : string;
  matching_algorithm : Z;
  document_count : option Z
}.
End Tag.

(** [function formatTagMarkdown(tag: PaperlessTag): string] *)
Definition formatTagMarkdown (tag : Tag.PaperlessTag) : string :=
  let parts := ["- **" ++ Tag.name tag ++ "** (ID: " ++ decimal (Tag.id tag) ++ ")"] in
  let parts :=
    if negb (Tag.color tag =? "")%string && negb (Tag.color tag =? "#000000")%string
    then List.app parts ["  - Color: " ++ Tag.color tag]
    else parts in
  let parts :=
    List.app parts ["  - Documents: " ++
                    match Tag.document_count tag with
                    | Some n => decimal n
                    | None => "N/A"
                    end] in
  let parts :=
    if negb (Tag.match_ tag =? "")%string then
      let algorithm := algorithm_description (Tag.matching_algorithm tag) in
      List.app parts ["  - Auto-match: " ++ dquote ++ Tag.match_ tag ++ dquote ++
                      " (" ++ algorithm ++ ")"]
    else parts in
  join LF parts.

(* ===================================================================== *)
(** * Sample data *)
(* ===================================================================== *)

Definition default_input : ExecuteSavedViewInput := mkInput 7 1 25 markdown.

Definition view_of (field : option string) (reverse : bool)
  (rules : option (list SavedViewFilterRule)) : PaperlessSavedView :=
  mkView 7 "Inbox" true false field reverse rules None.

Definition sample_config : Config :=
  mkConfig "https://paperless.example.com" "0123456789abcdef".

Definition sample_params : list (string * primitive) :=
  [("page", PNum (number_of_Z 1));
   ("page_size", PNum (number_of_Z 25));
   ("ordering", PUndefined);
   ("query", PStr "");
   ("correspondent__id", PNum (number_of_Z 12))].

(** A network on which every call settles the same way. *)
Definition always (outcome : fetch_outcome) : URL -> RequestInit -> fetch_outcome :=
  fun _ _ => outcome.

(** A 200 response with a body of length zero and no [content-length]
    header (a chunked transfer, for instance). *)
Definition empty_chunked_response : Response := mkResponse 200 [] "" None.

Definition no_content_response : Response := mkResponse 204 [] "" None.

(** Error bodies as Paperless sends them. *)
Definition validation_error_body : js_value :=
  JStr (json_text "{'non_field_errors': ['a', 'b'], 'title': ['too long']}").

Definition empty_non_field_error_body : js_value :=
  JObj [("non_field_errors", JArr [JStr ""])].

Definition empty_detail_body : js_value :=
  JObj [("detail", JStr ""); ("error", JStr "boom")].

Definition numeric_detail_body : js_value :=
  JObj [("detail", JNum (number_of_Z 5))].

Definition mixed_list_body : js_value :=
  JObj [("title", JArr [JStr "too long"; JNum (number_of_Z 5)])].

Definition null_element_body : js_value :=
  JObj [("non_field_errors", JArr [JNull])].

(** A 401 response whose body is the JSON string that reads null, and
    one whose body is the JSON value null. *)
Definition quoted_null_response : Response :=
  mkResponse 401 [("content-type", "application/json")] (json_text "'null'") None.

Definition null_response : Response :=
  mkResponse 401 [("content-type", "application/json")] "null" None.

(** A platform that refuses an address without a scheme, as [new URL]
    does: a scheme is a letter, followed by letters, digits, [+], [-] or
    [.], up to a colon.  An address such as [paperless.local/api/tags/]
    is refused with the [TypeError] of the constructor, an address such
    as [localhost:8000/api/tags/] is read (with the scheme [localhost]). *)
Definition is_letter (c : ascii) : bool :=
  let n := N_of_ascii c in
  ((65 <=? n) && (n <=? 90) || (97 <=? n) && (n <=? 122))%N.

Definition is_scheme_char (c : ascii) : bool :=
  is_letter c || is_digit c
  || (N_of_ascii c =? 43)%N || (N_of_ascii c =? 45)%N || (N_of_ascii c =? 46)%N.

Fixpoint ends_scheme (s : string) : bool :=
  match s with
  | EmptyString => false
  | String c rest =>
      if (N_of_ascii c =? 58)%N then true
      else if is_scheme_char c then ends_scheme rest
      else false
  end.

Definition has_scheme (address : string) : bool :=
  match address with
  | EmptyString => false
  | String c rest => is_letter c && ends_scheme rest
  end.

Definition strict_address : Platform :=
  mkPlatform (fun address =>
                if has_scheme address then Return (mkURL address [])
                else Throw (TypeError "Invalid URL"))
             (fun _ => "Unexpected end of JSON input").

Definition bad_request_response : Response :=
  mkResponse 400 [] (json_text "{'detail': 'Invalid page.'}") None.

(** A 200 response whose JSON body ends too early. *)
Definition truncated_response : Response :=
  mkResponse 200 [("content-type", "application/json")]
    (json_text "{'count': 3, 'results': [") None.

Definition sample_update : Update.Input :=
  Update.mkInput 7 None (Some 0) None (Some [3; 5]) None (Some "2024-03-15") None.

Definition custom_fields_only : Update.Input :=
  Update.mkInput 7 None None None None None None
    (Some [Update.mkCustomField 2 (PStr "paid")]).

Definition sample_search : SearchDocuments.Input :=
  SearchDocuments.mkInput (Some "invoice") None (Some 4) (Some [3; 12]) (Some "2024-01-01")
    (Some "") "-created" 1 25 markdown.

(** A view as the server returns it, and a reading of it. *)
Definition stored_view : js_value :=
  JObj [("id", JNum (number_of_Z 7)); ("name", JStr "Invoices")].

Definition read_stored_view (data : js_value) : completion PaperlessSavedView :=
  match data with
  | JUndefined | JNull => Throw (TypeError "Cannot read properties of null (reading 'sort_field')")
  | _ => Return (view_of (Some "created") true
                   (Some [mkRule 0 (Some "invoice"); mkRule 3 (Some "")]))
  end.

Definition view_response : Response :=
  mkResponse 200 [] (json_text "{'id': 7, 'name': 'Invoices'}") None.

(* ===================================================================== *)
(** * The runtime at work *)
(* ===================================================================== *)

Example Number_toString_samples :
  map Number_toString
      [number_of_Z 25; mkNumber 15 (-1); mkNumber (-1200) 0; mkNumber 1 21;
       mkNumber 1 (-7); mkNumber 12345 (-2)]
  = ["25"; "1.5"; "-1200"; "1e+21"; "1e-7"; "123.45"].
Proof. reflexivity. Qed.

Example JSON_parse_surrogate_pair :
  JSON_parse (json_text "'\ud83d\ude00'") =
    Some (JStr (String (ascii_of_nat 240) (String (ascii_of_nat 159)
                 (String (ascii_of_nat 152) (String (ascii_of_nat 128) ""))))).
Proof. reflexivity. Qed.

Example JSON_parse_null : JSON_parse "null" = Some JNull.
Proof. reflexivity. Qed.

Example JSON_parse_rejects :
  map JSON_parse [""; "nul"; "01"; "[1,]"; "1 2"; "{a:1}"] =
  [None; None; None; None; None; None].
Proof. reflexivity. Qed.

(** Keys that are array indices come first; a repeated key keeps its
    place and takes the later value. *)
Example JSON_parse_object :
  JSON_parse (json_text "{'b': [1, 2.5], '1': 'x', 'b': null}") =
  Some (JObj [("1", JStr "x"); ("b", JNull)]).
Proof. reflexivity. Qed.

Example JSON_stringify_sample :
  JSON_stringify (JObj [("a", JArr [JStr "x"; JUndefined; JNum (mkNumber 15 (-1))]);
                        ("u", JUndefined)])
  = JStr (json_text "{'a':['x',null,1.5]}").
Proof. reflexivity. Qed.

Example ToString_sample :
  ToString (JArr [JNum (number_of_Z 1); JArr [JStr "a"; JNull]; JObj []; JBool true])
  = Return "1,a,,[object Object],true".
Proof. reflexivity. Qed.

Example parseErrorResponse_samples :
  map parseErrorResponse
      [JUndefined;
       JStr "Service Unavailable";
       JStr (json_text "{'detail': 'Not found.'}");
       JObj [("error", JStr "boom"); ("detail", JStr "first")];
       JObj [("non_field_errors", JArr [JStr "a"; JStr "b"])];
       JObj [("title", JArr [JStr "too long"]); ("count", JNum (number_of_Z 3));
             ("name", JStr "taken")];
       JObj [("count", JNum (number_of_Z 3))]]
  = map (fun s => Return (JStr s))
      ["Unknown error";
       "Service Unavailable";
       "Not found.";
       "first";
       "a, b";
       "title: too long; name: taken";
       json_text "{'count':3}"].
Proof. reflexivity. Qed.

Example formatHttpError_samples :
  map (fun status => formatHttpError status (JObj [("detail", JStr "Nope.")]))
      [400; 401; 404; 418; 503]
  = map Return
      ["Bad request: Nope.. Please check your input parameters.";
       authentication_failed_message;
       not_found_message;
       "HTTP 418 error: Nope.";
       "Paperless server error (HTTP 503). The server may be unavailable or overloaded. Please try again later."].
Proof. reflexivity. Qed.

Example load_config_sample :
  load_config (Some "https://paperless.example.com/") None =
  mkConfig "https://paperless.example.com" "".
Proof. reflexivity. Qed.

(* ===================================================================== *)
(** * Objects: assignment and lookup *)
(* ===================================================================== *)

Section ObjectFacts.
Context {V : Type}.
Implicit Types (m : list (string * V)) (k : string) (v : V).

Lemma lookup_None_keys m k : lookup k m = None <-> ~ In k (keys m).
Proof.
  induction m as [|[k0 w] m IH]; simpl.
  - tauto.
  - destruct (String.eqb_spec k0 k) as [->|Hne].
    + split; [discriminate | intros H; exfalso; apply H; now left].
    + rewrite IH. split.
      * intros H [Heq|Hin]; [now apply Hne | now apply H].
      * intros H Hin. apply H. now right.
Qed.

Lemma lookup_In m k v : lookup k m = Some v -> In (k, v) m.
Proof.
  induction m as [|[k0 w] m IH]; simpl; [discriminate|].
  destruct (String.eqb_spec k0 k) as [->|Hne].
  - intros [= ->]. now left.
  - intros H. right. now apply IH.
Qed.

Lemma In_lookup m k v : NoDup (keys m) -> In (k, v) m -> lookup k m = Some v.
Proof.
  induction m as [|[k0 w] m IH]; simpl; [tauto|].
  intros Hnd [Heq|Hin].
  - injection Heq as -> ->. now rewrite String.eqb_refl.
  - inversion Hnd as [|? ? Hnotin Hnd']; subst.
    destruct (String.eqb_spec k0 k) as [->|Hne].
    + exfalso. apply Hnotin. change k with (fst (k, v)). now apply in_map.
    + now apply IH.
Qed.

Lemma keys_replace_value m k v : keys (replace_value k v m) = keys m.
Proof.
  induction m as [|[k0 w] m IH]; simpl; [reflexivity|].
  destruct (k0 =? k)%string; simpl; [reflexivity | now rewrite IH].
Qed.

Lemma lookup_replace_value_same m k v w :
  lookup k m = Some w -> lookup k (replace_value k v m) = Some v.
Proof.
  induction m as [|[k0 w0] m IH]; simpl; [discriminate|].
  destruct (k0 =? k)%string eqn:E; simpl; rewrite E; auto.
Qed.

Lemma lookup_replace_value_other m k k' v :
  k' <> k -> lookup k' (replace_value k v m) = lookup k' m.
Proof.
  intros Hne. induction m as [|[k0 w0] m IH]; simpl; [reflexivity|].
  destruct (String.eqb_spec k0 k) as [->|Hk]; simpl.
  - destruct (String.eqb_spec k k') as [->|_]; [contradiction | reflexivity].
  - now rewrite IH.
Qed.

Lemma In_keys_insert_new m k v x :
  In x (keys (insert_new k v m)) <-> x = k \/ In x (keys m).
Proof.
  induction m as [|[k0 w0] m IH]; simpl.
  - intuition.
  - destruct (array_index k) as [n|], (array_index k0) as [n0|];
      try destruct (n <? n0)%N; simpl; rewrite ?IH; intuition.
Qed.

Lemma NoDup_keys_insert_new m k v :
  NoDup (keys m) -> ~ In k (keys m) -> NoDup (keys (insert_new k v m)).
Proof.
  induction m as [|[k0 w0] m IH]; simpl; intros Hnd Hnotin.
  - constructor; [tauto | constructor].
  - assert (Hcons : NoDup (k :: k0 :: keys m)).
    { constructor; [simpl; tauto | assumption]. }
    assert (Hrec : NoDup (k0 :: keys (insert_new k v m))).
    { inversion Hnd as [|? ? H0 Hnd']; subst. constructor.
      - rewrite In_keys_insert_new. intros [->|Hin]; tauto.
      - apply IH; tauto. }
    destruct (array_index k) as [n|], (array_index k0) as [n0|];
      try destruct (n <? n0)%N; simpl; assumption.
Qed.

Lemma lookup_insert_new_same m k v :
  lookup k m = None -> lookup k (insert_new k v m) = Some v.
Proof.
  induction m as [|[k0 w0] m IH]; simpl.
  - now rewrite String.eqb_refl.
  - destruct (k0 =? k)%string eqn:E; [discriminate|]. intros Hnone.
    destruct (array_index k) as [n|], (array_index k0) as [n0|];
      try destruct (n <? n0)%N; simpl;
      rewrite ?String.eqb_refl, ?E; auto.
Qed.

Lemma lookup_insert_new_other m k k' v :
  k' <> k -> lookup k' (insert_new k v m) = lookup k' m.
Proof.
  intros Hne. apply String.eqb_neq in Hne. rewrite String.eqb_sym in Hne.
  induction m as [|[k0 w0] m IH]; simpl.
  - now rewrite Hne.
  - destruct (array_index k) as [n|], (array_index k0) as [n0|];
      try destruct (n <? n0)%N; simpl;
      rewrite ?Hne, ?IH; reflexivity.
Qed.

(** Reading back what was assigned. *)
Lemma lookup_obj_set_same m k v : lookup k (obj_set m k v) = Some v.
Proof.
  unfold obj_set, has_key. destruct (lookup k m) eqn:E.
  - eapply lookup_replace_value_same; eauto.
  - now apply lookup_insert_new_same.
Qed.

(** An assignment leaves the other keys alone. *)
Lemma lookup_obj_set_other m k k' v :
  k' <> k -> lookup k' (obj_set m k v) = lookup k' m.
Proof.
  intros Hne. unfold obj_set. destruct (has_key k m).
  - now apply lookup_replace_value_other.
  - now apply lookup_insert_new_other.
Qed.

(** An object never holds a key twice. *)
Lemma NoDup_keys_obj_set m k v : NoDup (keys m) -> NoDup (keys (obj_set m k v)).
Proof.
  intros Hnd. unfold obj_set, has_key. destruct (lookup k m) eqn:E.
  - now rewrite keys_replace_value.
  - apply NoDup_keys_insert_new; [assumption | now apply lookup_None_keys].
Qed.
End ObjectFacts.

(* ===================================================================== *)
(** * The saved-view filter compiler *)
(* ===================================================================== *)

Section SavedViewFacts.
Implicit Types (m : list (string * primitive)) (rule : SavedViewFilterRule).

(** The [switch] of the loop body is the table of the specification. *)
Lemma apply_filter_rule_contribution m rule :
  apply_filter_rule m rule =
  match contribution rule with
  | Some (p, v) => obj_set m p (PStr v)
  | None => m
  end.
Proof.
  unfold apply_filter_rule, contribution, query_parameter.
  destruct (value rule) as [v|]; [|reflexivity].
  destruct (rule_type rule) as [|p|p]; simpl; try reflexivity.
  do 5 (try (destruct p as [p|p|]; simpl; try reflexivity)).
Qed.

Lemma query_parameter_recognized t p :
  query_parameter t = Some p -> In (t, p) recognized_rule_types.
Proof.
  unfold query_parameter.
  induction recognized_rule_types as [|[t' q] table IH]; simpl; [discriminate|].
  destruct (Z.eqb_spec t' t) as [->|_].
  - intros [= ->]. now left.
  - intros H. right. now apply IH.
Qed.

Lemma query_parameter_unrecognized t :
  ~ In t (map fst recognized_rule_types) -> query_parameter t = None.
Proof.
  unfold query_parameter.
  induction recognized_rule_types as [|[t' q] table IH]; simpl; [reflexivity|].
  intros Hnot. destruct (Z.eqb_spec t' t) as [->|_]; [tauto|].
  apply IH. tauto.
Qed.

(** No rule writes a key outside the table's column of parameters. *)
Lemma lookup_apply_filter_rule_other m rule k :
  compiles_to k rule = false ->
  lookup k (apply_filter_rule m rule) = lookup k m.
Proof.
  rewrite apply_filter_rule_contribution. unfold compiles_to.
  destruct (contribution rule) as [[p v]|]; [|reflexivity].
  intros Hne. apply lookup_obj_set_other.
  intros ->. now rewrite String.eqb_refl in Hne.
Qed.

Lemma lookup_fold_rules_other rules : forall m k,
  Forall (fun r => compiles_to k r = false) rules ->
  lookup k (fold_left apply_filter_rule rules m) = lookup k m.
Proof.
  induction rules as [|r rules IH]; simpl; intros m k Hall; [reflexivity|].
  inversion Hall as [|? ? Hr Hrest]; subst.
  rewrite IH by assumption. now apply lookup_apply_filter_rule_other.
Qed.

Lemma NoDup_keys_apply_filter_rule m rule :
  NoDup (keys m) -> NoDup (keys (apply_filter_rule m rule)).
Proof.
  rewrite apply_filter_rule_contribution.
  destruct (contribution rule) as [[p v]|]; [|auto].
  apply NoDup_keys_obj_set.
Qed.

Lemma NoDup_keys_fold_rules rules : forall m,
  NoDup (keys m) -> NoDup (keys (fold_left apply_filter_rule rules m)).
Proof.
  induction rules as [|r rules IH]; simpl; intros m Hnd; [assumption|].
  apply IH. now apply NoDup_keys_apply_filter_rule.
Qed.

Lemma NoDup_keys_sort_params input view : NoDup (keys (sort_params input view)).
Proof.
  unfold sort_params.
  assert (Hbase : NoDup (keys [("page", PNum (number_of_Z (page input)));
                               ("page_size", PNum (number_of_Z (page_size input)))])).
  { simpl. repeat constructor; simpl; intuition discriminate. }
  destruct (sort_field_set view); [now apply NoDup_keys_obj_set | assumption].
Qed.

Lemma ordering_is_no_rule_parameter rule : compiles_to "ordering" rule = false.
Proof.
  unfold compiles_to, contribution.
  destruct (value rule); [|reflexivity].
  destruct (query_parameter (rule_type rule)) as [p|] eqn:E; [|reflexivity].
  apply query_parameter_recognized in E. simpl in E.
  repeat (destruct E as [[= _ <-]|E]; [reflexivity|]). contradiction.
Qed.
End SavedViewFacts.

(** C1. The filter compiler maps a rule with a recognized rule type and a
    value that is not null to exactly one query parameter, assigned in the
    mapping compiled from the rules before it: 0 to title__icontains, 3 to
    correspondent__id, 4 to document_type__id, 6 to tags__id__all, 17 to
    created__date__gt, 18 to created__date__lt; the value of every other
    key stays what it was.  A rule whose type is outside this set, or
    whose value is null, leaves the mapping unchanged.  The compiled
    mapping is what the rules after it make of the result. *)
Theorem C1_filter_rule_dispatch :
  forall input view earlier rule later,
    rules_of view = (earlier ++ rule :: later)%list ->
    let before := fold_left apply_filter_rule earlier (sort_params input view) in
    exists after,
      saved_view_apiParams input view = fold_left apply_filter_rule later after /\
      (forall v, value rule = Some v ->
         (rule_type rule = 0 -> after = obj_set before "title__icontains" (PStr v)) /\
         (rule_type rule = 3 -> after = obj_set before "correspondent__id" (PStr v)) /\
         (rule_type rule = 4 -> after = obj_set before "document_type__id" (PStr v)) /\
         (rule_type rule = 6 -> after = obj_set before "tags__id__all" (PStr v)) /\
         (rule_type rule = 17 -> after = obj_set before "created__date__gt" (PStr v)) /\
         (rule_type rule = 18 -> after = obj_set before "created__date__lt" (PStr v))) /\
      (forall p v, contribution rule = Some (p, v) ->
         lookup p after = Some (PStr v) /\
         forall k, k <> p -> lookup k after = lookup k before) /\
      (value rule = None \/ ~ In (rule_type rule) [0; 3; 4; 6; 17; 18] ->
         after = before).
Proof.
  intros input view earlier rule later Hrules before.
  exists (apply_filter_rule before rule). split; [|split; [|split]].
  - unfold saved_view_apiParams. rewrite Hrules, fold_left_app. reflexivity.
  - intros v Hv. unfold apply_filter_rule. rewrite Hv.
    repeat split; intros ->; reflexivity.
  - intros p v Hc. rewrite apply_filter_rule_contribution, Hc. split.
    + apply lookup_obj_set_same.
    + intros k Hk. now apply lookup_obj_set_other.
  - intros Hskip. rewrite apply_filter_rule_contribution.
    unfold contribution. destruct Hskip as [-> | Hnot]; [reflexivity|].
    rewrite (query_parameter_unrecognized (rule_type rule)) by exact Hnot.
    now destruct (value rule).
Qed.

Lemma C1_filter_rule_dispatch_witness :
  lookup "created__date__gt"
    (saved_view_apiParams default_input
       (view_of None false
          (Some [mkRule 999 (Some "x"); mkRule 17 (Some "2024-01-01")])))
  = Some (PStr "2024-01-01").
Proof.
  destruct (C1_filter_rule_dispatch default_input
              (view_of None false
                 (Some [mkRule 999 (Some "x"); mkRule 17 (Some "2024-01-01")]))
              [mkRule 999 (Some "x")] (mkRule 17 (Some "2024-01-01")) []
              eq_refl)
    as (after & Hcompiled & _ & H & _).
  rewrite Hcompiled.
  exact (proj1 (H "created__date__gt" "2024-01-01" eq_refl)).
Defined.

(** C7. A saved view with sort_field "created", sort_reverse true and no
    filter rules compiles to exactly page, page_size and ordering
    "-created" (page 1 and page_size 25 when the input leaves the
    pagination to its defaults).  In general ordering is the sort field,
    prefixed with "-" when sort_reverse holds, whenever the sort field is
    set (neither null nor empty), and the key is absent otherwise. *)
Theorem C7_sort_settings :
  forall input view,
    (sort_field view = Some "created" -> sort_reverse view = true ->
     rules_of view = [] ->
       saved_view_apiParams input view =
         [("page", PNum (number_of_Z (page input)));
          ("page_size", PNum (number_of_Z (page_size input)));
          ("ordering", PStr "-created")] /\
       (forall raw_id raw_format,
          ExecuteSavedViewSchema raw_id None None raw_format = Some input ->
          saved_view_apiParams input view =
            [("page", PNum (number_of_Z 1));
             ("page_size", PNum (number_of_Z 25));
             ("ordering", PStr "-created")])) /\
    (forall field, sort_field_set view = Some field ->
       lookup "ordering" (saved_view_apiParams input view) =
         Some (PStr ((if sort_reverse view then "-" else "") ++ field))) /\
    (sort_field_set view = None ->
       lookup "ordering" (saved_view_apiParams input view) = None).
Proof.
  intros input view. split; [|split].
  - intros Hfield Hrev Hrules.
    assert (H : saved_view_apiParams input view =
                [("page", PNum (number_of_Z (page input)));
                 ("page_size", PNum (number_of_Z (page_size input)));
                 ("ordering", PStr "-created")]).
    { unfold saved_view_apiParams, sort_params, sort_field_set.
      rewrite Hrules, Hfield, Hrev. reflexivity. }
    split; [exact H|].
    intros raw_id raw_format Hschema. rewrite H.
    unfold ExecuteSavedViewSchema in Hschema.
    destruct ((0 <? raw_id) && (1 <=? 1) && (1 <=? DEFAULT_PAGE_SIZE)
              && (DEFAULT_PAGE_SIZE <=? MAX_PAGE_SIZE)); [|discriminate].
    injection Hschema as <-. reflexivity.
  - intros field Hset. unfold saved_view_apiParams.
    rewrite lookup_fold_rules_other
      by (apply Forall_forall; intros r _; apply ordering_is_no_rule_parameter).
    unfold sort_params. rewrite Hset. apply lookup_obj_set_same.
  - intros Hunset. unfold saved_view_apiParams.
    rewrite lookup_fold_rules_other
      by (apply Forall_forall; intros r _; apply ordering_is_no_rule_parameter).
    unfold sort_params. rewrite Hunset. reflexivity.
Qed.

Lemma C7_sort_settings_witness :
  saved_view_apiParams default_input (view_of (Some "created") true (Some [])) =
    [("page", PNum (number_of_Z 1));
     ("page_size", PNum (number_of_Z 25));
     ("ordering", PStr "-created")].
Proof.
  exact (proj2 (proj1 (C7_sort_settings default_input
                         (view_of (Some "created") true (Some [])))
                  eq_refl eq_refl eq_refl) 7 None eq_refl).
Defined.

(** C8. When several rules compile to the same query parameter, the
    compiled mapping holds for that parameter the value of the last such
    rule in stored order, and no key occurs twice in the mapping. *)
Theorem C8_last_rule_wins :
  forall input view earlier rule later p v,
    rules_of view = (earlier ++ rule :: later)%list ->
    contribution rule = Some (p, v) ->
    Forall (fun r => compiles_to p r = false) later ->
    lookup p (saved_view_apiParams input view) = Some (PStr v) /\
    NoDup (keys (saved_view_apiParams input view)).
Proof.
  intros input view earlier rule later p v Hrules Hc Hlater.
  unfold saved_view_apiParams. split.
  - rewrite Hrules, fold_left_app. simpl.
    rewrite lookup_fold_rules_other by assumption.
    rewrite apply_filter_rule_contribution, Hc.
    apply lookup_obj_set_same.
  - apply NoDup_keys_fold_rules, NoDup_keys_sort_params.
Qed.

Lemma C8_last_rule_wins_witness :
  lookup "title__icontains"
    (saved_view_apiParams default_input
       (view_of (Some "title") false
          (Some [mkRule 0 (Some "invoice"); mkRule 17 (Some "2024-01-01");
                 mkRule 0 (Some "receipt"); mkRule 0 None;
                 mkRule 3 (Some "12")])))
  = Some (PStr "receipt").
Proof.
  refine (proj1 (C8_last_rule_wins default_input
                   (view_of (Some "title") false
                      (Some [mkRule 0 (Some "invoice"); mkRule 17 (Some "2024-01-01");
                             mkRule 0 (Some "receipt"); mkRule 0 None;
                             mkRule 3 (Some "12")]))
                   [mkRule 0 (Some "invoice"); mkRule 17 (Some "2024-01-01")]
                   (mkRule 0 (Some "receipt"))
                   [mkRule 0 None; mkRule 3 (Some "12")]
                   "title__icontains" "receipt" eq_refl eq_refl _)).
  repeat constructor.
Defined.

(* ===================================================================== *)
(** * Strings *)
(* ===================================================================== *)

Section StringFacts.

Lemma prefix_append d rest : String.prefix d (d ++ rest) = true.
Proof.
  induction d as [|c d IH]; simpl; [now destruct rest|].
  destruct (ascii_dec c c); [exact IH | contradiction].
Qed.

Lemma includes_prefix hay needle :
  String.prefix needle hay = true -> includes hay needle = true.
Proof. intros H. destruct hay; cbn [includes]; now rewrite H. Qed.

Lemma includes_append_left before hay needle :
  includes hay needle = true -> includes (before ++ hay) needle = true.
Proof.
  intros H. induction before as [|c before IH]; [exact H|].
  cbn [append]. cbn [includes].
  destruct (String.prefix needle (String c (before ++ hay))); [reflexivity|exact IH].
Qed.

Lemma includes_infix before d rest : includes (before ++ d ++ rest) d = true.
Proof. apply includes_append_left, includes_prefix, prefix_append. Qed.

Lemma append_empty_right s : s ++ "" = s.
Proof. induction s as [|c s IH]; simpl; [reflexivity | now rewrite IH]. Qed.

Lemma append_assoc a b c : (a ++ b) ++ c = a ++ b ++ c.
Proof. induction a as [|x a IH]; simpl; [reflexivity | now rewrite IH]. Qed.

End StringFacts.

(* ===================================================================== *)
(** * Numerals *)
(* ===================================================================== *)

Section NumeralFacts.

Lemma strip_trailing_zeros_spec l :
  l = (repeat "0"%char (snd (strip_trailing_zeros l)) ++ fst (strip_trailing_zeros l))%list.
Proof.
  induction l as [|c l IH]; [reflexivity|].
  cbn [strip_trailing_zeros].
  destruct (Ascii.eqb_spec c "0"%char) as [->|Hc].
  - destruct (strip_trailing_zeros l) as [d z]. cbn [fst snd] in *.
    cbn [repeat app]. now rewrite <- IH.
  - destruct c as [[] [] [] [] [] [] [] []]; try reflexivity. now contradiction Hc.
Qed.

Lemma string_of_list_ascii_app a b :
  string_of_list_ascii (a ++ b) = string_of_list_ascii a ++ string_of_list_ascii b.
Proof. induction a as [|c a IH]; simpl; [reflexivity | now rewrite IH]. Qed.

Lemma all_zero_digits d n :
  list_ascii_of_string (NilZero.string_of_uint d) = repeat "0"%char n ->
  d <> Decimal.Nil ->
  Pos.of_uint d = 0%N.
Proof.
  revert n. induction d; intros n H Hd; try contradiction;
    try (destruct n; discriminate H).
  destruct n as [|n]; [discriminate H|].
  cbn in H. injection H as H. cbn [Pos.of_uint].
  destruct d; try reflexivity;
    try (apply (IHd n H); discriminate).
Qed.


Lemma digits_not_all_zero p n :
  list_ascii_of_string (NilZero.string_of_uint (Pos.to_uint p)) <> repeat "0"%char n.
Proof.
  intros H. apply all_zero_digits in H; [|apply Unsigned.to_uint_nonnil].
  rewrite Unsigned.of_to in H. discriminate H.
Qed.

Lemma rev_repeat {A : Type} (x : A) n : rev (repeat x n) = repeat x n.
Proof.
  induction n as [|n IH]; [reflexivity|]. cbn [repeat rev]. rewrite IH.
  clear IH. induction n as [|n IH]; [reflexivity|]. cbn [repeat app]. now rewrite IH.
Qed.

(** The decimal notation of a positive integer of at most 21 digits. *)
Lemma Number_toString_pos p :
  (String.length (string_of_Z (Z.pos p)) <= 21)%nat ->
  Number_toString (number_of_Z (Z.pos p)) = string_of_Z (Z.pos p) /\
  Number_toString (number_of_Z (Z.neg p)) = "-" ++ string_of_Z (Z.pos p).
Proof.
  intros Hlen. unfold Number_toString, number_of_Z, number_is_zero.
  cbn [mantissa exponent Z.eqb Z.ltb Z.compare Z.abs].
  unfold significant_digits. cbn [Z.abs].
  set (ds := list_ascii_of_string (string_of_Z (Z.pos p))) in *.
  pose proof (strip_trailing_zeros_spec (rev ds)) as Hspec.
  destruct (strip_trailing_zeros (rev ds)) as [rd z] eqn:E. cbn [fst snd] in Hspec.
  assert (Hds : ds = (rev rd ++ repeat "0"%char z)%list).
  { rewrite <- (rev_involutive ds), Hspec, rev_app_distr, rev_repeat. reflexivity. }
  assert (Hstr : string_of_Z (Z.pos p) =
                 string_of_list_ascii (rev rd) ++ zeros z).
  { rewrite <- (string_of_list_ascii_of_string (string_of_Z (Z.pos p))).
    fold ds. rewrite Hds. apply string_of_list_ascii_app. }
  assert (Hk : (List.length (rev rd) + z <= 21)%nat).
  { assert (Hl : List.length ds = String.length (string_of_Z (Z.pos p))).
    { subst ds. clear. induction (string_of_Z (Z.pos p)); simpl; congruence. }
    rewrite Hds, length_app, repeat_length in Hl. lia. }
  destruct (rev rd) as [|d rest] eqn:Er.
  { exfalso. apply (digits_not_all_zero p z).
    change (NilZero.string_of_uint (Pos.to_uint p)) with (string_of_Z (Z.pos p)).
    fold ds. now rewrite Hds. }
  cbv zeta.
  replace (Z.of_nat (List.length (d :: rest)) + 0 + Z.of_nat z - Z.of_nat (List.length (d :: rest)))
    with (Z.of_nat z) by lia.
  rewrite Nat2Z.id.
  destruct (Z.leb_spec (Z.of_nat (List.length (d :: rest)))
              (Z.of_nat (List.length (d :: rest)) + 0 + Z.of_nat z)); [|lia].
  destruct (Z.leb_spec (Z.of_nat (List.length (d :: rest)) + 0 + Z.of_nat z) 21); [|lia].
  cbn [andb]. rewrite Hstr. split; reflexivity.
Qed.

Lemma Number_toString_integer z :
  (String.length (string_of_Z (Z.abs z)) <= 21)%nat ->
  Number_toString (number_of_Z z) = string_of_Z z.
Proof.
  destruct z as [|p|p]; intros H; [reflexivity | now apply Number_toString_pos |].
  rewrite (proj2 (Number_toString_pos p H)). reflexivity.
Qed.

End NumeralFacts.

(* ===================================================================== *)
(** * The request executor *)
(* ===================================================================== *)

Section ExecutorFacts.
Variable P : Platform.
Variable cfg : Config.

(** Once the configuration is accepted and the address is built,
    [apiRequest] makes one network call, to that address, and settles
    as the try and catch blocks decide. *)
Lemma run_apiRequest method endpoint options url network :
  validateConfig cfg = Return tt ->
  build_url P cfg endpoint options = Return url ->
  fst (run network (apiRequest P cfg method endpoint options)) =
    try_catch P cfg (network url (fetch_options cfg method options)) /\
  filter is_fetch (snd (run network (apiRequest P cfg method endpoint options))) =
    [Fetched url (fetch_options cfg method options)].
Proof.
  intros Hcfg Hurl. unfold apiRequest, debug_log. rewrite Hcfg, Hurl.
  destruct (formData options); [simpl; auto|].
  destruct (is_undefined (request_json options)); simpl; auto.
Qed.

(** A rejected configuration ends the call before the network is used. *)
Lemma run_apiRequest_rejected method endpoint options network t :
  validateConfig cfg = Throw t ->
  run network (apiRequest P cfg method endpoint options) = (Throw t, []).
Proof. intros Hcfg. unfold apiRequest. now rewrite Hcfg. Qed.

Lemma searchParams_append_params entries : forall url,
  searchParams (append_params url entries) =
    (searchParams url ++
     map (fun kv => (fst kv, String_of (snd kv)))
         (filter (fun kv => is_sent (snd kv)) entries))%list.
Proof.
  unfold append_params.
  induction entries as [|[k v] entries IH]; intros url; simpl.
  - now rewrite app_nil_r.
  - rewrite IH. destruct (is_sent v); simpl; [|reflexivity].
    now rewrite <- app_assoc.
Qed.

Lemma is_sent_false v :
  is_sent v = false <-> v = PUndefined \/ v = PNull \/ v = PStr "".
Proof.
  destruct v as [| | b | n | s]; simpl; split; intros H;
    try discriminate; try tauto;
    try (destruct H as [H|[H|H]]; discriminate).
  - destruct (String.eqb_spec s ""); [subst; auto | discriminate].
  - destruct H as [H|[H|H]]; try discriminate. now injection H as ->.
Qed.

(** Whatever is thrown inside the try block leaves [apiRequest] as a
    [PaperlessApiError]; a thrown value that is no [Error] (none of the
    calls of the try block throws one) gets the fixed message. *)
Lemma catch_block_raises_api_error error :
  exists e, catch_block cfg error = ThrowApiError e.
Proof.
  unfold catch_block, api_error. destruct error as [e | name msg | v].
  - eauto.
  - destruct ((name =? "TimeoutError") || (name =? "AbortError"))%string; [eauto|].
    destruct (includes msg "fetch" || includes msg "network"); eauto.
  - eauto.
Qed.

(** One network call per invocation, none when the configuration is
    rejected. *)
Lemma apiRequest_calls_once method endpoint options network :
  (network_calls (snd (run network (apiRequest P cfg method endpoint options)))
   <= 1)%nat.
Proof.
  unfold network_calls, apiRequest.
  destruct (validateConfig cfg); [|simpl; lia].
  destruct (build_url P cfg endpoint options); [|simpl; lia].
  unfold debug_log.
  destruct (formData options); [simpl; lia|].
  destruct (is_undefined (request_json options)); simpl; lia.
Qed.

(** A response that is not 2xx is raised, never returned. *)
Lemma non_2xx_is_raised response :
  ok response = false ->
  exists t, try_catch P cfg (Fulfilled response) = Throw t.
Proof.
  intros Hok. unfold try_catch, try_block. rewrite Hok. simpl.
  destruct (formatHttpError (status response) (read_error_body response));
    simpl; eauto.
Qed.

Lemma catch_block_other_values v :
  catch_block cfg (ThrowValue v) = api_error unexpected_message.
Proof. reflexivity. Qed.
End ExecutorFacts.

(** C2. For a key of the query parameters whose value is undefined, null
    or the empty string the executor appends nothing to the query of the
    address it calls, so that the key is absent from the query (of an
    address that carries no entry of its own for it); for a key with any
    other value the query holds the key with the value converted to a
    string: a string as it is, a boolean as true or false, an integer (of
    at most 15 digits, which a number holds exactly) as its decimal
    numeral. *)
Theorem C2_query_parameters :
  forall P cfg method endpoint options entries address network k v,
    validateConfig cfg = Return tt ->
    new_URL P (PAPERLESS_URL cfg ++ endpoint) = Return address ->
    params options = Some entries ->
    NoDup (keys entries) ->
    In (k, v) entries ->
    exists url appended,
      filter is_fetch
        (snd (run network (apiRequest P cfg method endpoint options))) =
        [Fetched url (fetch_options cfg method options)] /\
      searchParams url = (searchParams address ++ appended)%list /\
      (v = PUndefined \/ v = PNull \/ v = PStr "" ->
         ~ In k (keys appended) /\
         (~ In k (keys (searchParams address)) ->
          ~ In k (keys (searchParams url)))) /\
      (v <> PUndefined -> v <> PNull -> v <> PStr "" ->
         In (k, String_of v) appended /\
         In (k, String_of v) (searchParams url) /\
         (forall s, v = PStr s -> In (k, s) (searchParams url)) /\
         (forall b : bool, v = PBool b ->
            In (k, if b then "true" else "false") (searchParams url)) /\
         (forall z, v = PNum (number_of_Z z) ->
            (String.length (NilZero.string_of_int (Z.to_int (Z.abs z))) <= 15)%nat ->
            In (k, NilZero.string_of_int (Z.to_int z)) (searchParams url))).
Proof.
  intros P cfg method endpoint options entries address network k v
         Hcfg Haddr Hparams Hnd Hin.
  exists (append_params address entries).
  exists (map (fun kv => (fst kv, String_of (snd kv)))
              (filter (fun kv => is_sent (snd kv)) entries)).
  assert (Hurl : build_url P cfg endpoint options =
                 Return (append_params address entries)).
  { unfold build_url. rewrite Haddr. simpl. now rewrite Hparams. }
  split; [|split; [|split]].
  - now apply run_apiRequest.
  - apply searchParams_append_params.
  - intros Hv. apply is_sent_false in Hv.
    assert (Hnew : ~ In k (keys (map (fun kv => (fst kv, String_of (snd kv)))
                                     (filter (fun kv => is_sent (snd kv)) entries)))).
    { unfold keys. rewrite map_map. simpl. intros Hnew.
      apply in_map_iff in Hnew. destruct Hnew as ([k' v'] & Hk & Hkept).
      simpl in Hk. subst k'. apply filter_In in Hkept.
      destruct Hkept as [Hin' Hsent]. simpl in Hsent.
      assert (v' = v).
      { apply In_lookup in Hin; [|assumption].
        apply In_lookup in Hin'; [|assumption]. congruence. }
      subst v'. congruence. }
    split; [exact Hnew|].
    intros Hfresh. rewrite searchParams_append_params. unfold keys.
    rewrite map_app, in_app_iff. intros [Hold | Hadded]; [now apply Hfresh|].
    now apply Hnew.
  - intros H1 H2 H3.
    assert (Hsent : is_sent v = true).
    { destruct (is_sent v) eqn:E; [reflexivity|].
      apply is_sent_false in E. tauto. }
    assert (Hadded : In (k, String_of v)
                        (map (fun kv => (fst kv, String_of (snd kv)))
                             (filter (fun kv => is_sent (snd kv)) entries))).
    { apply in_map_iff. exists (k, v). split; [reflexivity|].
      apply filter_In. now split. }
    assert (Hquery : In (k, String_of v)
                        (searchParams (append_params address entries))).
    { rewrite searchParams_append_params. apply in_or_app. now right. }
    split; [exact Hadded|]. split; [exact Hquery|].
    split; [|split].
    + intros s ->. exact Hquery.
    + intros b ->. destruct b; exact Hquery.
    + intros z -> Hdigits. cbn [String_of] in Hquery.
      rewrite Number_toString_integer in Hquery
        by (unfold string_of_Z; lia).
      exact Hquery.
Qed.

Lemma C2_query_parameters_witness :
  exists url,
    filter is_fetch
      (snd (run (always (Fulfilled no_content_response))
              (apiRequest plain_address sample_config "GET" "/api/documents/"
                 (mkRequestOptions (Some sample_params) JUndefined None)))) =
      [Fetched url (fetch_options sample_config "GET"
                      (mkRequestOptions (Some sample_params) JUndefined None))] /\
    ~ In "query" (keys (searchParams url)) /\
    In ("page_size", "25") (searchParams url).
Proof.
  destruct (C2_query_parameters plain_address sample_config "GET" "/api/documents/"
              (mkRequestOptions (Some sample_params) JUndefined None)
              sample_params
              (mkURL "https://paperless.example.com/api/documents/" [])
              (always (Fulfilled no_content_response)) "query" (PStr ""))
    as (url & appended & Hfetch & _ & Habsent & _).
  - reflexivity.
  - reflexivity.
  - reflexivity.
  - simpl. repeat constructor; simpl; intuition discriminate.
  - simpl. tauto.
  - destruct (C2_query_parameters plain_address sample_config "GET"
                "/api/documents/"
                (mkRequestOptions (Some sample_params) JUndefined None)
                sample_params
                (mkURL "https://paperless.example.com/api/documents/" [])
                (always (Fulfilled no_content_response))
                "page_size" (PNum (number_of_Z 25)))
      as (url' & appended' & Hfetch' & _ & _ & Hpresent).
    + reflexivity.
    + reflexivity.
    + reflexivity.
    + simpl. repeat constructor; simpl; intuition discriminate.
    + simpl. tauto.
    + exists url. split; [exact Hfetch|].
      split; [apply Habsent; [tauto | simpl; tauto]|].
      rewrite Hfetch in Hfetch'. injection Hfetch' as <-.
      destruct Hpresent as (_ & _ & _ & _ & Hnum);
        [discriminate | discriminate | discriminate |].
      apply (Hnum 25 eq_refl). vm_compute. lia.
Defined.

(** C3. When [fetch] delivers no response, the executor raises one of
    three errors: the timeout error when the rejection is the signal's
    (named TimeoutError or AbortError), otherwise the unreachable error
    when the rejection's message mentions "fetch" or "network", otherwise
    the error that wraps the rejection's message: "Request failed: "
    followed by that message.  The three messages differ from one
    another, the wording of each is the one given, and none of the
    errors carries a status code.  (The catch block has a fourth branch, for a thrown value that
    is no [Error]; no call of the try block throws one, see
    [unexpected_message_never_raised].) *)
Theorem C3_transport_failures :
  forall P cfg method endpoint options url network name msg,
    validateConfig cfg = Return tt ->
    build_url P cfg endpoint options = Return url ->
    network url (fetch_options cfg method options) = Rejected name msg ->
    let timed_out := ((name =? "TimeoutError") || (name =? "AbortError"))%string in
    let unreachable := includes msg "fetch" || includes msg "network" in
    exists m,
      fst (run network (apiRequest P cfg method endpoint options)) =
        Throw (ThrowApiError (mkPaperlessApiError m None JUndefined)) /\
      ((timed_out = true /\ m = timeout_message) \/
       (timed_out = false /\ unreachable = true /\ m = unreachable_message cfg) \/
       (timed_out = false /\ unreachable = false /\ m = request_failed_message msg)) /\
      timeout_message <> unreachable_message cfg /\
      (forall other, timeout_message <> request_failed_message other) /\
      (forall other, unreachable_message cfg <> request_failed_message other) /\
      timeout_message =
        "Request timed out after 30 seconds. The Paperless server may be slow or unreachable." /\
      unreachable_message cfg =
        "Could not connect to Paperless at " ++ PAPERLESS_URL cfg ++
        ". Please verify the URL is correct and the server is running." /\
      (forall other,
         request_failed_message other = "Request failed: " ++ other /\
         includes (request_failed_message other) other = true).
Proof.
  intros P cfg method endpoint options url network name msg Hcfg Hurl Hnet
         timed_out unreachable.
  destruct (run_apiRequest P cfg method endpoint options url network Hcfg Hurl)
    as [Hrun _].
  rewrite Hrun, Hnet. unfold try_catch, try_block, catch_block.
  fold timed_out. fold unreachable.
  assert (Hdistinct :
            timeout_message <> unreachable_message cfg /\
            (forall other, timeout_message <> request_failed_message other) /\
            (forall other, unreachable_message cfg <> request_failed_message other) /\
            timeout_message =
              "Request timed out after 30 seconds. The Paperless server may be slow or unreachable." /\
            unreachable_message cfg =
              "Could not connect to Paperless at " ++ PAPERLESS_URL cfg ++
              ". Please verify the URL is correct and the server is running." /\
            (forall other,
               request_failed_message other = "Request failed: " ++ other /\
               includes (request_failed_message other) other = true)).
  { split; [|split; [|split; [|split; [|split]]]];
      try (intros; intros H; vm_compute in H; discriminate).
    - reflexivity.
    - reflexivity.
    - intros other. split; [reflexivity|].
      unfold request_failed_message.
      apply (includes_append_left "Request failed: "), includes_prefix.
      rewrite <- (append_empty_right other) at 2. apply prefix_append. }
  destruct timed_out; [|destruct unreachable].
  - exists timeout_message. split; [reflexivity|]. split; [tauto | exact Hdistinct].
  - exists (unreachable_message cfg).
    split; [reflexivity|]. split; [tauto | exact Hdistinct].
  - exists (request_failed_message msg).
    split; [reflexivity|]. split; [tauto | exact Hdistinct].
Qed.

Lemma C3_transport_failures_witness :
  (exists m,
     fst (run (always (Rejected "TypeError" "fetch failed"))
            (apiRequest plain_address sample_config "GET" "/api/statistics/"
               no_options)) =
       Throw (ThrowApiError (mkPaperlessApiError m None JUndefined)) /\
     m = unreachable_message sample_config) /\
  (exists m,
     fst (run (always (Rejected "Error" "socket hang up"))
            (apiRequest plain_address sample_config "GET" "/api/statistics/"
               no_options)) =
       Throw (ThrowApiError (mkPaperlessApiError m None JUndefined)) /\
     m = "Request failed: socket hang up") /\
  (exists m,
     fst (run (always (Rejected "TimeoutError"
                         "The operation was aborted due to timeout"))
            (apiRequest plain_address sample_config "GET" "/api/statistics/"
               no_options)) =
       Throw (ThrowApiError (mkPaperlessApiError m None JUndefined)) /\
     m = "Request timed out after 30 seconds. The Paperless server may be slow or unreachable.").
Proof.
  split; [|split].
  - destruct (C3_transport_failures plain_address sample_config "GET"
                "/api/statistics/" no_options
                (mkURL "https://paperless.example.com/api/statistics/" [])
                (always (Rejected "TypeError" "fetch failed"))
                "TypeError" "fetch failed" eq_refl eq_refl eq_refl)
      as (m & Hrun & Hcase & _).
    exists m. split; [exact Hrun|].
    destruct Hcase as [[Hc _] | [(_ & _ & Hm) | (_ & Hc & _)]];
      [discriminate Hc | exact Hm | discriminate Hc].
  - destruct (C3_transport_failures plain_address sample_config "GET"
                "/api/statistics/" no_options
                (mkURL "https://paperless.example.com/api/statistics/" [])
                (always (Rejected "Error" "socket hang up"))
                "Error" "socket hang up" eq_refl eq_refl eq_refl)
      as (m & Hrun & Hcase & _ & _ & _ & _ & _ & Hwraps).
    exists m. split; [exact Hrun|].
    destruct Hcase as [[Hc _] | [(_ & Hc & _) | (_ & _ & Hm)]];
      [discriminate Hc | discriminate Hc |].
    rewrite Hm. exact (proj1 (Hwraps "socket hang up")).
  - destruct (C3_transport_failures plain_address sample_config "GET"
                "/api/statistics/" no_options
                (mkURL "https://paperless.example.com/api/statistics/" [])
                (always (Rejected "TimeoutError"
                           "The operation was aborted due to timeout"))
                "TimeoutError" "The operation was aborted due to timeout"
                eq_refl eq_refl eq_refl)
      as (m & Hrun & Hcase & _ & _ & _ & Htimeout & _).
    exists m. split; [exact Hrun|].
    destruct Hcase as [[_ Hm] | [(Hc & _) | (Hc & _)]];
      [|discriminate Hc | discriminate Hc].
    rewrite Hm. exact Htimeout.
Defined.

(** A successful response whose status is 204 or whose content-length
    header is "0" gives the sentinel success value; the body is not
    decoded. *)
Lemma marked_empty_gives_the_sentinel
  P cfg method endpoint options url network response :
  validateConfig cfg = Return tt ->
  build_url P cfg endpoint options = Return url ->
  network url (fetch_options cfg method options) = Fulfilled response ->
  ok response = true ->
  status response = 204 \/ headers_get response "content-length" = Some "0" ->
  fst (run network (apiRequest P cfg method endpoint options)) =
    Return success_sentinel.
Proof.
  intros Hcfg Hurl Hnet Hok Hempty.
  destruct (run_apiRequest P cfg method endpoint options url network Hcfg Hurl)
    as [Hrun _].
  rewrite Hrun, Hnet. unfold try_catch, try_block. rewrite Hok. simpl.
  destruct Hempty as [-> | ->]; simpl.
  - reflexivity.
  - now rewrite orb_true_r.
Qed.

(** C6.  The specification holds that a successful response with status
    204 or with a body of length zero gives the sentinel success value,
    never a decode error.  The code fails it: the lines that handle empty
    responses know an empty body by status 204 or by a content-length
    header of "0" only.  A successful response with a body of length zero
    that has neither mark is handed to the JSON decoder, and the decoder's
    error on the empty text is raised as a failed request without status
    code, where the same body with the header gives the sentinel. *)
Theorem C6_empty_body_is_decoded :
  forall P cfg method endpoint options url network response,
    validateConfig cfg = Return tt ->
    build_url P cfg endpoint options = Return url ->
    network url (fetch_options cfg method options) = Fulfilled response ->
    ok response = true ->
    (status response = 204 \/ headers_get response "content-length" = Some "0" ->
       fst (run network (apiRequest P cfg method endpoint options)) =
         Return success_sentinel) /\
    (status response <> 204 ->
     headers_get response "content-length" <> Some "0" ->
     response_text response = "" ->
       fst (run network (apiRequest P cfg method endpoint options)) =
         Throw (api_error
                  (if includes (syntax_error P "") "fetch"
                      || includes (syntax_error P "") "network"
                   then unreachable_message cfg
                   else "Request failed: " ++ syntax_error P "")) /\
       fst (run network (apiRequest P cfg method endpoint options)) <>
         Return success_sentinel).
Proof.
  intros P cfg method endpoint options url network response
         Hcfg Hurl Hnet Hok.
  split.
  - now apply (marked_empty_gives_the_sentinel P cfg method endpoint options
                 url network response).
  - intros H204 Hheader Hbody.
    destruct (run_apiRequest P cfg method endpoint options url network Hcfg Hurl)
      as [Hrun _].
    assert (Hraised :
              fst (run network (apiRequest P cfg method endpoint options)) =
                Throw (api_error
                         (if includes (syntax_error P "") "fetch"
                             || includes (syntax_error P "") "network"
                          then unreachable_message cfg
                          else "Request failed: " ++ syntax_error P ""))).
    { rewrite Hrun, Hnet. unfold try_catch, try_block, response_json.
      rewrite Hok, Hbody. cbn [negb].
      destruct (Z.eqb_spec (status response) 204) as [E|_]; [contradiction|].
      cbn [orb].
      destruct (headers_get response "content-length") as [v|].
      - destruct (String.eqb_spec v "0") as [->|_]; [now contradiction Hheader|].
        change (JSON_parse "") with (@None js_value). unfold catch_block.
        change (("SyntaxError" =? "TimeoutError")
                || ("SyntaxError" =? "AbortError"))%string with false.
        cbv iota.
        destruct (includes (syntax_error P "") "fetch"
                  || includes (syntax_error P "") "network"); reflexivity.
      - change (JSON_parse "") with (@None js_value). unfold catch_block.
        change (("SyntaxError" =? "TimeoutError")
                || ("SyntaxError" =? "AbortError"))%string with false.
        cbv iota.
        destruct (includes (syntax_error P "") "fetch"
                  || includes (syntax_error P "") "network"); reflexivity. }
    split; [exact Hraised|]. rewrite Hraised. discriminate.
Qed.

Lemma C6_empty_body_is_decoded_witness :
  ok empty_chunked_response = true /\
  response_text empty_chunked_response = "" /\
  fst (run (always (Fulfilled empty_chunked_response))
         (apiRequest plain_address sample_config "GET" "/api/statistics/"
            no_options)) =
    Throw (api_error "Request failed: Unexpected end of JSON input") /\
  fst (run (always (Fulfilled (mkResponse 200 [("content-length", "0")] "" None)))
         (apiRequest plain_address sample_config "GET" "/api/statistics/"
            no_options)) =
    Return success_sentinel.
Proof.
  split; [reflexivity|]. split; [reflexivity|]. split.
  - refine (proj1 (proj2 (C6_empty_body_is_decoded plain_address sample_config
                            "GET" "/api/statistics/" no_options
                            (mkURL "https://paperless.example.com/api/statistics/" [])
                            (always (Fulfilled empty_chunked_response))
                            empty_chunked_response
                            eq_refl eq_refl eq_refl eq_refl) _ _ eq_refl));
      vm_compute; discriminate.
  - apply (proj1 (C6_empty_body_is_decoded plain_address sample_config
                    "GET" "/api/statistics/" no_options
                    (mkURL "https://paperless.example.com/api/statistics/" [])
                    (always (Fulfilled (mkResponse 200 [("content-length", "0")]
                                          "" None)))
                    (mkResponse 200 [("content-length", "0")] "" None)
                    eq_refl eq_refl eq_refl eq_refl)).
    right. reflexivity.
Defined.

(** C9 as the specification states it fails: with both settings empty the
    guard raises the error of the base address, whose message does not
    name the credential. *)
Lemma C9_counterexample :
  PAPERLESS_TOKEN (mkConfig "" "") = "" /\
  validateConfig (mkConfig "" "") = Throw (api_error missing_url_message) /\
  includes missing_url_message "PAPERLESS_TOKEN" = false /\
  includes missing_url_message "token" = false.
Proof. repeat split. Qed.

(** C9, amended.  When the base address is empty the guard raises, before
    any network call, the error that names the base address (whether or
    not the credential is empty too); when only the credential is empty
    it raises the error that names the credential; each message says
    where the setting comes from.  When both are present the guard raises
    nothing. *)
Theorem C9_config_guard :
  forall P cfg method endpoint options network,
    (PAPERLESS_URL cfg = "" ->
       run network (apiRequest P cfg method endpoint options) =
         (Throw (api_error missing_url_message), [])) /\
    (PAPERLESS_URL cfg <> "" -> PAPERLESS_TOKEN cfg = "" ->
       run network (apiRequest P cfg method endpoint options) =
         (Throw (api_error missing_token_message), [])) /\
    (PAPERLESS_URL cfg <> "" -> PAPERLESS_TOKEN cfg <> "" ->
       validateConfig cfg = Return tt) /\
    includes missing_url_message "PAPERLESS_URL" = true /\
    includes missing_url_message "PAPERLESS_TOKEN" = false /\
    includes missing_url_message "(e.g., https://paperless.example.com)" = true /\
    includes missing_token_message "PAPERLESS_TOKEN" = true /\
    includes missing_token_message "PAPERLESS_URL" = false /\
    includes missing_token_message "Settings → API Tokens" = true.
Proof.
  intros P cfg method endpoint options network.
  split; [|split; [|split; [|repeat split]]].
  - intros Hurl. apply run_apiRequest_rejected.
    unfold validateConfig. now rewrite Hurl.
  - intros Hurl Htoken. apply run_apiRequest_rejected.
    unfold validateConfig. rewrite Htoken.
    apply String.eqb_neq in Hurl. now rewrite Hurl.
  - intros Hurl Htoken. unfold validateConfig.
    apply String.eqb_neq in Hurl, Htoken. now rewrite Hurl, Htoken.
Qed.

Lemma C9_config_guard_witness :
  run (always (Fulfilled no_content_response))
    (apiRequest plain_address (mkConfig "https://paperless.example.com" "")
       "GET" "/api/statistics/" no_options) =
    (Throw (api_error missing_token_message), []).
Proof.
  apply (proj1 (proj2 (C9_config_guard plain_address
                         (mkConfig "https://paperless.example.com" "")
                         "GET" "/api/statistics/" no_options
                         (always (Fulfilled no_content_response))))).
  - discriminate.
  - reflexivity.
Defined.

(* ===================================================================== *)
(** * The error classifier *)
(* ===================================================================== *)

Section ClassifierFacts.

Lemma append_empty a b : (a ++ b)%string = "" -> a = "" /\ b = "".
Proof. destruct a; simpl; [auto | discriminate]. Qed.

Lemma value_text_list items : value_text (JArr items) = joined "," items.
Proof. reflexivity. Qed.

Lemma join_element_text v :
  v <> JUndefined -> v <> JNull -> element_text v = value_text v.
Proof. intros H1 H2. destruct v; try contradiction; reflexivity. Qed.

(** The text of a list once the text of its elements is known. *)
Lemma join_elements_returns sep items :
  (forall x s, In x items -> ToString x = Return s -> s = value_text x) ->
  forall s, join_elements ToString sep items = Return s -> s = joined sep items.
Proof.
  intros Helem. induction items as [|x items IH]; intros s.
  - intros [= <-]. reflexivity.
  - assert (Hx : forall sx, join_element ToString x = Return sx ->
                            sx = element_text x).
    { intros sx. destruct x; cbn [join_element element_text];
        try (intros [= <-]; reflexivity);
        intros H; apply (Helem _ _ (or_introl eq_refl) H). }
    destruct items as [|y items].
    + cbn [join_elements]. intros H. now apply Hx in H as ->.
    + change (join_elements ToString sep (x :: y :: items))
        with (sx <- join_element ToString x ;;
              sr <- join_elements ToString sep (y :: items) ;;
              Return (sx ++ sep ++ sr)).
      destruct (join_element ToString x) as [sx|t] eqn:Ex; [|discriminate].
      cbn [bind].
      destruct (join_elements ToString sep (y :: items)) as [sr|t] eqn:Er;
        [|discriminate].
      cbn [bind]. intros [= <-].
      rewrite (Hx sx eq_refl).
      rewrite (IH (fun x' s' Hin => Helem x' s' (or_intror Hin)) sr eq_refl).
      reflexivity.
Qed.

Lemma join_elements_convertible sep items :
  (forall x, In x items -> convertible x = true ->
             ToString x = Return (value_text x)) ->
  forallb convertible items = true ->
  join_elements ToString sep items = Return (joined sep items).
Proof.
  intros Helem. induction items as [|x items IH]; [reflexivity|].
  intros H. cbn [forallb] in H. apply andb_prop in H. destruct H as [Hcx Hrest].
  assert (Hx : join_element ToString x = Return (element_text x)).
  { destruct x; cbn [join_element element_text]; try reflexivity;
      apply (Helem _ (or_introl eq_refl) Hcx). }
  destruct items as [|y items].
  - exact Hx.
  - change (join_elements ToString sep (x :: y :: items))
      with (sx <- join_element ToString x ;;
            sr <- join_elements ToString sep (y :: items) ;;
            Return (sx ++ sep ++ sr)).
    rewrite Hx. cbn [bind].
    rewrite (IH (fun x' Hin => Helem x' (or_intror Hin)) Hrest). reflexivity.
Qed.

(** Where [ToString] returns, it returns the text of the value. *)
Lemma ToString_returns : forall v s, ToString v = Return s -> s = value_text v.
Proof.
  fix IH 1. intros v s. destruct v as [| | [|] | n | t | items | props];
    cbn [ToString]; try (intros [= <-]; reflexivity).
  - rewrite value_text_list. apply join_elements_returns.
    induction items as [|x items IHitems]; intros x' s' Hin; [contradiction|].
    destruct Hin as [<-|Hin]; [apply IH | now apply IHitems].
  - destruct (has_key "toString" props); [discriminate|].
    intros [= <-]. reflexivity.
Qed.

(** [ToString] returns on every value that has a text. *)
Lemma ToString_convertible :
  forall v, convertible v = true -> ToString v = Return (value_text v).
Proof.
  fix IH 1. intros v. destruct v as [| | [|] | n | t | items | props];
    cbn [ToString convertible]; try reflexivity.
  - intros H. rewrite value_text_list. apply join_elements_convertible; [|exact H].
    clear H. induction items as [|x items IHitems]; intros x' Hin; [contradiction|].
    destruct Hin as [<-|Hin]; [apply IH | now apply IHitems].
  - intros H. apply negb_true_iff in H. now rewrite H.
Qed.

Lemma Array_join_returns items sep s :
  Array_join items sep = Return s -> s = joined sep items.
Proof.
  unfold Array_join. apply join_elements_returns.
  intros x s' _. apply ToString_returns.
Qed.

Lemma Array_join_convertible items sep :
  forallb convertible items = true ->
  Array_join items sep = Return (joined sep items).
Proof.
  unfold Array_join. apply join_elements_convertible.
  intros x _. apply ToString_convertible.
Qed.

(** The filters and the template of the field-specific errors, entry by
    entry. *)
Lemma render_entries_returns entries : forall rendered,
  map_completion render_field_error
    (filter (fun kv => Array_isArray (snd kv) || is_string (snd kv))
       (filter (fun kv => negb (array_includes
                                  ["detail"; "error"; "non_field_errors"]
                                  (fst kv)))
          entries))
  = Return rendered ->
  rendered = flat_map rendered_entry entries.
Proof.
  induction entries as [|[k v] entries IH]; intros rendered.
  - intros [= <-]. reflexivity.
  - cbn [filter flat_map fst snd]. unfold rendered_entry at 1. cbn [fst snd].
    destruct (array_includes ["detail"; "error"; "non_field_errors"] k);
      cbn [negb app]; [apply IH|].
    destruct v as [| | b | n | t | items | props];
      cbn [filter Array_isArray is_string orb snd app]; try apply IH.
    + cbn [map_completion render_field_error Array_isArray ToString bind].
      destruct (map_completion render_field_error _) as [rest|e] eqn:E;
        [|discriminate].
      cbn [bind]. intros [= <-]. now rewrite (IH rest eq_refl).
    + cbn [map_completion render_field_error Array_isArray call_join bind].
      destruct (Array_join items ", ") as [text|e] eqn:Ej; [|discriminate].
      apply Array_join_returns in Ej. subst text. cbn [bind].
      destruct (map_completion render_field_error _) as [rest|e] eqn:E;
        [|discriminate].
      cbn [bind]. intros [= <-]. now rewrite (IH rest eq_refl).
Qed.

Lemma render_entries entries :
  forallb (fun kv => if Array_isArray (snd kv) then convertible (snd kv) else true)
          entries = true ->
  map_completion render_field_error
    (filter (fun kv => Array_isArray (snd kv) || is_string (snd kv))
       (filter (fun kv => negb (array_includes
                                  ["detail"; "error"; "non_field_errors"]
                                  (fst kv)))
          entries))
  = Return (flat_map rendered_entry entries).
Proof.
  induction entries as [|[k v] entries IH]; intros H; [reflexivity|].
  cbn [forallb snd] in H. apply andb_prop in H. destruct H as [Hv Hrest].
  specialize (IH Hrest).
  cbn [filter flat_map fst snd]. unfold rendered_entry at 1. cbn [fst snd].
  destruct (array_includes ["detail"; "error"; "non_field_errors"] k);
    cbn [negb app]; [exact IH|].
  destruct v as [| | b | n | t | items | props];
    cbn [filter Array_isArray is_string orb snd app]; try exact IH.
  - cbn [map_completion render_field_error Array_isArray ToString bind].
    rewrite IH. reflexivity.
  - cbn [map_completion render_field_error Array_isArray call_join bind].
    cbn [Array_isArray convertible] in Hv.
    rewrite Array_join_convertible by exact Hv.
    cbn [bind]. rewrite IH. reflexivity.
Qed.

Lemma declared_shape_inv error :
  declared_shape error = true ->
  error <> JUndefined /\ error <> JNull /\
  field_is is_string error "detail" = true /\
  field_is is_string error "error" = true /\
  field_is Array_isArray error "non_field_errors" = true /\
  lists_convert error = true.
Proof.
  intros H.
  destruct error; try discriminate H; unfold declared_shape in H;
    repeat (apply andb_prop in H; destruct H as [H ?]);
    repeat split; try discriminate; assumption.
Qed.

Lemma get_field_own error key :
  error <> JUndefined -> error <> JNull ->
  get_field error key =
    Return (match own_field error key with Some x => x | None => JUndefined end).
Proof.
  intros H1 H2. destruct error; try contradiction; try reflexivity.
  simpl. destruct (lookup key props); reflexivity.
Qed.

Lemma get_field_returns error key x :
  get_field error key = Return x -> error <> JUndefined /\ error <> JNull.
Proof. destruct error; simpl; intros H; split; discriminate. Qed.

Lemma Object_entries_own error :
  error <> JUndefined -> error <> JNull ->
  Object_entries error = Return (entries_of error).
Proof. intros H1 H2. destruct error; try contradiction; reflexivity. Qed.

(** A field declared as a string is truthy exactly when the matcher
    of the non-empty string finds it. *)
Lemma string_field_cases error key :
  field_is is_string error key = true ->
  match nonempty_string key error with
  | Some s =>
      match own_field error key with Some x => x | None => JUndefined end = JStr s
      /\ s <> ""
  | None =>
      truthy (match own_field error key with Some x => x | None => JUndefined end)
      = false
  end.
Proof.
  unfold field_is, nonempty_string.
  destruct (own_field error key) as [x|]; [|reflexivity].
  destruct x; try discriminate. intros _. simpl.
  destruct (String.eqb_spec s ""); simpl; auto.
Qed.

Lemma truthy_nonempty s : s <> "" -> truthy (JStr s) = true.
Proof. intros H. simpl. now destruct (String.eqb_spec s ""). Qed.

(** Whatever a field holds: when it is truthy and a string, the matcher
    finds that string; when it is falsy, the matcher finds nothing. *)
Lemma field_cases error key :
  let x := match own_field error key with Some x => x | None => JUndefined end in
  (forall s, truthy x = true -> x = JStr s -> nonempty_string key error = Some s) /\
  (truthy x = false -> nonempty_string key error = None).
Proof.
  unfold nonempty_string.
  destruct (own_field error key) as [x|]; cbv zeta; [|split; [discriminate|reflexivity]].
  split.
  - intros s Ht ->. simpl in Ht. now destruct (s =? "")%string.
  - intros Hf. destruct x; try reflexivity. simpl in Hf.
    now destruct (s =? "")%string.
Qed.

Lemma list_field_convertible error key items :
  lists_convert error = true ->
  own_field error key = Some (JArr items) ->
  forallb convertible items = true.
Proof.
  unfold lists_convert. intros Hlists E.
  destruct error; try discriminate E. simpl in E, Hlists.
  apply lookup_In in E. rewrite forallb_forall in Hlists.
  exact (Hlists _ E).
Qed.

Lemma list_field_cases error :
  field_is Array_isArray error "non_field_errors" = true ->
  lists_convert error = true ->
  match non_field_errors_list error with
  | Some s =>
      truthy (optional_length
                (match own_field error "non_field_errors" with
                 | Some x => x | None => JUndefined end)) = true /\
      call_join "error.non_field_errors"
        (match own_field error "non_field_errors" with
         | Some x => x | None => JUndefined end) ", " = Return s
  | None =>
      truthy (optional_length
                (match own_field error "non_field_errors" with
                 | Some x => x | None => JUndefined end)) = false
  end.
Proof.
  unfold field_is, non_field_errors_list.
  destruct (own_field error "non_field_errors") as [x|] eqn:E; [|reflexivity].
  destruct x; try discriminate. intros _ Hlists.
  destruct items as [|x rest]; [reflexivity|].
  split; [reflexivity|].
  unfold call_join. apply Array_join_convertible.
  now apply (list_field_convertible error "non_field_errors").
Qed.

(** Whatever [non_field_errors] holds: when the branch of the list is
    taken and its join returns, the field is a non-empty list and the
    matcher gives the joined text; when the branch is not taken the
    matcher finds nothing. *)
Lemma list_cases error :
  let x := match own_field error "non_field_errors" with
           | Some x => x | None => JUndefined end in
  (forall s, truthy (optional_length x) = true ->
             call_join "error.non_field_errors" x ", " = Return s ->
             non_field_errors_list error = Some s) /\
  (truthy (optional_length x) = false -> non_field_errors_list error = None).
Proof.
  unfold non_field_errors_list.
  destruct (own_field error "non_field_errors") as [x|]; cbv zeta;
    [|split; [discriminate|reflexivity]].
  split.
  - intros s Ht Hj. destruct x; try discriminate Hj.
    destruct items as [|y rest]; [discriminate Ht|].
    unfold call_join in Hj. apply Array_join_returns in Hj. now subst s.
  - intros Hf. destruct x; try reflexivity.
    destruct items as [|y rest]; [reflexivity|]. discriminate Hf.
Qed.

Lemma serialize_defined v : v <> JUndefined -> JSON_stringify v = JStr (raw_serialization v).
Proof.
  intros H. unfold JSON_stringify, raw_serialization.
  destruct v as [| | [|] | | | |]; try contradiction; reflexivity.
Qed.

(** On a value of the declared shape the cascade of [parseErrorResponse]
    is the chain of matchers. *)
Lemma parse_error_object_by_priority error :
  declared_shape error = true ->
  parse_error_object error = Return (JStr (detail_of_shapes error)).
Proof.
  intros Hshape.
  destruct (declared_shape_inv error Hshape)
    as (Hu & Hn & Hdetail & Herror & Hlist & Hlists).
  unfold parse_error_object, detail_of_shapes, known_shapes.
  cbn [first_match].
  rewrite !get_field_own by assumption. cbn [bind].
  pose proof (string_field_cases error "detail" Hdetail) as Hd.
  destruct (nonempty_string "detail" error) as [d|].
  { destruct Hd as [-> Hne]. now rewrite truthy_nonempty. }
  rewrite Hd.
  pose proof (string_field_cases error "error" Herror) as He.
  destruct (nonempty_string "error" error) as [e|].
  { destruct He as [-> Hne]. now rewrite truthy_nonempty. }
  rewrite He.
  pose proof (list_field_cases error Hlist Hlists) as Hl.
  destruct (non_field_errors_list error) as [l|].
  { destruct Hl as [-> ->]. reflexivity. }
  rewrite Hl.
  rewrite Object_entries_own by assumption. cbn [bind].
  rewrite render_entries by exact Hlists. cbn [bind].
  unfold field_entries.
  destruct (flat_map rendered_entry (entries_of error)) as [|p pairs].
  - simpl. now rewrite serialize_defined.
  - reflexivity.
Qed.

(** Whatever the value is: when the cascade returns a string, it is the
    one that the chain of matchers gives. *)
Lemma parse_error_object_returns error s :
  parse_error_object error = Return (JStr s) ->
  error <> JUndefined /\ s = detail_of_shapes error.
Proof.
  unfold parse_error_object, detail_of_shapes, known_shapes. cbn [first_match].
  destruct (get_field error "detail") as [detail|t] eqn:Ed; [|discriminate].
  destruct (get_field_returns _ _ _ Ed) as [Hu Hn].
  rewrite !get_field_own in * by assumption. injection Ed as <-. cbn [bind].
  intros H. split; [exact Hu|]. revert H.
  destruct (field_cases error "detail") as [Hd1 Hd0]. cbv zeta in Hd1, Hd0.
  destruct (truthy (match own_field error "detail" with
                    | Some x => x | None => JUndefined end)) eqn:Etd.
  { intros [= H]. now rewrite (Hd1 s eq_refl H). }
  rewrite (Hd0 eq_refl).
  destruct (field_cases error "error") as [He1 He0]. cbv zeta in He1, He0.
  destruct (truthy (match own_field error "error" with
                    | Some x => x | None => JUndefined end)) eqn:Ete.
  { intros [= H]. now rewrite (He1 s eq_refl H). }
  rewrite (He0 eq_refl).
  destruct (list_cases error) as [Hl1 Hl0]. cbv zeta in Hl1, Hl0.
  destruct (truthy (optional_length
                      (match own_field error "non_field_errors" with
                       | Some x => x | None => JUndefined end))) eqn:Etl.
  { destruct (call_join "error.non_field_errors" _ ", ") as [text|t] eqn:Ej;
      [|discriminate].
    cbn [bind]. intros [= <-]. now rewrite (Hl1 text eq_refl eq_refl). }
  rewrite (Hl0 eq_refl).
  rewrite Object_entries_own by assumption. cbn [bind].
  destruct (map_completion render_field_error _) as [rendered|t] eqn:Er;
    [|discriminate].
  apply render_entries_returns in Er. subst rendered. cbn [bind].
  unfold field_entries.
  destruct (flat_map rendered_entry (entries_of error)) as [|p pairs].
  - simpl. rewrite serialize_defined by assumption. now intros [= <-].
  - cbn [List.length Nat.ltb Nat.leb]. now intros [= <-].
Qed.

Lemma parseErrorResponse_by_priority body :
  well_shaped body = true ->
  parseErrorResponse body = Return (JStr (detail_by_priority body)).
Proof.
  unfold well_shaped, parseErrorResponse, detail_by_priority, inspected.
  destruct (truthy body) eqn:Ht; [|reflexivity]. cbn [negb].
  destruct body; try (intros H; now apply parse_error_object_by_priority).
  destruct (JSON_parse s) as [parsed|]; [|reflexivity].
  intros H. now apply parse_error_object_by_priority.
Qed.

(** The detail in priority order is what the extraction yields wherever
    it yields a string; the value it inspects is then no [undefined]. *)
Lemma parseErrorResponse_returns body s :
  parseErrorResponse body = Return (JStr s) ->
  s = detail_by_priority body /\
  (truthy body = true -> inspected body <> Some JUndefined).
Proof.
  unfold parseErrorResponse, detail_by_priority, inspected.
  destruct (truthy body) eqn:Ht; cbn [negb].
  2:{ intros [= <-]. split; [reflexivity | discriminate]. }
  destruct body as [| | b | n | t | items | props];
    try (intros H; apply parse_error_object_returns in H;
         destruct H as [Hu ->]; split; [reflexivity | congruence]).
  destruct (JSON_parse t) as [parsed|].
  - intros H. apply parse_error_object_returns in H.
    destruct H as [Hu ->]. split; [reflexivity | congruence].
  - intros [= <-]. split; [reflexivity | discriminate].
Qed.

Lemma Number_toString_nonempty n : Number_toString n <> "".
Proof.
  unfold Number_toString.
  destruct (number_is_zero n); [discriminate|].
  destruct (significant_digits (mantissa n)) as [s z].
  destruct s as [|d ds]; [discriminate|]. cbv zeta.
  repeat match goal with
         | |- context [if ?c then _ else _] => destruct c
         | |- context [match ?l with [] => _ | _ :: _ => _ end] => destruct l
         end;
    intros H; apply append_empty in H; destruct H as [_ H];
    try discriminate H;
    apply append_empty in H; destruct H as [_ H]; discriminate H.
Qed.

Lemma raw_serialization_nonempty v :
  v <> JUndefined -> raw_serialization v <> "".
Proof.
  intros Hv. unfold raw_serialization.
  destruct v as [| | [|] | n | s | items | props];
    try contradiction; simpl; try discriminate.
  apply Number_toString_nonempty.
Qed.

Lemma join_head_nonempty sep p pairs : p <> "" -> join sep (p :: pairs) <> "".
Proof.
  intros Hp. unfold join. simpl. destruct pairs; [assumption|].
  intros H. apply append_empty in H. tauto.
Qed.

Lemma rendered_entry_nonempty entries p :
  In p (flat_map rendered_entry entries) -> p <> "".
Proof.
  rewrite in_flat_map. intros ([k v] & _ & Hin).
  unfold rendered_entry in Hin. cbn [fst snd] in Hin.
  destruct (array_includes ["detail"; "error"; "non_field_errors"] k);
    [contradiction|].
  destruct v; try contradiction; destruct Hin as [<-|[]];
    intros H; apply append_empty in H; destruct H as [_ H]; discriminate H.
Qed.

Lemma nonempty_string_nonempty key error s :
  nonempty_string key error = Some s -> s <> "".
Proof.
  unfold nonempty_string. destruct (own_field error key) as [[]|]; try discriminate.
  destruct (String.eqb_spec s0 ""); [discriminate|]. now intros [= <-].
Qed.

(** What is left when no text and no list matched is never empty. *)
Lemma fields_or_raw_nonempty error :
  error <> JUndefined ->
  match field_entries error with
  | Some s => s
  | None => raw_serialization error
  end <> "".
Proof.
  intros Hu. unfold field_entries.
  destruct (flat_map rendered_entry (entries_of error)) as [|p pairs] eqn:E.
  - now apply raw_serialization_nonempty.
  - apply join_head_nonempty. apply (rendered_entry_nonempty (entries_of error)).
    rewrite E. now left.
Qed.

(** A joined list is empty only when it holds nothing, or one element
    without text. *)
Lemma joined_empty sep items :
  sep <> "" ->
  joined sep items = "" <->
  match items with
  | [] => True
  | [x] => element_text x = ""
  | _ => False
  end.
Proof.
  intros Hsep. unfold joined, join.
  destruct items as [|x [|y rest]]; cbn [map String.concat].
  - tauto.
  - tauto.
  - split; [|contradiction]. intros H.
    apply append_empty in H. destruct H as [_ H].
    apply append_empty in H. destruct H as [H _]. contradiction.
Qed.

(** The elements without text are those that [renders_empty] lists. *)
Lemma element_text_empty : forall v, element_text v = "" <-> renders_empty v = true.
Proof.
  fix IH 1. intros v. destruct v as [| | [|] | n | t | items | props];
    cbn [element_text value_text renders_empty];
    try (split; [reflexivity | reflexivity]);
    try (split; discriminate).
  - split; [intros H; now contradiction (Number_toString_nonempty n) | discriminate].
  - split; [intros ->; reflexivity | apply String.eqb_eq].
  - change (join "," (map (fun x => match x with
                                    | JUndefined | JNull => ""
                                    | _ => value_text x
                                    end) items))
      with (joined "," items).
    rewrite joined_empty by discriminate.
    destruct items as [|x [|y rest]].
    + tauto.
    + apply IH.
    + split; [contradiction | discriminate].
Qed.

Lemma detail_of_shapes_empty error :
  error <> JUndefined ->
  detail_of_shapes error = "" <->
  match nonempty_string "detail" error, nonempty_string "error" error,
        own_field error "non_field_errors" with
  | None, None, Some (JArr [x]) => renders_empty x
  | _, _, _ => false
  end = true.
Proof.
  intros Hu.
  unfold detail_of_shapes, known_shapes. cbn [first_match].
  destruct (nonempty_string "detail" error) as [d|] eqn:Ed.
  { apply nonempty_string_nonempty in Ed. split; [contradiction | discriminate]. }
  destruct (nonempty_string "error" error) as [e|] eqn:Ee.
  { apply nonempty_string_nonempty in Ee. split; [contradiction | discriminate]. }
  pose proof (fields_or_raw_nonempty error Hu) as Htail.
  unfold non_field_errors_list.
  assert (Hrest : match match field_entries error with
                        | Some s => Some s
                        | None => None
                        end with
                  | Some s => s
                  | None => raw_serialization error
                  end = "" <-> false = true).
  { destruct (field_entries error); split; (contradiction || discriminate). }
  destruct (own_field error "non_field_errors") as [x|] eqn:E; [|exact Hrest].
  destruct x as [| | | | | items |]; try exact Hrest.
  destruct items as [|x rest]; [exact Hrest|].
  rewrite (joined_empty ", " (x :: rest)) by discriminate.
  destruct rest as [|y rest].
  - apply element_text_empty.
  - split; [contradiction | discriminate].
Qed.

Lemma detail_by_priority_empty body :
  (truthy body = true -> inspected body <> Some JUndefined) ->
  detail_by_priority body = "" <-> only_an_empty_non_field_error body = true.
Proof.
  unfold detail_by_priority, only_an_empty_non_field_error.
  destruct (truthy body) eqn:Ht; [|intros _; split; discriminate].
  cbn [andb]. intros Hu. specialize (Hu eq_refl).
  destruct (inspected body) as [error|] eqn:Ei.
  - apply detail_of_shapes_empty. congruence.
  - destruct body; try discriminate Ei. simpl in Ht |- *.
    destruct (String.eqb_spec s ""); [discriminate|].
    split; [contradiction | discriminate].
Qed.

(** A body of the declared shape is inspected as a value. *)
Lemma well_shaped_inspected body :
  well_shaped body = true -> truthy body = true ->
  inspected body <> Some JUndefined.
Proof.
  unfold well_shaped. intros H Ht. rewrite Ht in H.
  destruct (inspected body) as [error|]; [|discriminate].
  intros [= ->]. discriminate H.
Qed.
End ClassifierFacts.


(** C4 as the specification states it fails: a detail that is the empty
    string does not win over the error text.  The other inputs show what
    else the statement leaves out: the body 0 is neither empty nor absent
    and gives the fixed text; a detail that is no string is returned as
    it is, no string; on a string body that reads null the extraction
    throws; and a string body that reads as a JSON string is rendered
    character by character. *)
Lemma C4_counterexample :
  own_field empty_detail_body "detail" = Some (JStr "") /\
  parseErrorResponse empty_detail_body = Return (JStr "boom") /\
  parseErrorResponse (JNum (number_of_Z 0)) = Return (JStr "Unknown error") /\
  parseErrorResponse numeric_detail_body = Return (JNum (number_of_Z 5)) /\
  parseErrorResponse (JStr "null") =
    Throw (TypeError "Cannot read properties of null (reading 'detail')") /\
  parseErrorResponse (JStr (json_text "'abc'")) = Return (JStr "0: a; 1: b; 2: c").
Proof. repeat split. Qed.

(** C4, amended.  Wherever the extraction yields a string, and it does
    on every body of the declared shape, the string follows the priority
    order: the fixed text "Unknown error" for a falsy body; a string body
    is parsed as JSON when possible and returned as it is when not; then
    a non-empty detail string wins, else a non-empty error string, else a
    non-empty non_field_errors list joined with ", ", else the remaining
    string and list entries rendered as "field: value" and joined with
    "; ", else the raw serialization of the inspected value.  A list is
    joined element by element, whatever the elements are: a string as it
    is, a number or boolean in its notation, null as nothing. *)
Theorem C4_detail_priority :
  forall body,
    (forall s, parseErrorResponse body = Return (JStr s) ->
               s = detail_by_priority body) /\
    (well_shaped body = true ->
     parseErrorResponse body = Return (JStr (detail_by_priority body))).
Proof.
  intros body. split.
  - intros s H. now apply parseErrorResponse_returns in H.
  - apply parseErrorResponse_by_priority.
Qed.

Lemma C4_detail_priority_witness :
  parseErrorResponse validation_error_body = Return (JStr "a, b") /\
  parseErrorResponse mixed_list_body = Return (JStr "title: too long, 5") /\
  "boom" = detail_by_priority empty_detail_body.
Proof.
  split; [|split].
  - exact (proj2 (C4_detail_priority validation_error_body) eq_refl).
  - exact (proj2 (C4_detail_priority mixed_list_body) eq_refl).
  - exact (proj1 (C4_detail_priority empty_detail_body) "boom" eq_refl).
Defined.

(** C5.  The specification holds that for status 401, and for status
    404, the classifier gives one fixed message whatever the body.  The
    code fails it:
    [formatHttpError] extracts the detail before it looks at the status,
    and the extraction throws on a string body that parses to null.  For
    status 401 (and 404) the body "null" gives no message where the body
    null gives the fixed one (so does a body whose non_field_errors is a
    string), and the executor raises the 401 response as a failed
    request without status code. *)
Theorem C5_fixed_message_fails_on_null :
  formatHttpError 401 (JStr "null") =
    Throw (TypeError "Cannot read properties of null (reading 'detail')") /\
  formatHttpError 401 JNull = Return authentication_failed_message /\
  formatHttpError 404 (JStr "null") =
    Throw (TypeError "Cannot read properties of null (reading 'detail')") /\
  formatHttpError 404 JNull = Return not_found_message /\
  formatHttpError 401 (JObj [("non_field_errors", JStr "Invalid data.")]) =
    Throw (TypeError "error.non_field_errors.join is not a function") /\
  fst (run (always (Fulfilled quoted_null_response))
         (apiRequest plain_address sample_config "GET" "/api/statistics/"
            no_options)) =
    Throw (api_error
             "Request failed: Cannot read properties of null (reading 'detail')") /\
  fst (run (always (Fulfilled null_response))
         (apiRequest plain_address sample_config "GET" "/api/statistics/"
            no_options)) =
    Throw (ThrowApiError
             (mkPaperlessApiError authentication_failed_message (Some 401) JNull)).
Proof. repeat split. Qed.

(** Where the extraction returns, the messages for 401 and 404 are the
    fixed ones, whatever the body. *)
Lemma fixed_messages_when_extracted body detail :
  parseErrorResponse body = Return detail ->
  formatHttpError 401 body = Return authentication_failed_message /\
  formatHttpError 404 body = Return not_found_message.
Proof. intros H. unfold formatHttpError. rewrite H. split; reflexivity. Qed.

(** C10 as stated fails: a non_field_errors list that holds the empty
    string alone gives the empty detail, and the message for status 400
    embeds it; so does a list that holds null alone.  And the extraction
    does not yield a string on every body: a detail that is a number is
    returned as that number. *)
Lemma C10_counterexample :
  parseErrorResponse empty_non_field_error_body = Return (JStr "") /\
  formatHttpError 400 empty_non_field_error_body =
    Return "Bad request: . Please check your input parameters." /\
  parseErrorResponse null_element_body = Return (JStr "") /\
  parseErrorResponse numeric_detail_body = Return (JNum (number_of_Z 5)).
Proof. repeat split. Qed.

(** C10, amended.  On every body of the declared shape the extraction
    yields a string, and wherever it yields a string, the string is empty
    only for the one shape without detail or error text whose
    non_field_errors list holds a single element without text: the empty
    string, null, an empty list, or a list that holds one such element. *)
Theorem C10_detail_nonempty :
  forall body,
    (well_shaped body = true ->
     exists s, parseErrorResponse body = Return (JStr s)) /\
    (forall s, parseErrorResponse body = Return (JStr s) ->
               (s = "" <-> only_an_empty_non_field_error body = true)).
Proof.
  intros body. split.
  - intros Hshape. exists (detail_by_priority body).
    now apply parseErrorResponse_by_priority.
  - intros s H. apply parseErrorResponse_returns in H. destruct H as [-> Hu].
    now apply detail_by_priority_empty.
Qed.

Lemma C10_detail_nonempty_witness :
  (exists s, parseErrorResponse mixed_list_body = Return (JStr s)) /\
  ("title: too long, 5" = "" <-> only_an_empty_non_field_error mixed_list_body = true) /\
  ("" = "" <-> only_an_empty_non_field_error null_element_body = true).
Proof.
  split; [|split].
  - exact (proj1 (C10_detail_nonempty mixed_list_body) eq_refl).
  - exact (proj2 (C10_detail_nonempty mixed_list_body) "title: too long, 5" eq_refl).
  - exact (proj2 (C10_detail_nonempty null_element_body) "" eq_refl).
Defined.

(* ===================================================================== *)
(** * What the try block throws *)
(* ===================================================================== *)

Lemma throws_Errors_Return {A : Type} (a : A) : throws_Errors (Return a).
Proof. intros t H. discriminate H. Qed.

Lemma throws_Errors_bind {A B : Type} (c : completion A) (k : A -> completion B) :
  throws_Errors c -> (forall a, throws_Errors (k a)) -> throws_Errors (bind c k).
Proof.
  intros Hc Hk t. destruct c as [a|t']; simpl.
  - apply Hk.
  - intros [= <-]. now apply Hc.
Qed.

Lemma join_elements_throws_Errors f sep items :
  Forall (fun x => throws_Errors (f x)) items ->
  throws_Errors (join_elements f sep items).
Proof.
  induction 1 as [|x items Hx Hitems IH]; [apply throws_Errors_Return|].
  assert (Hel : throws_Errors (join_element f x)).
  { destruct x; simpl; try apply throws_Errors_Return; exact Hx. }
  destruct items as [|y items]; [exact Hel|].
  change (join_elements f sep (x :: y :: items))
    with (sx <- join_element f x ;; sr <- join_elements f sep (y :: items) ;;
          Return (sx ++ sep ++ sr)).
  apply throws_Errors_bind; [exact Hel|]. intros sx.
  apply throws_Errors_bind; [exact IH|]. intros sr. apply throws_Errors_Return.
Qed.

Lemma ToString_throws_Errors : forall v, throws_Errors (ToString v).
Proof.
  fix IH 1. intros v. destruct v as [| | [|] | n | s | items | props]; simpl;
    try apply throws_Errors_Return.
  - apply join_elements_throws_Errors.
    induction items as [|x items IHitems]; constructor; [apply IH | exact IHitems].
  - destruct (has_key "toString" props); [|apply throws_Errors_Return].
    intros t [= <-]. reflexivity.
Qed.

Ltac throws :=
  repeat first
    [ apply throws_Errors_Return
    | apply ToString_throws_Errors
    | apply throws_Errors_bind; [|intros ?]
    | match goal with
      | |- throws_Errors (if ?c then _ else _) => destruct c
      | |- throws_Errors (match ?x with _ => _ end) => destruct x
      | |- throws_Errors (Throw (TypeError _)) => intros ? [= <-]; reflexivity
      | |- throws_Errors (Throw (ThrowError _ _)) => intros ? [= <-]; reflexivity
      end ].

Lemma Array_join_throws_Errors items sep : throws_Errors (Array_join items sep).
Proof.
  apply join_elements_throws_Errors, Forall_forall. intros x _.
  apply ToString_throws_Errors.
Qed.

Lemma call_join_throws_Errors what v sep : throws_Errors (call_join what v sep).
Proof.
  destruct v; simpl; try (intros ? [= <-]; reflexivity).
  apply Array_join_throws_Errors.
Qed.

Lemma map_completion_throws_Errors {A B : Type} (f : A -> completion B) items :
  (forall x, throws_Errors (f x)) -> throws_Errors (map_completion f items).
Proof.
  intros Hf. induction items as [|x items IH]; simpl; [apply throws_Errors_Return|].
  apply throws_Errors_bind; [apply Hf|]. intros y.
  apply throws_Errors_bind; [exact IH|]. intros ys. apply throws_Errors_Return.
Qed.

Lemma render_field_error_throws_Errors entry :
  throws_Errors (render_field_error entry).
Proof.
  destruct entry as [k v]. unfold render_field_error.
  apply throws_Errors_bind; [|intros; apply throws_Errors_Return].
  destruct (Array_isArray v);
    [apply call_join_throws_Errors | apply ToString_throws_Errors].
Qed.

Lemma get_field_throws_Errors v name : throws_Errors (get_field v name).
Proof. destruct v; simpl; throws. Qed.

Lemma Object_entries_throws_Errors v : throws_Errors (Object_entries v).
Proof. destruct v; simpl; throws. Qed.

Lemma parse_error_object_throws_Errors error :
  throws_Errors (parse_error_object error).
Proof.
  unfold parse_error_object.
  apply throws_Errors_bind; [apply get_field_throws_Errors|]. intros detail.
  destruct (truthy detail); [apply throws_Errors_Return|].
  apply throws_Errors_bind; [apply get_field_throws_Errors|]. intros err.
  destruct (truthy err); [apply throws_Errors_Return|].
  apply throws_Errors_bind; [apply get_field_throws_Errors|]. intros nfe.
  destruct (truthy (optional_length nfe)).
  - apply throws_Errors_bind; [apply call_join_throws_Errors|].
    intros. apply throws_Errors_Return.
  - apply throws_Errors_bind; [apply Object_entries_throws_Errors|]. intros entries.
    apply throws_Errors_bind.
    + apply map_completion_throws_Errors, render_field_error_throws_Errors.
    + intros fieldErrors. destruct (0 <? List.length fieldErrors)%nat;
        apply throws_Errors_Return.
Qed.

Lemma parseErrorResponse_throws_Errors body : throws_Errors (parseErrorResponse body).
Proof.
  unfold parseErrorResponse.
  destruct (negb (truthy body)); [apply throws_Errors_Return|].
  destruct body; try apply parse_error_object_throws_Errors.
  destruct (JSON_parse s);
    [apply parse_error_object_throws_Errors | apply throws_Errors_Return].
Qed.

Lemma formatHttpError_throws_Errors status body :
  throws_Errors (formatHttpError status body).
Proof.
  unfold formatHttpError.
  apply throws_Errors_bind; [apply parseErrorResponse_throws_Errors|].
  intros detail. throws.
Qed.

(** The try block throws the platform's [Error]s and the
    [PaperlessApiError] of a response that is not 2xx, which carries the
    status code. *)
Lemma try_block_throws P outcome t :
  try_block P outcome = Throw t ->
  is_Error t = true \/
  exists msg code errorBody,
    t = ThrowApiError (mkPaperlessApiError msg (Some code) errorBody).
Proof.
  unfold try_block. destruct outcome as [response | name msg].
  - destruct (negb (ok response)).
    + destruct (formatHttpError (status response) (read_error_body response))
        as [msg|t'] eqn:E; simpl.
      * intros [= <-]. right. eauto.
      * intros [= <-]. left.
        exact (formatHttpError_throws_Errors _ _ _ E).
    + destruct (_ || _); [discriminate|].
      unfold response_json. destruct (JSON_parse _); [discriminate|].
      intros [= <-]. now left.
  - intros [= <-]. now left.
Qed.

(** The last branch of the catch block is never taken: after the call,
    [apiRequest] does not raise the error of the unexpected value. *)
Lemma unexpected_message_never_raised P cfg outcome :
  try_catch P cfg outcome <> Throw (api_error unexpected_message).
Proof.
  unfold try_catch.
  destruct (try_block P outcome) as [v|t] eqn:E; [discriminate|].
  destruct (try_block_throws P outcome t E) as [Ht | (msg & code & body & ->)].
  - destruct t as [e | name msg | v]; try discriminate Ht.
    unfold catch_block, api_error.
    destruct ((name =? "TimeoutError") || (name =? "AbortError"))%string;
      [|destruct (includes msg "fetch" || includes msg "network")];
      intros H; vm_compute in H; discriminate H.
  - discriminate.
Qed.

(* ===================================================================== *)
(** * The configuration as the environment gives it *)
(* ===================================================================== *)

Section ConfigurationFacts.

Lemma strip_trailing_slash_app base : strip_trailing_slash (base ++ "/") = base.
Proof.
  induction base as [|c rest IH]; [reflexivity|].
  simpl. rewrite IH. now destruct rest.
Qed.

Lemma strip_trailing_slash_ends s :
  strip_trailing_slash s = s \/ s = strip_trailing_slash s ++ "/".
Proof.
  induction s as [|c rest IH]; [now left|].
  destruct rest as [|d rest'].
  - simpl. destruct (N.eqb_spec (N_of_ascii c) 47) as [E|_]; [right|now left].
    rewrite <- (ascii_N_embedding c), E. reflexivity.
  - change (strip_trailing_slash (String c (String d rest')))
      with (String c (strip_trailing_slash (String d rest'))).
    destruct IH as [IH|IH]; [left; now rewrite IH|right].
    cbn [append]. f_equal. exact IH.
Qed.

Lemma strip_trailing_slash_empty s :
  strip_trailing_slash s = "" <-> s = "" \/ s = "/".
Proof.
  split.
  - intros H. destruct (strip_trailing_slash_ends s) as [E|E]; rewrite H in E; auto.
  - intros [->| ->]; reflexivity.
Qed.

Lemma eqb_empty s : (s =? "")%string = false <-> s <> "".
Proof. destruct (String.eqb_spec s ""); split; congruence. Qed.

Lemma validateConfig_accepts cfg :
  validateConfig cfg = Return tt <->
  PAPERLESS_URL cfg <> "" /\ PAPERLESS_TOKEN cfg <> "".
Proof.
  unfold validateConfig.
  destruct (String.eqb_spec (PAPERLESS_URL cfg) "") as [E|E];
    [split; [discriminate | tauto]|].
  destruct (String.eqb_spec (PAPERLESS_TOKEN cfg) "") as [E'|E'];
    [split; [discriminate | tauto]|].
  tauto.
Qed.

End ConfigurationFacts.

(** X1. The executor accepts the configuration read from the environment
    exactly when PAPERLESS_URL is set to something else than the empty
    string and a lone slash, and PAPERLESS_TOKEN is set to a string that is
    not empty.  A base address that is one slash counts as missing: the
    slash is removed before the guard looks at it. *)
Theorem environment_accepted :
  forall env_url env_token,
    validateConfig (load_config env_url env_token) = Return tt <->
    (exists url, env_url = Some url /\ url <> "" /\ url <> "/") /\
    (exists token, env_token = Some token /\ token <> "").
Proof.
  intros env_url env_token. rewrite validateConfig_accepts. simpl.
  split.
  - intros [Hurl Htoken]. split.
    + destruct env_url as [url|]; [|now contradiction Hurl].
      exists url. split; [reflexivity|].
      split; intros ->; now apply Hurl.
    + destruct env_token as [token|]; [|now contradiction Htoken].
      now exists token.
  - intros [(url & -> & Hne & Hslash) (token & -> & Htoken)]. simpl.
    split; [|assumption].
    intros H. apply strip_trailing_slash_empty in H. tauto.
Qed.

(** X2. One slash at the end of the configured base address is removed
    and nothing else is touched: an address followed by a slash loads as
    the address itself, so that a path such as /api/documents/ follows it
    with a single slash; every other address loads unchanged.  Only one
    slash goes: the loaded address is the configured one, or the
    configured one is the loaded address followed by a slash. *)
Theorem trailing_slash_is_removed :
  forall env_url env_token,
    (forall base, env_url = base ++ "/" ->
       PAPERLESS_URL (load_config (Some env_url) env_token) = base) /\
    ((forall base, env_url <> base ++ "/") ->
       PAPERLESS_URL (load_config (Some env_url) env_token) = env_url) /\
    (PAPERLESS_URL (load_config (Some env_url) env_token) = env_url \/
     env_url = PAPERLESS_URL (load_config (Some env_url) env_token) ++ "/").
Proof.
  intros env_url env_token. simpl. split; [|split].
  - intros base ->. apply strip_trailing_slash_app.
  - intros Hnot. destruct (strip_trailing_slash_ends env_url) as [E|E]; [exact E|].
    now contradiction (Hnot (strip_trailing_slash env_url)).
  - apply strip_trailing_slash_ends.
Qed.

Lemma trailing_slash_is_removed_witness :
  PAPERLESS_URL (load_config (Some "https://paperless.example.com/") None) =
    "https://paperless.example.com" /\
  PAPERLESS_URL (load_config (Some "https://paperless.example.com") None) =
    "https://paperless.example.com".
Proof.
  split.
  - exact (proj1 (trailing_slash_is_removed "https://paperless.example.com/" None)
             "https://paperless.example.com" eq_refl).
  - apply (proj1 (proj2 (trailing_slash_is_removed "https://paperless.example.com" None))).
    intros base H.
    pose proof (strip_trailing_slash_app base) as E. rewrite <- H in E.
    subst base. vm_compute in H. discriminate H.
Defined.

(* ===================================================================== *)
(** * The messages of HTTP errors *)
(* ===================================================================== *)

Section MessageFacts.

(** The message of [formatHttpError] once the detail is extracted: fixed
    by the status, or the detail between two texts. *)
Lemma formatHttpError_of_detail status body d :
  parseErrorResponse body = Return (JStr d) ->
  exists message,
    formatHttpError status body = Return message /\
    (has_fixed_message status = true ->
       forall body' d', parseErrorResponse body' = Return d' ->
                        formatHttpError status body' = Return message) /\
    (has_fixed_message status = false ->
       exists before rest, message = before ++ d ++ rest).
Proof.
  intros Hd. unfold formatHttpError. rewrite Hd. cbn [bind].
  repeat match goal with
         | |- context [match ?p with _ => _ end] =>
             is_var p; destruct p; cbv beta iota
         end;
    cbv beta iota delta [bind ToString];
    (eexists; split; [reflexivity|]);
    (split;
     [ intros Hfixed; try (vm_compute in Hfixed; discriminate Hfixed);
       intros body' d' Hd'; rewrite Hd'; reflexivity
     | intros Hfixed; try (vm_compute in Hfixed; discriminate Hfixed);
       first
         [ eexists _, _; reflexivity
         | match goal with
           | |- context [string_of_Z ?s] =>
               exists ("HTTP " ++ string_of_Z s ++ " error: "), "";
               now rewrite append_empty_right, !append_assoc
           end ] ]).
Qed.

End MessageFacts.

(* ===================================================================== *)
(** * The request executor, call by call *)
(* ===================================================================== *)

Section RequestFacts.
Variable P : Platform.
Variable cfg : Config.

Lemma build_url_settles endpoint options :
  match new_URL P (PAPERLESS_URL cfg ++ endpoint) with
  | Return address => exists url, build_url P cfg endpoint options = Return url
  | Throw t => build_url P cfg endpoint options = Throw t
  end.
Proof.
  unfold build_url.
  destruct (new_URL P (PAPERLESS_URL cfg ++ endpoint)); cbn [bind]; [|reflexivity].
  destruct (params options); eauto.
Qed.

Lemma build_url_throws endpoint options t :
  build_url P cfg endpoint options = Throw t ->
  new_URL P (PAPERLESS_URL cfg ++ endpoint) = Throw t.
Proof.
  unfold build_url.
  destruct (new_URL P (PAPERLESS_URL cfg ++ endpoint)); cbn [bind]; [|auto].
  destruct (params options); discriminate.
Qed.

(** The trace of a call: the console lines, if any, then the one
    [fetch]. *)
Lemma trace_apiRequest verb endpoint options url network :
  validateConfig cfg = Return tt ->
  build_url P cfg endpoint options = Return url ->
  snd (run network (apiRequest P cfg verb endpoint options)) =
    ((if is_given (formData options) || is_undefined (request_json options)
      then []
      else [Logged ("[API DEBUG] " ++ verb ++ " " ++ endpoint);
            Logged ("[API DEBUG] Body: " ++
                    raw_serialization (request_json options))])
     ++ [Fetched url (fetch_options cfg verb options)])%list.
Proof.
  intros Hcfg Hurl. unfold apiRequest, debug_log. rewrite Hcfg, Hurl.
  destruct (formData options); [reflexivity|].
  destruct (request_json options) eqn:E; try reflexivity;
    cbn [is_given is_undefined orb];
    (rewrite serialize_defined by discriminate); reflexivity.
Qed.

Lemma run_apiRequest_unreadable verb endpoint options network t :
  validateConfig cfg = Return tt ->
  build_url P cfg endpoint options = Throw t ->
  run network (apiRequest P cfg verb endpoint options) = (Throw t, []).
Proof. intros Hcfg Hurl. unfold apiRequest. now rewrite Hcfg, Hurl. Qed.

(** What a call settles to is decided by the guard, the address and the
    one answer of the network. *)
Lemma apiRequest_settles verb endpoint options network :
  fst (run network (apiRequest P cfg verb endpoint options)) =
    match validateConfig cfg with
    | Throw t => Throw t
    | Return _ =>
        match build_url P cfg endpoint options with
        | Throw t => Throw t
        | Return url =>
            try_catch P cfg (network url (fetch_options cfg verb options))
        end
    end.
Proof.
  destruct (validateConfig cfg) as [[]|t] eqn:Hcfg.
  - destruct (build_url P cfg endpoint options) as [url|t] eqn:Hurl.
    + now apply run_apiRequest.
    + now rewrite (run_apiRequest_unreadable verb endpoint options network t Hcfg Hurl).
  - now rewrite (run_apiRequest_rejected P cfg verb endpoint options network t).
Qed.

Lemma try_catch_returns outcome data :
  try_catch P cfg outcome = Return data <->
  exists response, outcome = Fulfilled response /\ delivers response data.
Proof.
  unfold try_catch, try_block, delivers.
  destruct outcome as [response | name msg].
  2:{ split; [discriminate | intros (r & [=] & _)]. }
  destruct (ok response) eqn:Hok; cbn [negb].
  2:{ split.
      - destruct (formatHttpError (status response) (read_error_body response));
          discriminate.
      - intros (r & [= <-] & H & _). congruence. }
  destruct (Z.eqb_spec (status response) 204) as [E204|E204]; cbn [orb].
  { split.
    - intros [= <-]. exists response. tauto.
    - intros (r & [= <-] & _ & [[_ ->]|[H _]]); [reflexivity | contradiction]. }
  assert (Hcl : match headers_get response "content-length" with
                | Some v => (v =? "0")%string
                | None => false
                end = true <-> headers_get response "content-length" = Some "0").
  { destruct (headers_get response "content-length") as [v|].
    - destruct (String.eqb_spec v "0"); split; congruence.
    - split; discriminate. }
  destruct (match headers_get response "content-length" with
            | Some v => (v =? "0")%string
            | None => false
            end).
  { split.
    - intros [= <-]. exists response. split; [reflexivity|].
      split; [first [assumption | reflexivity]|]. left. split; [right; now apply Hcl | reflexivity].
    - intros (r & [= <-] & _ & [[_ ->]|(_ & H & _)]); [reflexivity|].
      contradiction H. now apply Hcl. }
  assert (Hno : headers_get response "content-length" <> Some "0").
  { intros H. apply Hcl in H. discriminate. }
  unfold response_json.
  destruct (JSON_parse (response_text response)) as [v|] eqn:Hparse.
  - split.
    + intros [= <-]. exists response. split; [reflexivity|].
      split; [assumption|]. right. repeat split; assumption.
    + intros (r & [= <-] & _ & [[[H|H] _]|(_ & _ & H)]);
        [contradiction | contradiction | congruence].
  - split; [discriminate|].
    intros (r & [= <-] & _ & [[[H|H] _]|(_ & _ & H)]);
      [contradiction | contradiction | congruence].
Qed.

(** A call returns only with a 2xx answer of the server in hand. *)
Lemma apiRequest_returns verb endpoint options network data :
  fst (run network (apiRequest P cfg verb endpoint options)) = Return data <->
  exists url response,
    validateConfig cfg = Return tt /\
    build_url P cfg endpoint options = Return url /\
    network url (fetch_options cfg verb options) = Fulfilled response /\
    delivers response data.
Proof.
  rewrite apiRequest_settles. split.
  - destruct (validateConfig cfg) as [[]|t]; [|discriminate].
    destruct (build_url P cfg endpoint options) as [url|t]; [|discriminate].
    intros H. apply try_catch_returns in H. destruct H as (response & Hnet & Hd).
    exists url, response. tauto.
  - intros (url & response & -> & -> & Hnet & Hd).
    apply try_catch_returns. eauto.
Qed.

(** A network call of [apiRequest] is the one that it prepared. *)
Lemma fetched_by_apiRequest verb endpoint options network url init :
  In (Fetched url init)
     (snd (run network (apiRequest P cfg verb endpoint options))) ->
  validateConfig cfg = Return tt /\
  build_url P cfg endpoint options = Return url /\
  init = fetch_options cfg verb options.
Proof.
  intros Hin.
  destruct (validateConfig cfg) as [[]|t] eqn:Hcfg.
  2:{ rewrite (run_apiRequest_rejected P cfg verb endpoint options network t Hcfg)
        in Hin. contradiction. }
  destruct (build_url P cfg endpoint options) as [url'|t] eqn:Hurl.
  2:{ rewrite (run_apiRequest_unreadable verb endpoint options network t
                 Hcfg Hurl) in Hin. contradiction. }
  rewrite (trace_apiRequest verb endpoint options url' network Hcfg Hurl) in Hin.
  apply in_app_or in Hin. destruct Hin as [Hin|[Hin|[]]].
  { destruct (is_given (formData options) || is_undefined (request_json options));
      [contradiction|].
    destruct Hin as [H|[H|[]]]; discriminate H. }
  injection Hin as <- <-. auto.
Qed.

Lemma catch_block_syntax_error msg :
  catch_block cfg (ThrowError "SyntaxError" msg) =
    api_error (if includes msg "fetch" || includes msg "network"
               then unreachable_message cfg
               else request_failed_message msg).
Proof.
  unfold catch_block.
  change (("SyntaxError" =? "TimeoutError") || ("SyntaxError" =? "AbortError"))%string
    with false.
  cbv iota. destruct (includes msg "fetch" || includes msg "network"); reflexivity.
Qed.

End RequestFacts.

(** X3. The health check answers 200 exactly when the guard of the
    request executor accepts the configuration, and 503 otherwise; the
    healthy answer names the configured base address, and neither answer
    depends on what the credential is beyond its presence. *)
Theorem health_agrees_with_guard :
  forall cfg,
    (reply_status (health cfg) = 200 <-> validateConfig cfg = Return tt) /\
    (reply_status (health cfg) <> 200 -> reply_status (health cfg) = 503) /\
    (reply_status (health cfg) = 200 ->
       lookup "paperless_url"
         (match reply_body (health cfg) with JObj fields => fields | _ => [] end)
       = Some (JStr (PAPERLESS_URL cfg))) /\
    (forall token, token <> "" -> PAPERLESS_TOKEN cfg <> "" ->
       health (mkConfig (PAPERLESS_URL cfg) token) = health cfg).
Proof.
  intros cfg. rewrite validateConfig_accepts.
  split; [|split; [|split]].
  - unfold health.
    destruct (String.eqb_spec (PAPERLESS_URL cfg) "") as [Eu|Eu];
      destruct (String.eqb_spec (PAPERLESS_TOKEN cfg) "") as [Et|Et];
      cbn [negb andb reply_status]; split; intros H;
      first [discriminate H | tauto].
  - unfold health.
    destruct (negb (PAPERLESS_URL cfg =? "")%string
              && negb (PAPERLESS_TOKEN cfg =? "")%string);
      cbn [reply_status]; intros H; [now contradiction H | reflexivity].
  - unfold health.
    destruct (negb (PAPERLESS_URL cfg =? "")%string
              && negb (PAPERLESS_TOKEN cfg =? "")%string);
      cbn [reply_status reply_body]; intros H; [reflexivity | discriminate H].
  - intros token Htoken Hcfg. unfold health.
    cbn [PAPERLESS_URL PAPERLESS_TOKEN].
    apply eqb_empty in Htoken, Hcfg. now rewrite Htoken, Hcfg.
Qed.

Lemma health_agrees_with_guard_witness :
  reply_status (health sample_config) = 200 /\
  reply_status (health (mkConfig "https://paperless.example.com" "")) = 503.
Proof.
  split; [reflexivity|].
  apply (proj1 (proj2 (health_agrees_with_guard
                         (mkConfig "https://paperless.example.com" "")))).
  vm_compute. discriminate.
Defined.

(** X4. When the server answers with a status that is not 2xx and an
    error body of the declared shape, the call raises a PaperlessApiError
    that carries the status code, the body as it was read (the JSON value,
    else the text, else null) and the message that formatHttpError makes
    of the two; it never returns. *)
Theorem http_error_carries_status_and_body :
  forall P cfg verb endpoint options url network response,
    validateConfig cfg = Return tt ->
    build_url P cfg endpoint options = Return url ->
    network url (fetch_options cfg verb options) = Fulfilled response ->
    ok response = false ->
    well_shaped (read_error_body response) = true ->
    exists msg,
      formatHttpError (status response) (read_error_body response) = Return msg /\
      fst (run network (apiRequest P cfg verb endpoint options)) =
        Throw (ThrowApiError
                 (mkPaperlessApiError msg (Some (status response))
                    (read_error_body response))).
Proof.
  intros P cfg verb endpoint options url network response
         Hcfg Hurl Hnet Hok Hshape.
  destruct (formatHttpError_of_detail (status response) _ _
              (parseErrorResponse_by_priority _ Hshape)) as (msg & Hmsg & _).
  exists msg. split; [exact Hmsg|].
  rewrite (proj1 (run_apiRequest P cfg verb endpoint options url network Hcfg Hurl)).
  rewrite Hnet. unfold try_catch, try_block. rewrite Hok. cbn [negb].
  rewrite Hmsg. reflexivity.
Qed.

Lemma http_error_carries_status_and_body_witness :
  exists msg,
    formatHttpError 400 (JObj [("detail", JStr "Invalid page.")]) = Return msg /\
    fst (run (always (Fulfilled bad_request_response))
           (get plain_address sample_config "/api/documents/" (Some sample_params))) =
      Throw (ThrowApiError
               (mkPaperlessApiError msg (Some 400)
                  (JObj [("detail", JStr "Invalid page.")]))).
Proof.
  exact (http_error_carries_status_and_body plain_address sample_config "GET"
           "/api/documents/" (mkRequestOptions (Some sample_params) JUndefined None)
           (append_params (mkURL "https://paperless.example.com/api/documents/" [])
              sample_params)
           (always (Fulfilled bad_request_response)) bad_request_response
           eq_refl eq_refl eq_refl eq_refl eq_refl).
Defined.

(** X5. A 2xx answer that is not empty (status other than 204, no
    content-length of 0) is decoded as JSON: the call returns the decoded
    value, and a body that is no JSON makes it raise a PaperlessApiError
    without status code, whose message is the decoder's behind
    "Request failed: ", or the could-not-connect message when the
    decoder's message happens to contain "fetch" or "network". *)
Theorem success_body_is_decoded :
  forall P cfg verb endpoint options url network response,
    validateConfig cfg = Return tt ->
    build_url P cfg endpoint options = Return url ->
    network url (fetch_options cfg verb options) = Fulfilled response ->
    ok response = true ->
    status response <> 204 ->
    headers_get response "content-length" <> Some "0" ->
    fst (run network (apiRequest P cfg verb endpoint options)) =
      match JSON_parse (response_text response) with
      | Some data => Return data
      | None =>
          let reason := syntax_error P (response_text response) in
          Throw (api_error
                   (if includes reason "fetch" || includes reason "network"
                    then unreachable_message cfg
                    else request_failed_message reason))
      end.
Proof.
  intros P cfg verb endpoint options url network response
         Hcfg Hurl Hnet Hok H204 Hcl.
  rewrite (proj1 (run_apiRequest P cfg verb endpoint options url network Hcfg Hurl)).
  rewrite Hnet. unfold try_catch, try_block, response_json. rewrite Hok.
  cbn [negb].
  destruct (Z.eqb_spec (status response) 204) as [E|_]; [contradiction|].
  cbn [orb].
  destruct (headers_get response "content-length") as [v|].
  - destruct (String.eqb_spec v "0") as [->|_]; [now contradiction Hcl|].
    destruct (JSON_parse (response_text response)); [reflexivity|].
    now rewrite catch_block_syntax_error.
  - destruct (JSON_parse (response_text response)); [reflexivity|].
    now rewrite catch_block_syntax_error.
Qed.

Lemma success_body_is_decoded_witness :
  fst (run (always (Fulfilled truncated_response))
         (get plain_address sample_config "/api/tags/" None)) =
    Throw (api_error "Request failed: Unexpected end of JSON input").
Proof.
  refine (success_body_is_decoded plain_address sample_config "GET" "/api/tags/"
            (mkRequestOptions None JUndefined None)
            (mkURL "https://paperless.example.com/api/tags/" [])
            (always (Fulfilled truncated_response)) truncated_response
            eq_refl eq_refl eq_refl eq_refl _ _); vm_compute; discriminate.
Defined.

(** X6. On an error body of the declared shape formatHttpError always
    returns a message.  For 401, 404, 413, 429, 500, 502, 503 and 504 the
    message is fixed by the status (the body plays no part); for every
    other status, 400, 403 and 409 among them, the message contains the
    detail that the body yields by the priority of the shapes. *)
Theorem http_message_embeds_detail :
  forall status body,
    well_shaped body = true ->
    exists msg,
      formatHttpError status body = Return msg /\
      (has_fixed_message status = true ->
         forall body', well_shaped body' = true ->
                       formatHttpError status body' = Return msg) /\
      (has_fixed_message status = false ->
         includes msg (detail_by_priority body) = true).
Proof.
  intros status body Hshape.
  destruct (formatHttpError_of_detail status _ _
              (parseErrorResponse_by_priority _ Hshape))
    as (msg & Hmsg & Hfixed & Hembeds).
  exists msg. split; [exact Hmsg|]. split.
  - intros Hf body' Hshape'.
    exact (Hfixed Hf body' _ (parseErrorResponse_by_priority _ Hshape')).
  - intros Hf. destruct (Hembeds Hf) as (before & rest & ->).
    apply includes_infix.
Qed.

Lemma http_message_embeds_detail_witness :
  exists msg,
    formatHttpError 409 validation_error_body = Return msg /\
    includes msg (detail_by_priority validation_error_body) = true.
Proof.
  destruct (http_message_embeds_detail 409 validation_error_body eq_refl)
    as (msg & Hmsg & _ & Hembeds).
  exists msg. split; [exact Hmsg | exact (Hembeds eq_refl)].
Defined.

(** X7. Every network call of the executor is authenticated and bounded:
    it is made only with a credential that is not empty, carries
    "Authorization: Token <credential>" and "Accept: application/json",
    the method asked for and the timeout of REQUEST_TIMEOUT_MS (30
    seconds), and goes to the address built from the base address and the
    path.  "Content-Type: application/json" is set exactly when no form
    data is sent, and form data takes precedence over a JSON body. *)
Theorem calls_are_authenticated :
  forall P cfg verb endpoint options network url init,
    In (Fetched url init)
       (snd (run network (apiRequest P cfg verb endpoint options))) ->
    PAPERLESS_TOKEN cfg <> "" /\
    lookup "Authorization" (headers init) = Some ("Token " ++ PAPERLESS_TOKEN cfg) /\
    lookup "Accept" (headers init) = Some "application/json" /\
    lookup "Content-Type" (headers init) =
      (if is_given (formData options) then None else Some "application/json") /\
    method init = verb /\
    timeout init = 30000 /\
    build_url P cfg endpoint options = Return url /\
    body init =
      match formData options with
      | Some fd => MultipartBody fd
      | None =>
          if is_undefined (request_json options) then NoBody
          else JsonBody (JStr (raw_serialization (request_json options)))
      end.
Proof.
  intros P cfg verb endpoint options network url init Hin.
  apply fetched_by_apiRequest in Hin. destruct Hin as (Hcfg & Hurl & ->).
  apply validateConfig_accepts in Hcfg. destruct Hcfg as [_ Htoken].
  split; [exact Htoken|].
  unfold fetch_options, getHeaders. cbn [headers method timeout body].
  destruct (formData options) as [fd|]; cbn [is_given].
  - repeat split; first [reflexivity | exact Hurl].
  - repeat split; try reflexivity; try exact Hurl.
    destruct (request_json options) eqn:E; cbn [is_undefined]; try reflexivity;
      now rewrite serialize_defined by discriminate.
Qed.

Lemma calls_are_authenticated_witness :
  lookup "Authorization"
    (headers (fetch_options sample_config "DELETE" no_options))
  = Some "Token 0123456789abcdef".
Proof.
  refine (proj1 (proj2 (calls_are_authenticated plain_address sample_config
                          "DELETE" "/api/documents/7/" no_options
                          (always (Fulfilled no_content_response))
                          (mkURL "https://paperless.example.com/api/documents/7/" [])
                          (fetch_options sample_config "DELETE" no_options) _))).
  vm_compute. left. reflexivity.
Defined.

(** X8. The executor writes to the error console only when it sends a
    JSON body, and then two lines: the method with the path, and the body
    as it is sent, whatever it holds.  Nothing is written for a request
    without body, with form data, or one that is stopped before the
    call. *)
Theorem console_shows_json_bodies :
  forall P cfg verb endpoint options network,
    filter (fun e => negb (is_fetch e))
           (snd (run network (apiRequest P cfg verb endpoint options))) =
      match validateConfig cfg, build_url P cfg endpoint options,
            fetch_options cfg verb options with
      | Return _, Return _, mkRequestInit _ _ _ (JsonBody (JStr text)) =>
          [Logged ("[API DEBUG] " ++ verb ++ " " ++ endpoint);
           Logged ("[API DEBUG] Body: " ++ text)]
      | _, _, _ => []
      end.
Proof.
  intros P cfg verb endpoint options network.
  destruct (validateConfig cfg) as [[]|t] eqn:Hcfg.
  2:{ now rewrite (run_apiRequest_rejected P cfg verb endpoint options network t
                     Hcfg). }
  destruct (build_url P cfg endpoint options) as [url|t] eqn:Hurl.
  2:{ now rewrite (run_apiRequest_unreadable P cfg verb endpoint options network t
                     Hcfg Hurl). }
  rewrite (trace_apiRequest P cfg verb endpoint options url network Hcfg Hurl).
  unfold fetch_options.
  destruct (formData options) as [fd|]; [reflexivity|].
  destruct (request_json options) eqn:E; cbn [is_given is_undefined orb];
    try reflexivity; now rewrite serialize_defined by discriminate.
Qed.

(** X9. A call that fails raises a PaperlessApiError, with one exception:
    an address that the URL constructor cannot read (a base address
    without scheme, for one) makes the constructor's own error leave the
    executor as it is, before the try block and without any network
    call. *)
Theorem failures_are_api_errors :
  forall P cfg verb endpoint options network t,
    fst (run network (apiRequest P cfg verb endpoint options)) = Throw t ->
    (exists e, t = ThrowApiError e) \/
    (validateConfig cfg = Return tt /\
     new_URL P (PAPERLESS_URL cfg ++ endpoint) = Throw t /\
     snd (run network (apiRequest P cfg verb endpoint options)) = []).
Proof.
  intros P cfg verb endpoint options network t.
  destruct (validateConfig cfg) as [[]|t'] eqn:Hcfg.
  - destruct (build_url P cfg endpoint options) as [url|t'] eqn:Hurl.
    + rewrite (proj1 (run_apiRequest P cfg verb endpoint options url network
                        Hcfg Hurl)).
      unfold try_catch.
      destruct (try_block P (network url (fetch_options cfg verb options)))
        as [v|error]; [discriminate|].
      intros [= <-]. left. apply catch_block_raises_api_error.
    + rewrite (run_apiRequest_unreadable P cfg verb endpoint options network t'
                 Hcfg Hurl).
      intros [= <-]. right. split; [reflexivity|]. split; [|reflexivity].
      now apply build_url_throws in Hurl.
  - rewrite (run_apiRequest_rejected P cfg verb endpoint options network t' Hcfg).
    intros [= <-]. left.
    unfold validateConfig, api_error in Hcfg.
    destruct (PAPERLESS_URL cfg =? "")%string; [injection Hcfg as <-; eauto|].
    destruct (PAPERLESS_TOKEN cfg =? "")%string; [injection Hcfg as <-; eauto|].
    discriminate.
Qed.

Lemma failures_are_api_errors_witness :
  (exists e, TypeError "Invalid URL" = ThrowApiError e) \/
  (validateConfig (mkConfig "paperless.local" "0123456789abcdef") = Return tt /\
   new_URL strict_address ("paperless.local" ++ "/api/tags/")
     = Throw (TypeError "Invalid URL") /\
   snd (run (always (Fulfilled no_content_response))
          (apiRequest strict_address (mkConfig "paperless.local" "0123456789abcdef")
             "GET" "/api/tags/" no_options)) = []).
Proof.
  exact (failures_are_api_errors strict_address
           (mkConfig "paperless.local" "0123456789abcdef")
           "GET" "/api/tags/" no_options (always (Fulfilled no_content_response))
           (TypeError "Invalid URL") eq_refl).
Defined.

(** X10. A call uses the network exactly once when the configuration is
    accepted and the address can be read, whatever the network answers
    (a failure is not retried), and not at all otherwise. *)
Theorem one_call_and_no_retry :
  forall P cfg verb endpoint options network,
    network_calls (snd (run network (apiRequest P cfg verb endpoint options))) =
      match validateConfig cfg, new_URL P (PAPERLESS_URL cfg ++ endpoint) with
      | Return _, Return _ => 1%nat
      | _, _ => 0%nat
      end.
Proof.
  intros P cfg verb endpoint options network. unfold network_calls.
  destruct (validateConfig cfg) as [[]|t] eqn:Hcfg.
  2:{ now rewrite (run_apiRequest_rejected P cfg verb endpoint options network t
                     Hcfg). }
  pose proof (build_url_settles P cfg endpoint options) as Hurl.
  destruct (new_URL P (PAPERLESS_URL cfg ++ endpoint)) as [address|t].
  - destruct Hurl as [url Hurl].
    now rewrite (proj2 (run_apiRequest P cfg verb endpoint options url network
                          Hcfg Hurl)).
  - now rewrite (run_apiRequest_unreadable P cfg verb endpoint options network t
                   Hcfg Hurl).
Qed.

(* ===================================================================== *)
(** * The tool handlers *)
(* ===================================================================== *)

Section HandlerFacts.
Context {A : Type}.
Variable network : URL -> RequestInit -> fetch_outcome.

Lemma run_prog_bind {B : Type} (p : prog A) (k : completion A -> prog B) :
  run network (prog_bind p k) =
    (fst (run network (k (fst (run network p)))),
     (snd (run network p) ++ snd (run network (k (fst (run network p)))))%list).
Proof.
  induction p as [c | line rest IH | url init continue IH]; cbn [prog_bind run].
  - cbn [fst snd app]. now destruct (run network (k c)).
  - rewrite IH. now destruct (run network rest).
  - rewrite IH. now destruct (run network (continue (network url init))).
Qed.

(** A handler settles with a text and uses the network as its request
    does. *)
Lemma run_tool (request : prog A) (text : A -> completion string) :
  run network (tool request text) =
    (Return match fst (run network request) with
            | Return data =>
                match text data with
                | Return t => t
                | Throw error => handleToolError error
                end
            | Throw error => handleToolError error
            end,
     snd (run network request)).
Proof. unfold tool. rewrite run_prog_bind. cbn [run fst snd]. now rewrite app_nil_r. Qed.

End HandlerFacts.

Lemma handleToolError_is_error_text error :
  is_error_text (handleToolError error) = true.
Proof.
  unfold is_error_text, handleToolError.
  destruct error as [e | name msg | v]; [| |reflexivity];
    now rewrite prefix_append.
Qed.

(** A handler whose success text is no error text reports success
    exactly when its request returns. *)
Lemma tool_succeeds {A : Type} network (request : prog A) (success : string) :
  is_error_text success = false ->
  fst (run network (tool request (fun _ => Return success))) = Return success <->
  exists data, fst (run network request) = Return data.
Proof.
  intros Hsuccess. rewrite run_tool. cbn [fst].
  destruct (fst (run network request)) as [data|error].
  - split; eauto.
  - split; [|intros [data H]; discriminate H].
    intros [= H]. pose proof (handleToolError_is_error_text error) as He.
    rewrite H in He. congruence.
Qed.

Lemma deleted_message_is_no_error document_id :
  is_error_text (deleted_message document_id) = false.
Proof. reflexivity. Qed.

Lemma download_text_is_no_error cfg document_id original :
  is_error_text (download_text cfg document_id original) = false.
Proof. reflexivity. Qed.


(** X12. The delete handler answers that the document has been
    permanently deleted exactly when its DELETE request to
    /api/documents/<id>/ was answered with a 2xx status and no content or
    a JSON body; the download handler gives the download address exactly
    when its GET request for the document was answered so.  In every
    other case (rejected configuration, unreadable address, transport
    failure, status outside 2xx, a 2xx body that is no JSON) the answer is
    an error text. *)
Theorem success_is_reported_on_2xx_only :
  forall P cfg network document_id,
    (fst (run network (paperless_delete_document P cfg document_id)) =
       Return (deleted_message document_id) <->
     exists url response data,
       validateConfig cfg = Return tt /\
       build_url P cfg (document_endpoint document_id) no_options = Return url /\
       network url (fetch_options cfg "DELETE" no_options) = Fulfilled response /\
       delivers response data) /\
    (forall original,
       fst (run network (paperless_get_document_download_url
                           P cfg document_id original)) =
         Return (download_text cfg document_id original) <->
       exists url response data,
         validateConfig cfg = Return tt /\
         build_url P cfg (document_endpoint document_id)
           (mkRequestOptions None JUndefined None) = Return url /\
         network url (fetch_options cfg "GET" (mkRequestOptions None JUndefined None))
           = Fulfilled response /\
         delivers response data) /\
    (forall text,
       fst (run network (paperless_delete_document P cfg document_id)) = Return text ->
       text = deleted_message document_id \/ is_error_text text = true).
Proof.
  intros P cfg network document_id. split; [|split].
  - unfold paperless_delete_document.
    rewrite (tool_succeeds network _ _ (deleted_message_is_no_error document_id)).
    unfold del. split.
    + intros [data H]. apply apiRequest_returns in H.
      destruct H as (url & response & H). exists url, response, data. exact H.
    + intros (url & response & data & H). exists data.
      apply apiRequest_returns. eauto.
  - intros original. unfold paperless_get_document_download_url.
    rewrite (tool_succeeds network _ _
               (download_text_is_no_error cfg document_id original)).
    unfold get. split.
    + intros [data H]. apply apiRequest_returns in H.
      destruct H as (url & response & H). exists url, response, data. exact H.
    + intros (url & response & data & H). exists data.
      apply apiRequest_returns. eauto.
  - intros text. unfold paperless_delete_document. rewrite run_tool. cbn [fst].
    destruct (fst (run network (del P cfg (document_endpoint document_id))));
      intros [= <-]; [now left | right; apply handleToolError_is_error_text].
Qed.

Lemma success_is_reported_on_2xx_only_witness :
  fst (run (always (Fulfilled no_content_response))
         (paperless_delete_document plain_address sample_config 7)) =
    Return "Document #7 has been permanently deleted.".
Proof.
  apply (proj2 (proj1 (success_is_reported_on_2xx_only plain_address sample_config
                         (always (Fulfilled no_content_response)) 7))).
  exists (mkURL "https://paperless.example.com/api/documents/7/" []),
         no_content_response, success_sentinel.
  repeat split; try reflexivity.
  left. split; [left|]; reflexivity.
Defined.

Lemma lookup_obj_set_congr {V : Type} (m m' : list (string * V)) k v key :
  lookup key m = lookup key m' ->
  lookup key (obj_set m k v) = lookup key (obj_set m' k v).
Proof.
  intros H. destruct (String.eqb_spec k key) as [->|Hne].
  - now rewrite !lookup_obj_set_same.
  - rewrite !lookup_obj_set_other by congruence. exact H.
Qed.

(** X13. The update handler asks the server only when a field is given:
    without any field it answers with its error text and makes no call.
    With a field it makes one PATCH request to /api/documents/<id>/ whose
    body is the JSON text of the payload built from the input.  Naming
    custom_fields counts as a field although the payload never holds
    them, so that an update of custom fields alone sends the empty
    object. *)
Theorem update_asks_only_with_a_field :
  forall P cfg format params network,
    (nothing_to_update params = true ->
       run network (paperless_update_document P cfg format params) =
         (Return nothing_to_update_message, [])) /\
    (nothing_to_update params = false ->
       validateConfig cfg = Return tt ->
       forall url,
         new_URL P (PAPERLESS_URL cfg ++ document_endpoint (Update.document_id params))
           = Return url ->
         filter is_fetch
           (snd (run network (paperless_update_document P cfg format params))) =
           [Fetched url
              (mkRequestInit "PATCH" (getHeaders cfg "application/json")
                 REQUEST_TIMEOUT_MS
                 (JsonBody (JStr (raw_serialization (JObj (updateData params))))))]) /\
    (Update.custom_fields params <> None ->
       Update.title params = None -> Update.correspondent_id params = None ->
       Update.document_type_id params = None -> Update.tag_ids params = None ->
       Update.archive_serial_number params = None -> Update.created params = None ->
       nothing_to_update params = false /\
       raw_serialization (JObj (updateData params)) = "{}").
Proof.
  intros P cfg format params network. split; [|split].
  - intros Hnone. unfold paperless_update_document. now rewrite Hnone.
  - intros Hsome Hcfg url Hurl. unfold paperless_update_document.
    rewrite Hsome, run_tool. cbn [snd]. unfold patch.
    assert (Hbuild : build_url P cfg (document_endpoint (Update.document_id params))
                       (mkRequestOptions None (JObj (updateData params)) None)
                     = Return url).
    { unfold build_url. now rewrite Hurl. }
    rewrite (proj2 (run_apiRequest P cfg "PATCH" _ _ url network Hcfg Hbuild)).
    unfold fetch_options. cbn [formData request_json is_undefined].
    now rewrite serialize_defined by discriminate.
  - intros Hcustom Htitle Hcorr Htype Htags Hasn Hcreated.
    unfold nothing_to_update, updateData.
    rewrite Htitle, Hcorr, Htype, Htags, Hasn, Hcreated.
    destruct (Update.custom_fields params); [split; reflexivity | contradiction].
Qed.

Lemma update_asks_only_with_a_field_witness :
  filter is_fetch
    (snd (run (always (Rejected "TypeError" "fetch failed"))
            (paperless_update_document plain_address sample_config
               (fun _ => Return "") custom_fields_only))) =
    [Fetched (mkURL "https://paperless.example.com/api/documents/7/" [])
       (mkRequestInit "PATCH" (getHeaders sample_config "application/json")
          30000 (JsonBody (JStr "{}")))].
Proof.
  exact (proj1 (proj2 (update_asks_only_with_a_field plain_address sample_config
                         (fun _ => Return "") custom_fields_only
                         (always (Rejected "TypeError" "fetch failed"))))
           eq_refl eq_refl _ eq_refl).
Defined.

(** X14. The payload of an update holds a key exactly for each of the
    six fields that the input gives: title and created as given, tags as
    the list of ids, and correspondent, document_type and
    archive_serial_number as the given number when it is positive and as
    null otherwise (0 removes the assignment).  It holds no other key,
    none twice, and never the custom fields. *)
Theorem update_payload_holds_given_fields :
  forall params,
    lookup "title" (updateData params) = option_map JStr (Update.title params) /\
    lookup "correspondent" (updateData params) =
      option_map id_or_null (Update.correspondent_id params) /\
    lookup "document_type" (updateData params) =
      option_map id_or_null (Update.document_type_id params) /\
    lookup "tags" (updateData params) = option_map numbers (Update.tag_ids params) /\
    lookup "archive_serial_number" (updateData params) =
      option_map id_or_null (Update.archive_serial_number params) /\
    lookup "created" (updateData params) = option_map JStr (Update.created params) /\
    (forall key, In key (keys (updateData params)) ->
       In key ["title"; "correspondent"; "document_type"; "tags";
               "archive_serial_number"; "created"]) /\
    NoDup (keys (updateData params)) /\
    (forall n, id_or_null n = if 0 <? n then JNum (number_of_Z n) else JNull).
Proof.
  intros params. unfold updateData.
  destruct (Update.title params), (Update.correspondent_id params),
           (Update.document_type_id params), (Update.tag_ids params),
           (Update.archive_serial_number params), (Update.created params);
    cbn;
    (repeat (split; [reflexivity|]));
    (split; [intros key Hkey; tauto|]);
    (split; [|reflexivity]);
    repeat constructor; cbn; intuition discriminate.
Qed.

Lemma update_payload_holds_given_fields_witness :
  In "correspondent" ["title"; "correspondent"; "document_type"; "tags";
                      "archive_serial_number"; "created"] /\
  lookup "correspondent" (updateData sample_update) = Some JNull.
Proof.
  destruct (update_payload_holds_given_fields sample_update)
    as (_ & Hcorr & _ & _ & _ & _ & Hkeys & _).
  split; [apply Hkeys; vm_compute; tauto | exact Hcorr].
Defined.

(** X15. The payload of a create request always holds name and
    is_insensitive; it holds matching_algorithm whenever the input gives
    one, 0 included, and match (for a tag also color) only when the input
    gives a string that is not empty.  Correspondents and document types
    never get a color. *)
Theorem create_payload_fields :
  forall params,
    lookup "name" (tagData params) = Some (JStr (Create.name params)) /\
    lookup "is_insensitive" (tagData params) =
      Some (JBool (Create.is_insensitive params)) /\
    lookup "color" (tagData params) =
      option_map JStr (truthy_string (Create.color params)) /\
    lookup "match" (tagData params) =
      option_map JStr (truthy_string (Create.match_ params)) /\
    lookup "matching_algorithm" (tagData params) =
      option_map (fun a => JNum (number_of_Z a)) (Create.matching_algorithm params) /\
    lookup "color" (create_data params) = None /\
    (forall key, key <> "color" ->
       lookup key (create_data params) = lookup key (tagData params)) /\
    NoDup (keys (tagData params)).
Proof.
  intros params.
  assert (Hsame : forall key, key <> "color" ->
            lookup key (create_data params) = lookup key (tagData params)).
  { intros key Hkey. unfold create_data, tagData.
    destruct (Create.matching_algorithm params); [apply lookup_obj_set_congr|];
      (destruct (truthy_string (Create.match_ params));
       [apply lookup_obj_set_congr|]);
      (destruct (truthy_string (Create.color params)); [|reflexivity]);
      symmetry; apply lookup_obj_set_other; congruence. }
  unfold tagData, create_data in *.
  destruct (truthy_string (Create.color params)),
           (truthy_string (Create.match_ params)),
           (Create.matching_algorithm params);
    (repeat (split; [reflexivity|]));
    try (split; [exact Hsame|]);
    cbn; repeat constructor; cbn; intuition discriminate.
Qed.

Lemma create_payload_fields_witness :
  lookup "matching_algorithm"
    (create_data (Create.mkInput "Bank" None (Some "") (Some 0) true)) =
    Some (JNum (number_of_Z 0)) /\
  lookup "match"
    (create_data (Create.mkInput "Bank" None (Some "") (Some 0) true)) = None.
Proof.
  destruct (create_payload_fields (Create.mkInput "Bank" None (Some "") (Some 0) true))
    as (_ & _ & _ & Hmatch & Halg & _ & Hsame & _).
  rewrite !Hsame by discriminate. split; [exact Halg | exact Hmatch].
Defined.

(* ===================================================================== *)
(** * Query parameters, from the handler to the address *)
(* ===================================================================== *)

Section QueryFacts.
Context {V : Type}.
Implicit Types (m : list (string * V)).

Lemma In_replace_value m k v e :
  In e (replace_value k v m) -> e = (k, v) \/ In e m.
Proof.
  induction m as [|[k0 w] m IH]; simpl; [tauto|].
  destruct (String.eqb_spec k0 k) as [->|_]; simpl.
  - intros [<-|H]; auto.
  - intros [<-|H]; auto. destruct (IH H); auto.
Qed.

Lemma In_insert_new m k v e :
  In e (insert_new k v m) -> e = (k, v) \/ In e m.
Proof.
  induction m as [|[k0 w] m IH]; simpl; [intros [<-|[]]; auto|].
  destruct (array_index k) as [n|].
  - destruct (array_index k0) as [n0|].
    + destruct (n <? n0)%N; simpl.
      * intros [<-|H]; auto.
      * intros [<-|H]; auto. destruct (IH H); auto.
    + simpl. intros [<-|H]; auto.
  - simpl. intros [<-|H]; auto. destruct (IH H); auto.
Qed.

(** An assignment adds the assigned entry and nothing else. *)
Lemma In_obj_set m k v e : In e (obj_set m k v) -> e = (k, v) \/ In e m.
Proof.
  unfold obj_set. destruct (has_key k m);
    [apply In_replace_value | apply In_insert_new].
Qed.

Lemma In_keys_obj_set m k v key :
  In key (keys (obj_set m k v)) -> key = k \/ In key (keys m).
Proof.
  unfold keys. rewrite !in_map_iff. intros ([k' v'] & <- & Hin).
  destruct (In_obj_set _ _ _ _ Hin) as [[= -> ->]|H]; [now left|].
  right. now exists (k', v').
Qed.

End QueryFacts.

Section SentFacts.
Implicit Types (m : list (string * primitive)).

Lemma all_sent_obj_set m k v :
  all_sent m -> is_sent v = true -> all_sent (obj_set m k v).
Proof.
  unfold all_sent. rewrite !Forall_forall. intros Hm Hv e Hin.
  destruct (In_obj_set _ _ _ _ Hin) as [->|H]; auto.
Qed.

Lemma filter_all_sent m :
  all_sent m -> filter (fun kv => is_sent (snd kv)) m = m.
Proof.
  induction 1 as [|e m He _ IH]; simpl; [reflexivity|]. now rewrite He, IH.
Qed.

(** When every entry passes the test of the executor, the query of the
    called address is the address's own followed by the entries. *)
Lemma searchParams_all_sent m url :
  all_sent m ->
  searchParams (append_params url m) =
    (searchParams url ++ map (fun kv => (fst kv, String_of (snd kv))) m)%list.
Proof. intros H. now rewrite searchParams_append_params, filter_all_sent. Qed.

Lemma truthy_string_Some s v : truthy_string s = Some v -> is_sent (PStr v) = true.
Proof.
  unfold truthy_string. destruct s as [w|]; [|discriminate].
  destruct (String.eqb_spec w ""); [discriminate|].
  intros [= <-]. simpl. now apply eqb_empty in n as ->.
Qed.

Lemma some_tags_Some tag_ids ids :
  some_tags tag_ids = Some ids ->
  is_sent (PStr (join "," (map decimal ids))) = true.
Proof.
  unfold some_tags. destruct tag_ids as [[|id rest]|]; try discriminate.
  intros [= <-]. cbn [is_sent map].
  apply negb_true_iff, eqb_empty, join_head_nonempty, Number_toString_nonempty.
Qed.

Lemma document_orderings_nonempty o : In o document_orderings -> o <> "".
Proof. intros Hin ->. simpl in Hin. intuition discriminate. Qed.

End SentFacts.

(** X16. Nothing that the search handler builds is dropped on the way to
    the address: the query of the called address is the address's own
    followed by one entry for each key of the handler's mapping, in its
    order.  The mapping holds page, page_size and ordering always, a
    filter exactly for each input that is given and truthy (a string that
    is not empty, a number other than 0, a list of tags that is not
    empty), the tags as one entry of ids joined with commas, and no key
    twice. *)
Theorem search_parameters_reach_the_query :
  forall params url,
    In (SearchDocuments.ordering params) document_orderings ->
    let apiParams := search_apiParams params in
    searchParams (append_params url apiParams) =
      (searchParams url ++
       map (fun kv => (fst kv, String_of (snd kv))) apiParams)%list /\
    NoDup (keys apiParams) /\
    lookup "page" apiParams = Some (PNum (number_of_Z (SearchDocuments.page params))) /\
    lookup "page_size" apiParams =
      Some (PNum (number_of_Z (SearchDocuments.page_size params))) /\
    lookup "ordering" apiParams = Some (PStr (SearchDocuments.ordering params)) /\
    lookup "query" apiParams = option_map PStr (truthy_string (SearchDocuments.query params)) /\
    lookup "correspondent__id" apiParams =
      option_map (fun id => PNum (number_of_Z id))
        (truthy_number (SearchDocuments.correspondent_id params)) /\
    lookup "document_type__id" apiParams =
      option_map (fun id => PNum (number_of_Z id))
        (truthy_number (SearchDocuments.document_type_id params)) /\
    lookup "tags__id__all" apiParams =
      option_map (fun ids => PStr (join "," (map decimal ids)))
        (some_tags (SearchDocuments.tag_ids params)) /\
    lookup "created__date__gt" apiParams =
      option_map PStr (truthy_string (SearchDocuments.created_after params)) /\
    lookup "created__date__lt" apiParams =
      option_map PStr (truthy_string (SearchDocuments.created_before params)).
Proof.
  intros params url Hordering apiParams. split; [|split].
  - apply searchParams_all_sent. subst apiParams. unfold search_apiParams.
    assert (Hbase : all_sent
              [("page", PNum (number_of_Z (SearchDocuments.page params)));
               ("page_size", PNum (number_of_Z (SearchDocuments.page_size params)));
               ("ordering", PStr (SearchDocuments.ordering params))]).
    { repeat constructor. cbn [snd is_sent].
      now apply negb_true_iff, eqb_empty, document_orderings_nonempty. }
    revert Hbase. generalize
      [("page", PNum (number_of_Z (SearchDocuments.page params)));
       ("page_size", PNum (number_of_Z (SearchDocuments.page_size params)));
       ("ordering", PStr (SearchDocuments.ordering params))].
    intros m0 H0.
    destruct (truthy_string (SearchDocuments.query params)) as [q|] eqn:Eq.
    1: apply (all_sent_obj_set _ "query") with (v := PStr q) in H0;
         [|now apply truthy_string_Some with (s := SearchDocuments.query params)].
    all: destruct (truthy_number (SearchDocuments.correspondent_id params)) as [c|].
    1,3: apply (all_sent_obj_set _ "correspondent__id")
           with (v := PNum (number_of_Z c)) in H0; [|reflexivity].
    all: destruct (truthy_number (SearchDocuments.document_type_id params)) as [d|].
    1,3,5,7: apply (all_sent_obj_set _ "document_type__id")
               with (v := PNum (number_of_Z d)) in H0; [|reflexivity].
    all: destruct (some_tags (SearchDocuments.tag_ids params)) as [ids|] eqn:Et.
    all: try (apply (all_sent_obj_set _ "tags__id__all")
                with (v := PStr (join "," (map decimal ids))) in H0;
              [|now apply some_tags_Some with (tag_ids := SearchDocuments.tag_ids params)]).
    all: destruct (truthy_string (SearchDocuments.created_after params)) as [a|] eqn:Ea.
    all: try (apply (all_sent_obj_set _ "created__date__gt") with (v := PStr a) in H0;
              [|now apply truthy_string_Some
                    with (s := SearchDocuments.created_after params)]).
    all: destruct (truthy_string (SearchDocuments.created_before params)) as [b|] eqn:Eb.
    all: try (apply (all_sent_obj_set _ "created__date__lt") with (v := PStr b) in H0;
              [|now apply truthy_string_Some
                    with (s := SearchDocuments.created_before params)]).
    all: exact H0.
  - subst apiParams. unfold search_apiParams.
    repeat match goal with
           | |- NoDup (keys match ?x with Some _ => _ | None => _ end) => destruct x
           | |- NoDup (keys (obj_set _ _ _)) => apply NoDup_keys_obj_set
           end;
      repeat constructor; cbn; intuition discriminate.
  - subst apiParams. unfold search_apiParams.
    destruct (truthy_string (SearchDocuments.query params)),
             (truthy_number (SearchDocuments.correspondent_id params)),
             (truthy_number (SearchDocuments.document_type_id params)),
             (some_tags (SearchDocuments.tag_ids params)),
             (truthy_string (SearchDocuments.created_after params)),
             (truthy_string (SearchDocuments.created_before params));
      cbn; repeat split; reflexivity.
Qed.

Lemma search_parameters_reach_the_query_witness :
  searchParams
    (append_params (mkURL "https://paperless.example.com/api/documents/" [])
       (search_apiParams sample_search)) =
    [("page", "1"); ("page_size", "25"); ("ordering", "-created");
     ("query", "invoice"); ("document_type__id", "4"); ("tags__id__all", "3,12");
     ("created__date__gt", "2024-01-01")].
Proof.
  refine (proj1 (search_parameters_reach_the_query sample_search
                   (mkURL "https://paperless.example.com/api/documents/" []) _)).
  vm_compute. tauto.
Defined.

(** X17. The three list tools (tags, correspondents, document types) ask
    for page, page_size and the ordering by name, followed by
    name__icontains exactly when a search text that is not empty is
    given; every one of these entries reaches the query of the called
    address. *)
Theorem list_tools_query :
  forall search page page_size url,
    searchParams (append_params url (list_apiParams search page page_size)) =
      (searchParams url ++
       [("page", decimal page); ("page_size", decimal page_size);
        ("ordering", "name")] ++
       match truthy_string search with
       | Some s => [("name__icontains", s)]
       | None => []
       end)%list.
Proof.
  intros search page page_size url.
  rewrite searchParams_append_params. unfold list_apiParams.
  destruct (truthy_string search) as [s|] eqn:E; [|reflexivity].
  apply truthy_string_Some in E. cbn. cbn in E. now rewrite E.
Qed.

(* ===================================================================== *)
(** * Saved views on their way to the query *)
(* ===================================================================== *)

Section SavedViewQueryFacts.

Lemma pagination_is_no_rule_parameter rule :
  compiles_to "page" rule = false /\ compiles_to "page_size" rule = false.
Proof.
  unfold compiles_to, contribution.
  destruct (value rule); [|split; reflexivity].
  destruct (query_parameter (rule_type rule)) as [p|] eqn:E; [|split; reflexivity].
  apply query_parameter_recognized in E. simpl in E.
  repeat (destruct E as [[= _ <-]|E]; [split; reflexivity|]). contradiction.
Qed.

Lemma contribution_parameter rule p v :
  contribution rule = Some (p, v) -> In p (map snd recognized_rule_types).
Proof.
  unfold contribution. destruct (value rule); [|discriminate].
  destruct (query_parameter (rule_type rule)) as [q|] eqn:E; [|discriminate].
  intros [= <- _]. apply query_parameter_recognized in E.
  now apply (in_map snd) in E.
Qed.

Lemma keys_fold_rules rules : forall m key,
  In key (keys (fold_left apply_filter_rule rules m)) ->
  In key (keys m) \/ In key (map snd recognized_rule_types).
Proof.
  induction rules as [|rule rules IH]; intros m key; cbn [fold_left]; [auto|].
  intros H. destruct (IH _ _ H) as [Hin|Hin]; [|auto].
  rewrite apply_filter_rule_contribution in Hin.
  destruct (contribution rule) as [[p v]|] eqn:E; [|auto].
  destruct (In_keys_obj_set _ _ _ _ Hin) as [->|Hm]; [|auto].
  right. eapply contribution_parameter, E.
Qed.

Lemma keys_sort_params input view key :
  In key (keys (sort_params input view)) -> In key ["page"; "page_size"; "ordering"].
Proof.
  unfold sort_params. destruct (sort_field_set view).
  - intros H. destruct (In_keys_obj_set _ _ _ _ H) as [->|Hm]; simpl in *; tauto.
  - simpl. tauto.
Qed.

End SavedViewQueryFacts.

(** X18. Whatever the rules of a saved view are, the handler sends no
    key besides page, page_size, ordering and the six filter parameters
    of the recognized rule types, and the pagination is the one of the
    input: no rule can change page or page_size. *)
Theorem saved_view_parameters_are_known :
  forall input view,
    (forall key, In key (keys (saved_view_apiParams input view)) ->
                 In key saved_view_keys) /\
    lookup "page" (saved_view_apiParams input view) =
      Some (PNum (number_of_Z (page input))) /\
    lookup "page_size" (saved_view_apiParams input view) =
      Some (PNum (number_of_Z (page_size input))).
Proof.
  intros input view. unfold saved_view_apiParams. split; [|split].
  - intros key H. unfold saved_view_keys. apply in_or_app.
    destruct (keys_fold_rules _ _ _ H) as [Hin|Hin]; [left|now right].
    eapply keys_sort_params, Hin.
  - rewrite lookup_fold_rules_other
      by (apply Forall_forall; intros r _; apply pagination_is_no_rule_parameter).
    unfold sort_params. destruct (sort_field_set view); [|reflexivity].
    now rewrite lookup_obj_set_other by discriminate.
  - rewrite lookup_fold_rules_other
      by (apply Forall_forall; intros r _; apply pagination_is_no_rule_parameter).
    unfold sort_params. destruct (sort_field_set view); [|reflexivity].
    now rewrite lookup_obj_set_other by discriminate.
Qed.

Lemma saved_view_parameters_are_known_witness :
  In "title__icontains" saved_view_keys.
Proof.
  apply (proj1 (saved_view_parameters_are_known default_input
                  (view_of (Some "title") false (Some [mkRule 0 (Some "invoice")])))).
  vm_compute. tauto.
Defined.

(** X19. A rule of a recognized type whose value is the empty string
    cancels the filter: when it is the last rule that compiles to its
    parameter, the query of the called address holds no entry for the
    parameter at all, whatever the rules before it assigned. *)
Theorem empty_rule_value_cancels_the_filter :
  forall input view earlier rule later p url,
    rules_of view = (earlier ++ rule :: later)%list ->
    contribution rule = Some (p, "") ->
    Forall (fun r => compiles_to p r = false) later ->
    ~ In p (keys (searchParams url)) ->
    ~ In p (keys (searchParams
                    (append_params url (saved_view_apiParams input view)))).
Proof.
  intros input view earlier rule later p url Hrules Hc Hlater Hown Hin.
  assert (Hp : lookup p (saved_view_apiParams input view) = Some (PStr "")).
  { unfold saved_view_apiParams. rewrite Hrules, fold_left_app. simpl.
    rewrite lookup_fold_rules_other by assumption.
    rewrite apply_filter_rule_contribution, Hc. apply lookup_obj_set_same. }
  assert (Hnd : NoDup (keys (saved_view_apiParams input view))).
  { apply NoDup_keys_fold_rules, NoDup_keys_sort_params. }
  rewrite searchParams_append_params in Hin. unfold keys in Hin.
  rewrite map_app in Hin. apply in_app_or in Hin.
  destruct Hin as [Hin|Hin]; [now apply Hown|].
  rewrite map_map in Hin. apply in_map_iff in Hin.
  destruct Hin as ([k v] & Hk & Hf). cbn [fst snd] in Hk. subst k.
  apply filter_In in Hf. destruct Hf as [Hf Hsent]. cbn [snd] in Hsent.
  apply (In_lookup _ _ _ Hnd) in Hf. rewrite Hp in Hf.
  injection Hf as <-. discriminate Hsent.
Qed.

Lemma empty_rule_value_cancels_the_filter_witness :
  ~ In "title__icontains"
      (keys (searchParams
               (append_params (mkURL "https://paperless.example.com/api/documents/" [])
                  (saved_view_apiParams default_input
                     (view_of None false
                        (Some [mkRule 0 (Some "invoice"); mkRule 0 (Some "")])))))).
Proof.
  apply (empty_rule_value_cancels_the_filter default_input
           (view_of None false
              (Some [mkRule 0 (Some "invoice"); mkRule 0 (Some "")]))
           [mkRule 0 (Some "invoice")] (mkRule 0 (Some "")) []
           "title__icontains"
           (mkURL "https://paperless.example.com/api/documents/" [])
           eq_refl eq_refl (Forall_nil _)).
  simpl. tauto.
Defined.

Section FormatterFacts.

Lemma join_last sep parts line :
  exists before, join sep (parts ++ [line])%list = before ++ line.
Proof.
  unfold join. induction parts as [|p parts IH].
  - now exists "".
  - destruct IH as [before IH]. cbn [List.app String.concat].
    destruct (parts ++ [line])%list as [|q rest] eqn:E.
    + now destruct parts.
    + exists (p ++ sep ++ before). rewrite IH. now rewrite !append_assoc.
Qed.

Lemma algorithm_description_known algorithm :
  0 <= algorithm <= 6 -> algorithm_description algorithm <> "Unknown".
Proof.
  intros H.
  assert (Hcases : algorithm = 0 \/ algorithm = 1 \/ algorithm = 2 \/ algorithm = 3
                   \/ algorithm = 4 \/ algorithm = 5 \/ algorithm = 6) by lia.
  repeat (destruct Hcases as [->|Hcases]; [discriminate|]). now subst.
Qed.

Lemma algorithm_description_unknown algorithm :
  ~ 0 <= algorithm <= 6 -> algorithm_description algorithm = "Unknown".
Proof.
  intros H. unfold algorithm_description, MATCHING_ALGORITHM_DESCRIPTIONS.
  cbn [table_find].
  repeat match goal with
         | |- context [?k =? algorithm] =>
             destruct (Z.eqb_spec k algorithm); [lia|]
         end.
  reflexivity.
Qed.

End FormatterFacts.

(** X20. The matching algorithms that the schema of the create tools
    accepts are exactly those that the formatters can name: an integer is
    accepted (0 to 6) exactly when its description is not "Unknown", and
    refused otherwise.  The line that formatTagMarkdown writes for a tag
    with a match pattern ends with the description of the tag's
    algorithm in parentheses. *)
Theorem accepted_algorithms_have_descriptions :
  forall algorithm,
    (MatchingAlgorithmSchema (Some algorithm) = Some (Some algorithm) <->
     algorithm_description algorithm <> "Unknown") /\
    (MatchingAlgorithmSchema (Some algorithm) = Some (Some algorithm) \/
     MatchingAlgorithmSchema (Some algorithm) = None) /\
    (forall tag, Tag.match_ tag <> "" -> Tag.matching_algorithm tag = algorithm ->
       exists before,
         formatTagMarkdown tag =
           before ++ " (" ++ algorithm_description algorithm ++ ")").
Proof.
  intros algorithm. split; [|split].
  - unfold MatchingAlgorithmSchema, MATCHING_ALGORITHMS_NONE, MATCHING_ALGORITHMS_AUTO.
    destruct (Z.leb_spec 0 algorithm); destruct (Z.leb_spec algorithm 6);
      cbn [andb]; split; intros H';
      try reflexivity; try discriminate H';
      try (apply algorithm_description_known; lia);
      contradiction H'; apply algorithm_description_unknown; lia.
  - unfold MatchingAlgorithmSchema.
    destruct ((MATCHING_ALGORITHMS_NONE <=? algorithm)
              && (algorithm <=? MATCHING_ALGORITHMS_AUTO)); auto.
  - intros tag Hmatch <-. unfold formatTagMarkdown.
    apply eqb_empty in Hmatch. rewrite Hmatch. cbn [negb].
    match goal with
    | |- context [join LF (?parts ++ [?line])%list] =>
        destruct (join_last LF parts line) as [before ->]
    end.
    exists (before ++ "  - Auto-match: " ++ dquote ++ Tag.match_ tag ++ dquote).
    now rewrite !append_assoc.
Qed.

Lemma accepted_algorithms_have_descriptions_witness :
  exists before,
    formatTagMarkdown (Tag.mkTag 3 "Bank" "#a6cee3" "statement" 2 None) =
      before ++ " (All words)".
Proof.
  exact (proj2 (proj2 (accepted_algorithms_have_descriptions 2))
           (Tag.mkTag 3 "Bank" "#a6cee3" "statement" 2 None)
           ltac:(discriminate) eq_refl).
Defined.

(** X21. The handler of a saved view works in two steps and reads only:
    it asks for the view, and asks for documents only when the view came
    back and could be read, with the parameters compiled from that view.
    It makes at most two calls, each a GET without body, and always
    settles with a text; when the first step fails the documents are
    never asked for. *)
Theorem documents_are_asked_after_the_view :
  forall P cfg read_view format input network,
    let ask_view := run network (get P cfg (saved_view_endpoint (view_id input)) None) in
    let outcome := run network (paperless_execute_saved_view
                                  P cfg read_view format input) in
    (exists text, fst outcome = Return text) /\
    snd outcome =
      (snd ask_view ++
       match fst ask_view with
       | Return data =>
           match read_view data with
           | Return view =>
               snd (run network
                      (get P cfg "/api/documents/"
                         (Some (saved_view_apiParams input view))))
           | Throw _ => []
           end
       | Throw _ => []
       end)%list /\
    (network_calls (snd outcome) <= 2)%nat /\
    (forall url init, In (Fetched url init) (snd outcome) ->
       method init = "GET" /\ body init = NoBody).
Proof.
  intros P cfg read_view format input network ask_view outcome.
  assert (Htrace : snd outcome =
      (snd ask_view ++
       match fst ask_view with
       | Return data =>
           match read_view data with
           | Return view =>
               snd (run network
                      (get P cfg "/api/documents/"
                         (Some (saved_view_apiParams input view))))
           | Throw _ => []
           end
       | Throw _ => []
       end)%list).
  { subst outcome ask_view. unfold paperless_execute_saved_view.
    rewrite run_prog_bind. cbn [snd]. f_equal.
    destruct (fst (run network (get P cfg (saved_view_endpoint (view_id input)) None)))
      as [data|error]; [|reflexivity].
    destruct (read_view data) as [view|error]; [|reflexivity].
    now rewrite run_tool. }
  split; [|split; [exact Htrace|split]].
  - subst outcome. unfold paperless_execute_saved_view.
    rewrite run_prog_bind. cbn [fst].
    destruct (fst (run network (get P cfg (saved_view_endpoint (view_id input)) None)))
      as [data|error]; [|cbn; eauto].
    destruct (read_view data) as [view|error]; [|cbn; eauto].
    rewrite run_tool. cbn [fst]. eauto.
  - rewrite Htrace. unfold network_calls. rewrite filter_app, length_app.
    subst ask_view. unfold get.
    pose proof (apiRequest_calls_once P cfg "GET"
                  (saved_view_endpoint (view_id input))
                  (mkRequestOptions None JUndefined None) network) as H1.
    unfold network_calls in H1.
    destruct (fst (run network (apiRequest P cfg "GET" _ _))) as [data|error];
      [|simpl; lia].
    destruct (read_view data) as [view|error]; [|simpl; lia].
    pose proof (apiRequest_calls_once P cfg "GET" "/api/documents/"
                  (mkRequestOptions (Some (saved_view_apiParams input view))
                     JUndefined None) network) as H2.
    unfold network_calls in H2. lia.
  - intros url init. rewrite Htrace. intros Hin. apply in_app_or in Hin.
    destruct Hin as [Hin|Hin].
    + subst ask_view. unfold get in Hin. apply fetched_by_apiRequest in Hin.
      destruct Hin as (_ & _ & ->). split; reflexivity.
    + destruct (fst ask_view) as [data|error]; [|contradiction].
      destruct (read_view data) as [view|error]; [|contradiction].
      unfold get in Hin. apply fetched_by_apiRequest in Hin.
      destruct Hin as (_ & _ & ->). split; reflexivity.
Qed.

Lemma documents_are_asked_after_the_view_witness :
  filter is_fetch
    (snd (run (always (Fulfilled view_response))
            (paperless_execute_saved_view plain_address sample_config
               read_stored_view (fun _ _ => Return "") default_input))) =
    [Fetched (mkURL "https://paperless.example.com/api/saved_views/7/" [])
       (fetch_options sample_config "GET" (mkRequestOptions None JUndefined None));
     Fetched (mkURL "https://paperless.example.com/api/documents/"
                [("page", "1"); ("page_size", "25"); ("ordering", "-created");
                 ("title__icontains", "invoice")])
       (fetch_options sample_config "GET" (mkRequestOptions None JUndefined None))].
Proof.
  rewrite (proj1 (proj2 (documents_are_asked_after_the_view plain_address
                           sample_config read_stored_view (fun _ _ => Return "")
                           default_input (always (Fulfilled view_response))))).
  reflexivity.
Defined.
